(** * Polygot Code Translator: the request orchestration core of
      [src/extension.ts] (language-pair registry, health monitor,
      connectivity probe, response normalizer, retry handling and
      [translateCode]), embedded as executable Rocq definitions.

    The embedding follows the revision of the file that has the health
    check and the retries ([checkApiHealth], [testConnection] and the
    [retryCount] parameter of [translateCode]). *)

From Stdlib Require Import ZArith NArith QArith Qminmax Qround Bool List Lia.
From Stdlib Require Import Ascii String DecimalString.
Import ListNotations.

Local Open Scope Z_scope.

(** [length] is the one of lists throughout. *)
Abbreviation length := List.length (only parsing).

(* ===================================================================== *)
(** * JavaScript strings

    A JavaScript string is a sequence of UTF-16 code units; [length],
    [===], [trim] and the regular expressions of the source all work on
    code units, so the embedding keeps them as a list of numbers. *)
(* ===================================================================== *)

Definition jsstring := list N.

(** A literal of the source (all of them are ASCII). *)
Definition js (s : string) : jsstring :=
  map N_of_ascii (list_ascii_of_string s).

Definition LF : N := 10%N.
Definition BACKTICK : N := 96%N.

(** [a === b] on strings. *)
Fixpoint str_eqb (a b : jsstring) : bool :=
  match a, b with
  | [], [] => true
  | x :: a', y :: b' => N.eqb x y && str_eqb a' b'
  | _, _ => false
  end.

(** Truthiness of a string: every string but the empty one. *)
Definition truthy (s : jsstring) : bool :=
  match s with [] => false | _ :: _ => true end.

(** [a || b] where [a] may be [undefined]. *)
Definition or_else (a : option jsstring) (b : jsstring) : jsstring :=
  match a with
  | Some s => if truthy s then s else b
  | None => b
  end.

(** [`${n}`] for an integer. *)
Definition str_of_Z (z : Z) : jsstring := js (NilZero.string_of_int (Z.to_int z)).

(** ** [String.prototype.trim]

    The code units ECMAScript counts as WhiteSpace or LineTerminator. *)
Definition is_js_space (c : N) : bool :=
  ((9 <=? c) && (c <=? 13) || (c =? 32) || (c =? 160) || (c =? 5760)
   || (8192 <=? c) && (c <=? 8202) || (c =? 8232) || (c =? 8233)
   || (c =? 8239) || (c =? 8287) || (c =? 12288) || (c =? 65279))%N.

Fixpoint trimStart (s : jsstring) : jsstring :=
  match s with
  | c :: s' => if is_js_space c then trimStart s' else s
  | [] => []
  end.

Definition trimEnd (s : jsstring) : jsstring := rev (trimStart (rev s)).

Definition trim (s : jsstring) : jsstring := trimEnd (trimStart s).

(** ** The regular expressions of the source

    The three patterns of the file are sequences of literal code units
    and of the lazy wildcard [[\s\S]*?], anchored with [^] or [$] (no
    [m] or [g] flag).  [match_here] is the backtracking matcher at one
    position: it returns what follows the match. *)

Inductive atom : Type :=
| Chr (c : N)      (* a literal code unit *)
| AnyLazy.         (* [\s\S]*? *)

Record regex : Type := mkRegex {
  from_start : bool;     (* the pattern starts with ^ *)
  atoms : list atom;
  to_end : bool          (* the pattern ends with $ *)
}.

Fixpoint match_here (ats : list atom) (ends : bool) (s : jsstring)
  {struct ats} : option jsstring :=
  match ats with
  | [] =>
      if ends then match s with [] => Some [] | _ :: _ => None end
      else Some s
  | Chr c :: ats' =>
      match s with
      | x :: s' => if N.eqb x c then match_here ats' ends s' else None
      | [] => None
      end
  | AnyLazy :: ats' =>
      (fix lazy (t : jsstring) : option jsstring :=
         match match_here ats' ends t with
         | Some r => Some r
         | None => match t with
                   | [] => None
                   | _ :: t' => lazy t'
                   end
         end) s
  end.

(** The leftmost match: the text before it and the text after it. *)
Fixpoint search (re : regex) (s : jsstring) : option (jsstring * jsstring) :=
  match match_here (atoms re) (to_end re) s with
  | Some r => Some ([], r)
  | None =>
      match s with
      | [] => None
      | c :: s' =>
          if from_start re then None
          else match search re s' with
               | Some (p, r) => Some (c :: p, r)
               | None => None
               end
      end
  end.

(** [s.replace(re, by)] without the [g] flag: the first match only. *)
Definition replace (re : regex) (by_ : jsstring) (s : jsstring) : jsstring :=
  match search re s with
  | Some (p, r) => p ++ by_ ++ r
  | None => s
  end.

(** [/^```[\s\S]*?\n/] *)
Definition opening_fence_re : regex :=
  mkRegex true [Chr BACKTICK; Chr BACKTICK; Chr BACKTICK; AnyLazy; Chr LF] false.

(** [/\n```$/] *)
Definition closing_fence_re : regex :=
  mkRegex false [Chr LF; Chr BACKTICK; Chr BACKTICK; Chr BACKTICK] true.

(** [/\/translate$/] *)
Definition translate_suffix_re : regex :=
  mkRegex false (map Chr (js "/translate")) true.

(** The normalisation of [translateCode] (the chain of two [replace]
    and a [trim] applied to [response.data.translated_code]). *)
Definition codeWithoutMarkdown (translatedCode : jsstring) : jsstring :=
  trim (replace closing_fence_re [] (replace opening_fence_re [] translatedCode)).

(* ===================================================================== *)
(** * The language-pair registry *)
(* ===================================================================== *)

Record LanguagePair : Type := mkPair { from : jsstring; to : jsstring }.

Definition pair_of (a b : string) : LanguagePair := mkPair (js a) (js b).

Definition SUPPORTED_LANGUAGE_PAIRS : list LanguagePair :=
  [ (* Python *)
    pair_of "python" "javascript"; pair_of "javascript" "python";
    pair_of "python" "java"; pair_of "java" "python";
    pair_of "python" "typescript"; pair_of "typescript" "python";
    pair_of "python" "c++"; pair_of "c++" "python";
    pair_of "python" "c#"; pair_of "c#" "python";
    pair_of "python" "ruby"; pair_of "ruby" "python";
    pair_of "python" "go"; pair_of "go" "python";
    pair_of "python" "php"; pair_of "php" "python";
    pair_of "python" "perl"; pair_of "perl" "python";
    pair_of "python" "fortran"; pair_of "fortran" "python";
    pair_of "python" "pascal"; pair_of "pascal" "python";
    (* JavaScript/TypeScript *)
    pair_of "javascript" "java"; pair_of "java" "javascript";
    pair_of "javascript" "typescript"; pair_of "typescript" "javascript";
    pair_of "javascript" "c++"; pair_of "c++" "javascript";
    pair_of "javascript" "c#"; pair_of "c#" "javascript";
    pair_of "javascript" "dart"; pair_of "dart" "javascript";
    pair_of "javascript" "html"; pair_of "html" "javascript";
    pair_of "javascript" "php"; pair_of "php" "javascript";
    (* PHP *)
    pair_of "php" "typescript"; pair_of "typescript" "php";
    (* Java *)
    pair_of "java" "c++"; pair_of "c++" "java";
    pair_of "java" "c#"; pair_of "c#" "java";
    pair_of "java" "go"; pair_of "go" "java";
    pair_of "java" "kotlin"; pair_of "kotlin" "java";
    pair_of "java" "scala"; pair_of "scala" "java";
    pair_of "java" "cobol"; pair_of "cobol" "java";
    (* C/C++ *)
    pair_of "c++" "c"; pair_of "c" "c++";
    pair_of "c++" "rust"; pair_of "rust" "c++";
    pair_of "c++" "c#"; pair_of "c#" "c++";
    (* Web technologies *)
    pair_of "css" "scss"; pair_of "scss" "css";
    pair_of "typescript" "dart"; pair_of "dart" "typescript";
    (* Systems languages *)
    pair_of "rust" "go"; pair_of "go" "rust";
    (* Framework-specific translations *)
    pair_of "flask" "express"; pair_of "express" "flask";
    pair_of "django" "spring"; pair_of "spring" "django";
    pair_of "vue" "react"; pair_of "react" "vue";
    pair_of "jsx" "tsx"; pair_of "tsx" "jsx";
    pair_of "vue" "svelte"; pair_of "svelte" "vue";
    pair_of "angular" "react"; pair_of "react" "angular";
    (* Newer languages *)
    pair_of "swift" "kotlin"; pair_of "kotlin" "swift" ].

(** [Array.from(new Set(xs))]: the first occurrence of each element, in
    insertion order. *)
Fixpoint set_from (seen : list jsstring) (xs : list jsstring) : list jsstring :=
  match xs with
  | [] => []
  | x :: xs' =>
      if existsb (str_eqb x) seen then set_from seen xs'
      else x :: set_from (x :: seen) xs'
  end.

Definition getSupportedTargetLanguages (sourceLang : jsstring) : list jsstring :=
  set_from []
    (map to (filter (fun pair => str_eqb (from pair) sourceLang)
               SUPPORTED_LANGUAGE_PAIRS)).

Definition isLanguagePairSupported (fromLang toLang : jsstring) : bool :=
  existsb (fun pair => str_eqb (from pair) fromLang && str_eqb (to pair) toLang)
    SUPPORTED_LANGUAGE_PAIRS.

(* ===================================================================== *)
(** * Numbers, HTTP responses, errors and the transport *)
(* ===================================================================== *)

(** A JavaScript number as the delays of the source need it: a rational,
    or [NaN] (what [parseInt] gives on a string with no digits). *)
Inductive jsnum : Type :=
| NaN
| Num (q : Q).

Definition times (n : jsnum) (k : Q) : jsnum :=
  match n with
  | NaN => NaN
  | Num q => Num (Qred (q * k))
  end.

Definition digit_of (c : N) : option Z :=
  if ((48 <=? c) && (c <=? 57))%N then Some (Z.of_N c - 48) else None.

Fixpoint digits (acc : Z) (s : jsstring) : Z :=
  match s with
  | c :: s' =>
      match digit_of c with
      | Some d => digits (acc * 10 + d) s'
      | None => acc
      end
  | [] => acc
  end.

(** [parseInt(s, 10)]: leading white space, a sign, then the longest run
    of decimal digits; [NaN] when there is none. *)
Definition parseInt (s : jsstring) : jsnum :=
  let t := trimStart s in
  let '(sign, u) :=
    match t with
    | c :: u' =>
        if N.eqb c 45 then (-1, u')
        else if N.eqb c 43 then (1, u')
        else (1, t)
    | [] => (1, t)
    end in
  match u with
  | c :: _ =>
      match digit_of c with
      | Some _ => Num (inject_Z (sign * digits 0 u))
      | None => NaN
      end
  | [] => NaN
  end.

(** The part of an Axios response the source reads
    ([TranslationResponse] for [data]). *)
Record Response : Type := mkResponse {
  status : Z;
  statusText : jsstring;
  retry_after : option jsstring;       (* headers['retry-after'] *)
  data_message : option jsstring;      (* data?.message *)
  translated_code : option jsstring    (* data?.translated_code *)
}.

(** The values the [catch] blocks receive: an [AxiosError] (recognised by
    [axios.isAxiosError]) or a plain [Error]. *)
Inductive Error : Type :=
| AxiosError (code : option jsstring) (message : jsstring)
    (response : option Response) (request : bool)
| PlainError (message : jsstring).

Definition error_code (e : Error) : option jsstring :=
  match e with
  | AxiosError code _ _ _ => code
  | PlainError _ => None
  end.

Definition error_message (e : Error) : jsstring :=
  match e with
  | AxiosError _ message _ _ => message
  | PlainError message => message
  end.

(** What becomes of one request: an HTTP reply; a failure of the
    transport, which Axios reports with [error.code], [error.message] and
    [error.request] set or not; or an error that is not an [AxiosError]. *)
Inductive Transport : Type :=
| Replied (r : Response)
| Failed (code : option jsstring) (message : jsstring) (request : bool)
| Crashed (message : jsstring).

(** Axios settles a reply with the [validateStatus] option of the call:
    the promise resolves when it accepts the status, and rejects with an
    [AxiosError] carrying the response otherwise. *)
Definition bad_status_code (s : Z) : option jsstring :=
  if (400 <=? s) && (s <? 500) then Some (js "ERR_BAD_REQUEST")
  else if (500 <=? s) && (s <? 600) then Some (js "ERR_BAD_RESPONSE")
  else None.

Definition axios_settle (validateStatus : Z -> bool) (t : Transport)
  : Response + Error :=
  match t with
  | Replied r =>
      if (status r =? 0) || validateStatus (status r) then inl r
      else inr (AxiosError (bad_status_code (status r))
                  (js "Request failed with status code " ++ str_of_Z (status r))
                  (Some r) true)
  | Failed code message request => inr (AxiosError code message None request)
  | Crashed message => inr (PlainError message)
  end.

Record TranslationRequest : Type := mkRequest {
  source_code : jsstring;
  from_lang : jsstring;
  to_lang : jsstring;
  preserve_comments : bool
}.

(* ===================================================================== *)
(** * Effects

    The module state ([isApiHealthy], [lastApiCheck]) is threaded
    explicitly; what the function does to the outside (requests, timers,
    editor dialogs and commands, the clipboard) is recorded in a trace; what the outside answers to
    one invocation of [translateCode] is a [World]. *)
(* ===================================================================== *)

Record Global : Type := mkGlobal {
  isApiHealthy : bool;
  lastApiCheck : Z
}.

(** [let isApiHealthy = true; let lastApiCheck = 0;] *)
Definition initial_state : Global := mkGlobal true 0.

Inductive Event : Type :=
| HttpGet (url : jsstring)
| HttpHead (url : jsstring)
| HttpPost (url : jsstring) (payload : TranslationRequest)
| Sleep (ms : jsnum)
| ShowErrorMessage (text : jsstring) (items : list jsstring)
| ShowWarningMessage (text : jsstring)
| ExecuteCommand (command : jsstring)
| OpenExternal (uri : jsstring)
| ShowDiagnostics
| ClipboardWriteText (text : jsstring).

Record World : Type := mkWorld {
  apiEndpoint : jsstring;         (* config.get('apiEndpoint', ...) *)
  now : Z;                        (* Date.now() in checkApiHealth *)
  health_reply : Transport;       (* the answer to the health GET *)
  probe_start : Z;                (* Date.now() before the HEAD *)
  probe_reply : Transport;        (* the answer to the HEAD *)
  probe_end : Z;                  (* Date.now() after the HEAD *)
  health_choice : option jsstring; (* the button of the unavailable dialog *)
  post_reply : Transport;         (* the answer to the translate POST *)
  random : Q;                     (* Math.random() *)
  timeout_choice : option jsstring; (* the button of the timed-out dialog *)
  unsupported_choice : option jsstring (* the button of the unsupported-pair dialog *)
}.

(** How a block of an [async] function completes: it falls through with a
    value, throws, or executes a [return]; [translateCode] returns either
    a string or the promise of a recursive call with a retry count. *)
Inductive Ret : Type :=
| RetValue (s : jsstring)
| RetCall (retryCount : Z).

Inductive Comp (A : Type) : Type :=
| Normal (a : A)
| Throws (e : Error)
| Returns (r : Ret).

Arguments Normal {A} a.
Arguments Throws {A} e.
Arguments Returns {A} r.

Definition M (A : Type) : Type := Global -> Global * list Event * Comp A.

Definition ret {A} (a : A) : M A := fun g => (g, [], Normal a).

Definition bind {A B} (m : M A) (k : A -> M B) : M B :=
  fun g =>
    match m g with
    | (g1, t1, Normal a) =>
        match k a g1 with
        | (g2, t2, c) => (g2, t1 ++ t2, c)
        end
    | (g1, t1, Throws e) => (g1, t1, Throws e)
    | (g1, t1, Returns r) => (g1, t1, Returns r)
    end.

Definition throw {A} (e : Error) : M A := fun g => (g, [], Throws e).

Definition return_ {A} (r : Ret) : M A := fun g => (g, [], Returns r).

(** [try { m } catch (error) { handler error }] *)
Definition try_catch {A} (m : M A) (handler : Error -> M A) : M A :=
  fun g =>
    match m g with
    | (g1, t1, Throws e) =>
        match handler e g1 with
        | (g2, t2, c) => (g2, t1 ++ t2, c)
        end
    | other => other
    end.

Definition tell (e : Event) : M unit := fun g => (g, [e], Normal tt).

Definition get_isApiHealthy : M bool := fun g => (g, [], Normal (isApiHealthy g)).
Definition get_lastApiCheck : M Z := fun g => (g, [], Normal (lastApiCheck g)).
Definition set_isApiHealthy (b : bool) : M unit :=
  fun g => (mkGlobal b (lastApiCheck g), [], Normal tt).
Definition set_lastApiCheck (t : Z) : M unit :=
  fun g => (mkGlobal (isApiHealthy g) t, [], Normal tt).

Declare Scope js_scope.
Delimit Scope js_scope with js_.
Notation "x <- m ;; k" := (bind m (fun x => k))
  (at level 61, m at next level, right associativity) : js_scope.
Notation "m ;; k" := (bind m (fun _ => k))
  (at level 61, right associativity) : js_scope.
Local Open Scope js_scope.

(** [await axios.get/head/post(...)]: the request leaves, and the reply
    of the world is settled under the call's [validateStatus]. *)
Definition await_axios (request : Event) (validateStatus : Z -> bool)
  (reply : Transport) : M Response :=
  fun g =>
    (g, [request],
     match axios_settle validateStatus reply with
     | inl r => Normal r
     | inr e => Throws e
     end).

(** [await new Promise(resolve => setTimeout(resolve, ms))] *)
Definition sleep (ms : jsnum) : M unit := tell (Sleep ms).

(* ===================================================================== *)
(** * The connectivity probe and the health monitor *)
(* ===================================================================== *)

Record ConnectionTest : Type := mkConnectionTest {
  success : bool;
  test_status : option Z;
  test_message : jsstring
}.

Definition testConnection (w : World) (url : jsstring) : M ConnectionTest :=
  try_catch
    (let startTime := probe_start w in
     response <- await_axios (HttpHead url) (fun _ => true) (probe_reply w) ;;
     let responseTime := probe_end w - startTime in
     ret (mkConnectionTest
            (status response <? 400)
            (Some (status response))
            (js "Connection successful (" ++ str_of_Z (status response)
               ++ js " in " ++ str_of_Z responseTime ++ js "ms)")))
    (fun error =>
       ret (mkConnectionTest false None
              (js "Connection failed: "
                 ++ or_else (error_code error) (error_message error)))).

Definition API_HEALTH_CHECK_INTERVAL : Z := 5 * 60 * 1000.

Record HealthCheck : Type := mkHealthCheck {
  isHealthy : bool;
  health_message : option jsstring
}.

Definition checkApiHealth (w : World) (endpoint : jsstring) : M HealthCheck :=
  let now_ := now w in
  last <- get_lastApiCheck ;;
  if now_ - last <? API_HEALTH_CHECK_INTERVAL then
    healthy <- get_isApiHealthy ;;
    ret (mkHealthCheck healthy None)
  else
    let healthCheckUrl := replace translate_suffix_re (js "/health") endpoint in
    try_catch
      (set_lastApiCheck now_ ;;
       response <- await_axios (HttpGet healthCheckUrl) (fun _ => true)
                     (health_reply w) ;;
       set_isApiHealthy (status response =? 200) ;;
       healthy <- get_isApiHealthy ;;
       ret (mkHealthCheck healthy
              (Some (if healthy then js "API is healthy"
                     else js "API returned status " ++ str_of_Z (status response)))))
      (fun error =>
         set_isApiHealthy false ;;
         ret (mkHealthCheck false
                (Some (js "Connection failed: "
                         ++ or_else (error_code error) (error_message error))))).

(* ===================================================================== *)
(** * [translateCode]

    One invocation is [translateCode_body]; the blocks below are the
    consecutive parts of its text.  The timer that aborts the request
    after [timeoutMs] acts on the request only, so its effect is part of
    the [post_reply] of the world; the [console] calls are left out. *)
(* ===================================================================== *)

Definition maxRetries : Z := 1.
Definition MAX_CODE_LENGTH : Z := 10000.

(** [`${x}`] for a value that may be [undefined]. *)
Definition template (x : option jsstring) : jsstring :=
  match x with
  | Some s => s
  | None => js "undefined"
  end.

Definition is_choice (result : option jsstring) (item : string) : bool :=
  match result with
  | Some s => str_eqb s (js item)
  | None => false
  end.

Definition code_is (code : option jsstring) (name : string) : bool :=
  match code with
  | Some c => str_eqb c (js name)
  | None => false
  end.

Definition status_is (response : option Response) (s : Z) : bool :=
  match response with
  | Some r => status r =? s
  | None => false
  end.

(** The health check and the dialog of an unavailable service. *)
Definition health_gate (w : World) (retryCount : Z) : M unit :=
  healthCheck <- checkApiHealth w (apiEndpoint w) ;;
  if negb (isHealthy healthCheck) then
    connectionTest <- testConnection w (apiEndpoint w) ;;
    let errorMessage :=
      js "The translation service is currently unavailable." ++ [LF]
        ++ js "Health Check: " ++ template (health_message healthCheck) ++ [LF]
        ++ js "Connection Test: " ++ test_message connectionTest in
    tell (ShowErrorMessage errorMessage
            [js "Try Anyway"; js "Check Again"; js "Open Network Settings";
             js "Cancel"]) ;;
    let result := health_choice w in
    if is_choice result "Check Again" then
      set_lastApiCheck 0 ;;
      return_ (RetCall retryCount)
    else if is_choice result "Open Network Settings" then
      tell (ExecuteCommand (js "workbench.action.network.settings")) ;;
      throw (PlainError (js "Please check your network settings and try again."))
    else if negb (is_choice result "Try Anyway") then
      throw (PlainError (js "Translation aborted by user"))
    else ret tt
  else ret tt.

(** The size ceiling. *)
Definition size_check (code : jsstring) : M unit :=
  if Z.of_nat (length code) >? MAX_CODE_LENGTH then
    let text :=
      js "The code is too large (" ++ str_of_Z (Z.of_nat (length code))
        ++ js " characters). "
        ++ js "Please try with a smaller piece of code (under "
        ++ str_of_Z MAX_CODE_LENGTH ++ js " characters)." in
    tell (ShowWarningMessage text) ;;
    throw (PlainError (js "Code too large for translation"))
  else ret tt.

(** The admission of the language pair.  The [then] of the dialog is not
    awaited: it runs once the user has answered, and is recorded after
    the dialog that starts it (nothing else happens in between, the
    error thrown here only gets its prefix in the outer [catch]). *)
Definition pair_check (w : World) (sourceLang targetLang : jsstring) : M unit :=
  if negb (isLanguagePairSupported sourceLang targetLang) then
    let text :=
      js "Translation from " ++ sourceLang ++ js " to " ++ targetLang
        ++ js " is not currently supported." ++ [LF; LF]
        ++ js "If you need this translation, please contact us at info@unelmaplatforms.com to request support for this language pair." in
    tell (ShowErrorMessage text [js "Copy Email Address"]) ;;
    (if is_choice (unsupported_choice w) "Copy Email Address" then
       tell (ClipboardWriteText (js "info@unelmaplatforms.com"))
     else ret tt) ;;
    throw (PlainError (js "Translation from " ++ sourceLang ++ js " to "
                         ++ targetLang ++ js " is not supported."))
  else ret tt.

(** The inner [try] block: the POST and the reading of its response. *)
Definition attempt (w : World) (code sourceLang targetLang : jsstring)
  (preserveComments : bool) : M Empty_set :=
  let requestPayload := mkRequest code sourceLang targetLang preserveComments in
  response <- await_axios (HttpPost (apiEndpoint w) requestPayload)
                (fun s => s <? 500) (post_reply w) ;;
  if (status response >=? 200) && (status response <? 300) then
    match translated_code response with
    | Some translatedCode =>
        if truthy translatedCode then
          let cleaned := codeWithoutMarkdown translatedCode in
          if negb (truthy cleaned) then
            throw (PlainError (js "Received empty translation from the server"))
          else return_ (RetValue cleaned)
        else
          throw (PlainError (js "Invalid response format from translation service: Missing translated_code"))
    | None =>
        throw (PlainError (js "Invalid response format from translation service: Missing translated_code"))
    end
  else
    let errorMessage :=
      or_else (data_message response)
        (or_else (Some (statusText response))
           (js "Request failed with status " ++ str_of_Z (status response))) in
    throw (PlainError (js "Translation failed: " ++ errorMessage)).

(** The [retry-after] wait of both handlers. *)
Definition retryAfter (r : Response) : jsnum :=
  times (parseInt (or_else (retry_after r) (js "5"))) 1000.

(** The inner [catch] block. *)
Definition inner_catch (retryCount : Z) (error : Error) : M Empty_set :=
  match error with
  | AxiosError code message response request =>
      if code_is code "ECONNABORTED" || status_is response 504 then
        if retryCount >? 0 then
          sleep (Num 1000) ;;
          return_ (RetCall (retryCount - 1))
        else
          throw (PlainError (js "Translation service is currently unavailable. The request timed out."))
      else
        match response with
        | Some r =>
            let text :=
              or_else (data_message r)
                (or_else (Some message) (js "Unknown error occurred")) in
            if status r =? 429 then
              if retryCount >? 0 then
                sleep (retryAfter r) ;;
                return_ (RetCall (retryCount - 1))
              else
                throw (PlainError (js "Translation service rate limit exceeded. Please try again later."))
            else
              throw (PlainError (js "Translation failed (" ++ str_of_Z (status r)
                                   ++ js "): " ++ text))
        | None =>
            if request then
              throw (PlainError (js "No response received from the translation service. Please check your connection."))
            else
              throw (PlainError (js "Failed to send translation request: " ++ message))
        end
  | PlainError message =>
      throw (PlainError (js "Translation failed: " ++ message))
  end.

(** [Math.min(1000 * Math.pow(2, maxRetries - retryCount), 30000)] *)
Definition backoffTime (retryCount : Z) : Q :=
  Qmin (1000 * Qpower 2 (maxRetries - retryCount)) 30000.

(** [Math.floor(Math.random() * 1000)] *)
Definition jitter (w : World) : Z := Qfloor (random w * 1000).

(** The outer [catch] block. *)
Definition outer_catch (w : World) (retryCount : Z) (error : Error)
  : M Empty_set :=
  match error with
  | AxiosError code message response request =>
      if code_is code "ECONNABORTED" || status_is response 504 then
        if retryCount >? 0 then
          sleep (Num (Qred (backoffTime retryCount + inject_Z (jitter w)))) ;;
          return_ (RetCall (retryCount - 1))
        else
          let text :=
            js "The translation service is currently unavailable or timed out."
              ++ [LF; LF]
              ++ js "This could be due to high server load or maintenance." ++ [LF]
              ++ js "Please try again later or contact support if the issue persists." in
          tell (ShowErrorMessage text
                  [js "Retry"; js "Open Documentation";
                   js "Show Network Diagnostics"]) ;;
          (if is_choice (timeout_choice w) "Retry" then
             tell (ExecuteCommand (js "polygot.translateCode"))
           else if is_choice (timeout_choice w) "Open Documentation" then
             tell (OpenExternal (js "https://unelmasupport.com"))
           else if is_choice (timeout_choice w) "Show Network Diagnostics" then
             tell ShowDiagnostics
           else ret tt) ;;
          throw (PlainError (js "Translation service unavailable. Please try again later."))
      else
        match response with
        | Some r =>
            let text :=
              or_else (data_message r)
                (or_else (Some message) (js "Unknown error occurred")) in
            if status r =? 429 then
              if retryCount >? 0 then
                sleep (retryAfter r) ;;
                return_ (RetCall (retryCount - 1))
              else
                throw (PlainError (js "Translation service rate limit exceeded. Please try again later."))
            else if status r =? 413 then
              throw (PlainError (js "The code is too large to translate. Please reduce the size and try again."))
            else
              throw (PlainError (js "Translation failed (" ++ str_of_Z (status r)
                                   ++ js "): " ++ text))
        | None =>
            if request then
              if (retryCount >? 0)
                 && (code_is code "ECONNRESET" || code_is code "ETIMEDOUT"
                     || code_is code "ENOTFOUND") then
                sleep (Num (Qred (1000 * Qpower 2 (maxRetries - retryCount)))) ;;
                return_ (RetCall (retryCount - 1))
              else if code_is code "ENOTFOUND" then
                throw (PlainError (js "Could not connect to the translation service. Please check your internet connection."))
              else if code_is code "ECONNRESET" then
                throw (PlainError (js "Connection to the translation service was reset. Please try again."))
              else
                throw (PlainError (js "No response received from the translation service. Please check your connection."))
            else
              throw (PlainError (js "Failed to send translation request: " ++ message))
        end
  | PlainError message =>
      throw (PlainError (js "Translation failed: " ++ message))
  end.

Definition translateCode_body (w : World) (code sourceLang targetLang : jsstring)
  (preserveComments : bool) (retryCount : Z) : M Empty_set :=
  try_catch
    (health_gate w retryCount ;;
     size_check code ;;
     pair_check w sourceLang targetLang ;;
     try_catch
       (attempt w code sourceLang targetLang preserveComments)
       (inner_catch retryCount))
    (outer_catch w retryCount).

(** What the caller of [translateCode] observes: the promise fulfils with
    the translated text or rejects with an error. *)
Inductive Outcome : Type :=
| Success (translatedText : jsstring)
| Failure (e : Error).

(** The whole call: [return translateCode(...)] runs the body again in
    the next world.  The list of worlds is what the outside answers,
    invocation after invocation; [None] means that the call has not
    completed within these invocations. *)
Fixpoint translateCode (ws : list World) (g : Global)
  (code sourceLang targetLang : jsstring) (preserveComments : bool)
  (retryCount : Z) : option (Global * list Event * Outcome) :=
  match ws with
  | [] => None
  | w :: ws' =>
      match translateCode_body w code sourceLang targetLang preserveComments
              retryCount g with
      | (g1, t1, Returns (RetValue s)) => Some (g1, t1, Success s)
      | (g1, t1, Throws e) => Some (g1, t1, Failure e)
      | (g1, t1, Returns (RetCall retryCount')) =>
          match translateCode ws' g1 code sourceLang targetLang
                  preserveComments retryCount' with
          | Some (g2, t2, o) => Some (g2, t1 ++ t2, o)
          | None => None
          end
      | (_, _, Normal impossible) => match impossible with end
      end
  end.

(** The default of the [retryCount] parameter, which the only caller
    ([showTranslationDialog]) relies on. *)
Definition DEFAULT_RETRY_COUNT : Z := 1.

(* ===================================================================== *)
(** * What the specification says of the normalizer, in its own words *)
(* ===================================================================== *)

Definition fence : jsstring := [BACKTICK; BACKTICK; BACKTICK].

(** Everything up to and including the next line break is dropped;
    [None] when there is no line break. *)
Fixpoint after_line_break (s : jsstring) : option jsstring :=
  match s with
  | [] => None
  | c :: s' => if N.eqb c LF then Some s' else after_line_break s'
  end.

(** One leading fence: the delimiter plus everything up to and including
    the next line break. *)
Definition strip_leading_fence (s : jsstring) : jsstring :=
  match s with
  | a :: b :: c :: t =>
      if N.eqb a BACKTICK && N.eqb b BACKTICK && N.eqb c BACKTICK then
        match after_line_break t with
        | Some rest => rest
        | None => s
        end
      else s
  | _ => s
  end.

(** One trailing fence: a line break followed by the delimiter at the
    very end. *)
Definition strip_trailing_fence (s : jsstring) : jsstring :=
  let n := (length s - 4)%nat in
  if str_eqb (skipn n s) (LF :: fence) then firstn n s else s.

Definition normalize_spec (raw : jsstring) : jsstring :=
  trim (strip_trailing_fence (strip_leading_fence raw)).

(* ===================================================================== *)
(** * Observers of a trace *)
(* ===================================================================== *)

Definition is_post (e : Event) : bool :=
  match e with HttpPost _ _ => true | _ => false end.

Definition is_network (e : Event) : bool :=
  match e with
  | HttpGet _ | HttpHead _ | HttpPost _ _ => true
  | _ => false
  end.

Definition is_sleep (e : Event) : bool :=
  match e with Sleep _ => true | _ => false end.

Definition count (p : Event -> bool) (tr : list Event) : nat :=
  length (filter p tr).

(** The delays of the timers of a trace, in order. *)
Fixpoint sleeps (tr : list Event) : list jsnum :=
  match tr with
  | [] => []
  | Sleep ms :: tr' => ms :: sleeps tr'
  | _ :: tr' => sleeps tr'
  end.

(* ===================================================================== *)
(** * Vocabulary of the statements *)
(* ===================================================================== *)

(** The answer of the health endpoint as [checkApiHealth] reads it. *)
Definition health_verdict (w : World) : HealthCheck :=
  match health_reply w with
  | Replied r =>
      mkHealthCheck (status r =? 200)
        (Some (if status r =? 200 then js "API is healthy"
               else js "API returned status " ++ str_of_Z (status r)))
  | Failed code message _ =>
      mkHealthCheck false (Some (js "Connection failed: " ++ or_else code message))
  | Crashed message =>
      mkHealthCheck false (Some (js "Connection failed: " ++ or_else None message))
  end.

Definition healthCheckUrl (endpoint : jsstring) : jsstring :=
  replace translate_suffix_re (js "/health") endpoint.

(** What follows the health gate inside the outer [try]. *)
Definition request_phase (w : World) (code sourceLang targetLang : jsstring)
  (preserveComments : bool) (retryCount : Z) : M Empty_set :=
  size_check code ;;
  pair_check w sourceLang targetLang ;;
  try_catch
    (attempt w code sourceLang targetLang preserveComments)
    (inner_catch retryCount).

(** What the outer [catch] makes of a completion that carries a plain
    error: the message gets one more prefix. *)
Definition rethrown {A} (c : Comp A) : Comp A :=
  match c with
  | Throws e => Throws (PlainError (js "Translation failed: " ++ error_message e))
  | other => other
  end.

(** The texts of the two rejection dialogs. *)
Definition too_large_text (code : jsstring) : jsstring :=
  js "The code is too large (" ++ str_of_Z (Z.of_nat (length code))
    ++ js " characters). "
    ++ js "Please try with a smaller piece of code (under "
    ++ str_of_Z MAX_CODE_LENGTH ++ js " characters).".

Definition unsupported_text (sourceLang targetLang : jsstring) : jsstring :=
  js "Translation from " ++ sourceLang ++ js " to " ++ targetLang
    ++ js " is not currently supported." ++ [LF; LF]
    ++ js "If you need this translation, please contact us at info@unelmaplatforms.com to request support for this language pair.".

(** What the user sees of an unsupported pair: the dialog, and the e-mail
    address on the clipboard when its button is pressed. *)
Definition unsupported_notice (w : World) (sourceLang targetLang : jsstring)
  : list Event :=
  ShowErrorMessage (unsupported_text sourceLang targetLang)
    [js "Copy Email Address"]
    :: (if is_choice (unsupported_choice w) "Copy Email Address" then
          [ClipboardWriteText (js "info@unelmaplatforms.com")]
        else []).

(** The replies after which [translateCode] retries: HTTP 504, and the
    time-out that Axios reports as [ECONNABORTED]. *)
Definition timed_out (reply : Transport) : bool :=
  match reply with
  | Replied r => status r =? 504
  | Failed code _ _ => code_is code "ECONNABORTED"
  | Crashed _ => false
  end.

(** The user does not ask for another health check. *)
Definition no_check_again (w : World) : Prop :=
  is_choice (health_choice w) "Check Again" = false.

(* ===================================================================== *)
(** * Sample replies and worlds *)
(* ===================================================================== *)

Definition default_endpoint : jsstring :=
  js "https://translate.u16p.com/api/v1/translate".

Definition reply_200 : Transport :=
  Replied (mkResponse 200 (js "OK") None None None).

Definition reply_503 : Transport :=
  Replied (mkResponse 503 (js "Service Unavailable") None None None).

(** HTTP 429 with [retry-after: 2]. *)
Definition reply_429 : Transport :=
  Replied (mkResponse 429 (js "Too Many Requests") (Some (js "2")) None None).

(** The request timed out (Axios reports [ECONNABORTED]). *)
Definition reply_timeout : Transport :=
  Failed (Some (js "ECONNABORTED")) (js "timeout of 10000ms exceeded") true.

(** The request was aborted through its [AbortController] (Axios reports
    [ERR_CANCELED]). *)
Definition reply_aborted : Transport :=
  Failed (Some (js "ERR_CANCELED")) (js "canceled") true.

(** DNS failure. *)
Definition reply_dns : Transport :=
  Failed (Some (js "ENOTFOUND")) (js "getaddrinfo ENOTFOUND translate.u16p.com") true.

Definition reply_translated (payload : jsstring) : Transport :=
  Replied (mkResponse 200 (js "OK") None None (Some payload)).

(** The fenced payload of the specification. *)
Definition fenced_print : jsstring :=
  js "```python" ++ [LF] ++ js "print(1)" ++ [LF] ++ js "```".

(** A world at clock [t]: the health endpoint and the probe get
    [health], the user picks [choice], the POST gets [post], and
    [Math.random()] draws 1/2. *)
Definition world_at (t : Z) (health : Transport) (choice : option jsstring)
  (post : Transport) : World :=
  mkWorld default_endpoint t health t health (t + 40) choice post (1 # 2)
    None None.

Definition clock0 : Z := 1700000000000.

(** 10,001 characters. *)
Definition long_code : jsstring := repeat 97%N (Z.to_nat 10001).

(** The network calls of a completed call. *)
Definition network_calls (r : option (Global * list Event * Outcome)) : list Event :=
  match r with
  | Some (_, tr, _) => filter is_network tr
  | None => []
  end.

Definition outcome_of (r : option (Global * list Event * Outcome)) : option Outcome :=
  match r with
  | Some (_, _, o) => Some o
  | None => None
  end.

(** How the kinds of failure of the specification surface: the message
    of the [throw] of the source, with the prefixes the [catch] blocks
    add on its way out. *)
Definition UnsupportedFailure (sourceLang targetLang : jsstring) : Outcome :=
  Failure (PlainError (js "Translation failed: "
                         ++ js "Translation from " ++ sourceLang ++ js " to "
                         ++ targetLang ++ js " is not supported.")).

Definition PayloadTooLargeFailure : Outcome :=
  Failure (PlainError (js "Translation failed: "
                         ++ js "Code too large for translation")).

Definition EmptyPayloadFailure : Outcome :=
  Failure (PlainError (js "Translation failed: " ++ js "Translation failed: "
                         ++ js "Received empty translation from the server")).

Definition MissingPayloadFailure : Outcome :=
  Failure (PlainError (js "Translation failed: " ++ js "Translation failed: "
                         ++ js "Invalid response format from translation service: Missing translated_code")).

Definition ServiceUnavailableFailure : Outcome :=
  Failure (PlainError (js "Translation failed: "
                         ++ js "Translation service is currently unavailable. The request timed out.")).

Definition RateLimitedFailure : Outcome :=
  Failure (PlainError (js "Translation failed: "
                         ++ js "Translation service rate limit exceeded. Please try again later.")).

(** The health check fails and the user picks [Check Again]. *)
Definition world_check_again : World :=
  world_at clock0 reply_503 (Some (js "Check Again")) reply_200.

(** The request times out once, then the service answers with the fenced
    payload; [Math.random()] draws 1/2 in both worlds. *)
Definition worlds_timeout_then_success : list World :=
  [world_at clock0 reply_200 None reply_timeout;
   world_at (clock0 + 11000) reply_200 None (reply_translated fenced_print)].

(* ===================================================================== *)
(** * The shell around the core: language detection and the dialog *)
(* ===================================================================== *)

Definition DOT : N := 46%N.

(** [s.endsWith(suffix)] *)
Definition endsWith (s suffix : jsstring) : bool :=
  str_eqb (skipn (length s - length suffix) s) suffix.

(** [s.lastIndexOf(c)] for one code unit [c]: the index of its last
    occurrence, or -1. *)
Fixpoint lastIndexOf_from (c : N) (s : jsstring) (i found : Z) : Z :=
  match s with
  | [] => found
  | x :: s' => lastIndexOf_from c s' (i + 1) (if N.eqb x c then i else found)
  end.

Definition lastIndexOf (c : N) (s : jsstring) : Z := lastIndexOf_from c s 0 (-1).

(** [s.substring(start)]: a negative [start] counts as 0, one beyond the
    end gives the empty string. *)
Definition substring (s : jsstring) (start : Z) : jsstring :=
  skipn (Z.to_nat start) s.

(** What a property access on an object literal of strings evaluates to:
    [undefined], one of its strings, or a member inherited from
    [Object.prototype]. *)
Inductive jsvalue : Type :=
| Undefined
| Str (s : jsstring)
| Inherited (name : jsstring).

Definition object_prototype_names : list jsstring :=
  map js
    [ "constructor"; "__proto__"; "hasOwnProperty"; "isPrototypeOf";
      "propertyIsEnumerable"; "toLocaleString"; "toString"; "valueOf";
      "__defineGetter__"; "__defineSetter__"; "__lookupGetter__";
      "__lookupSetter__" ]%string.

Fixpoint own_property (props : list (jsstring * jsstring)) (key : jsstring)
  : option jsstring :=
  match props with
  | [] => None
  | (k, v) :: props' => if str_eqb k key then Some v else own_property props' key
  end.

(** [object[key]] *)
Definition object_get (props : list (jsstring * jsstring)) (key : jsstring)
  : jsvalue :=
  match own_property props key with
  | Some v => Str v
  | None =>
      if existsb (str_eqb key) object_prototype_names then Inherited key
      else Undefined
  end.

Definition value_truthy (v : jsvalue) : bool :=
  match v with
  | Undefined => false
  | Str s => truthy s
  | Inherited _ => true
  end.

(** [a || b] *)
Definition value_or (a b : jsvalue) : jsvalue :=
  if value_truthy a then a else b.

(** The map from file extensions (and framework file names) to language
    tags. *)
Definition EXTENSION_TO_LANGUAGE : list (jsstring * jsstring) :=
  [ (js ".py", js "python"); (js ".js", js "javascript");
    (js ".jsx", js "jsx"); (js ".ts", js "typescript");
    (js ".tsx", js "tsx"); (js ".java", js "java");
    (js ".kt", js "kotlin"); (js ".scala", js "scala"); (js ".c", js "c");
    (js ".h", js "c"); (js ".cpp", js "c++"); (js ".hpp", js "c++");
    (js ".cc", js "c++"); (js ".cs", js "c#"); (js ".go", js "go");
    (js ".rb", js "ruby"); (js ".php", js "php"); (js ".pl", js "perl");
    (js ".pm", js "perl"); (js ".html", js "html"); (js ".htm", js "html");
    (js ".css", js "css"); (js ".scss", js "scss");
    (js ".swift", js "swift"); (js ".dart", js "dart");
    (js ".rs", js "rust"); (js ".vue", js "vue");
    (js ".svelte", js "svelte"); (js ".cbl", js "cobol");
    (js ".cob", js "cobol"); (js ".f", js "fortran");
    (js ".for", js "fortran"); (js ".f90", js "fortran");
    (js ".pas", js "pascal"); (js ".pp", js "pascal");
    (js "pom.xml", js "spring"); (js "build.gradle", js "spring");
    (js "build.gradle.kts", js "spring");
    (js "application.properties", js "spring");
    (js "application.yml", js "spring");
    (js "application.yaml", js "spring");
    (js "requirements.txt", js "flask"); (js "app.py", js "flask");
    (js "manage.py", js "django"); (js "urls.py", js "django");
    (js "settings.py", js "django"); (js "package.json", js "express");
    (js "server.js", js "express"); (js "app.js", js "express") ].

Definition frameworkFiles : list jsstring :=
  map js
    [ "pom.xml"; "build.gradle"; "build.gradle.kts";
      "application.properties"; "application.yml"; "application.yaml";
      "requirements.txt"; "app.py"; "manage.py"; "urls.py";
      "settings.py"; "package.json"; "server.js"; "app.js" ]%string.

(** The display names of [showTranslationDialog]. *)
Definition languageDisplayNames : list (jsstring * jsstring) :=
  [ (js "python", js "Python"); (js "javascript", js "JavaScript");
    (js "typescript", js "TypeScript"); (js "java", js "Java");
    (js "c#", js "C#"); (js "c++", js "C++"); (js "c", js "C");
    (js "go", js "Go"); (js "rust", js "Rust"); (js "ruby", js "Ruby");
    (js "php", js "PHP"); (js "perl", js "Perl"); (js "swift", js "Swift");
    (js "kotlin", js "Kotlin"); (js "scala", js "Scala");
    (js "dart", js "Dart"); (js "html", js "HTML"); (js "css", js "CSS");
    (js "scss", js "SCSS"); (js "cobol", js "COBOL");
    (js "fortran", js "Fortran"); (js "pascal", js "Pascal");
    (js "flask", js "Flask (Python)"); (js "express", js "Express.js");
    (js "django", js "Django (Python)");
    (js "spring", js "Spring Boot (Java)"); (js "vue", js "Vue.js");
    (js "react", js "React"); (js "angular", js "Angular");
    (js "svelte", js "Svelte"); (js "jsx", js "React (JSX)");
    (js "tsx", js "React (TSX)") ].

(** The lower case of an ASCII code unit. *)
Definition ascii_lower (c : N) : N :=
  if ((65 <=? c) && (c <=? 90))%N then (c + 32)%N else c.

Definition is_ascii (s : jsstring) : Prop := Forall (fun c => (c < 128)%N) s.

(** All that is assumed of [String.prototype.toLowerCase]: on a string of
    ASCII code units it lowers the letters A-Z and keeps the rest. *)
Definition lowers_ascii (toLowerCase : jsstring -> jsstring) : Prop :=
  forall s, is_ascii s -> toLowerCase s = map ascii_lower s.

Record QuickPickItem : Type := mkItem {
  label : jsvalue;
  description : jsstring;
  lang : jsstring
}.

(** What the shell does beyond the events of [translateCode]. *)
Inductive ShellEvent : Type :=
| Core (e : Event)
| ShowQuickPick (items : list QuickPickItem)
| WithProgress (title : jsstring)
| ShowTextDocument (content language : jsstring).

(** What the outside answers to one run of the dialog: the button
    chosen in the error message about a language without targets (if
    any), the index of the item picked in the quick pick (if any), the
    [preserveComments] setting, whether the progress was cancelled by the
    time the translation completed, and the worlds of the translation. *)
Record DialogWorld : Type := mkDialogWorld {
  no_targets_choice : option jsstring;
  picked : option nat;
  preserveComments_setting : bool;
  cancelled : bool;
  translate_worlds : list World
}.

Section Shell.

(** The case conversions of the engine, and its rendering of an inherited
    member in a template; Unicode case mapping is not modelled, and the
    statements below assume of it only [lowers_ascii]. *)
Variable toLowerCase : jsstring -> jsstring.
Variable toUpperCase : jsstring -> jsstring.
Variable inherited_text : jsstring -> jsstring.

(** The [for] loop over [frameworkFiles]: the first file name that the
    lower-cased name ends with decides. *)
Fixpoint framework_language (fileNameLower : jsstring) (files : list jsstring)
  : option jsvalue :=
  match files with
  | [] => None
  | file :: files' =>
      if endsWith fileNameLower file then
        Some (object_get EXTENSION_TO_LANGUAGE file)
      else framework_language fileNameLower files'
  end.

Definition getLanguageFromFileName (fileName : jsstring) : jsvalue :=
  let fileNameLower := toLowerCase fileName in
  match framework_language fileNameLower frameworkFiles with
  | Some language => language
  | None =>
      let extension := substring fileName (lastIndexOf DOT fileName) in
      value_or (object_get EXTENSION_TO_LANGUAGE (toLowerCase extension))
        (if endsWith fileName (js ".vue") then Str (js "vue")
         else if endsWith fileName (js ".svelte") then Str (js "svelte")
         else if endsWith fileName (js ".jsx") then Str (js "jsx")
         else if endsWith fileName (js ".tsx") then Str (js "tsx")
         else Undefined)
  end.

(** [`${v}`] *)
Definition text_of (v : jsvalue) : jsstring :=
  match v with
  | Undefined => js "undefined"
  | Str s => s
  | Inherited name => inherited_text name
  end.

(** [lang.charAt(0).toUpperCase() + lang.slice(1)] *)
Definition capitalized (language : jsstring) : jsstring :=
  toUpperCase (firstn 1 language) ++ skipn 1 language.

(** One entry of [quickPickItems]. *)
Definition quickPickItem (language : jsstring) : QuickPickItem :=
  mkItem
    (value_or (object_get languageDisplayNames language)
       (Str (capitalized language)))
    (js "Translate to "
       ++ text_of (value_or (object_get languageDisplayNames language)
                     (Str language)))
    language.

Definition no_targets_text (sourceLanguage : jsstring) : jsstring :=
  js "No supported target languages for " ++ sourceLanguage ++ js "."
    ++ [LF; LF]
    ++ js "If you need support for this language, please contact us at info@unelmaplatforms.com".

(** [showTranslationDialog]: [None] when the translation has not
    completed within the worlds given.  The callbacks that the function
    starts without awaiting them (the [then] of the error message, the
    task of [withProgress]) are recorded after the events that start
    them. *)
Definition showTranslationDialog (dw : DialogWorld) (g : Global)
  (code sourceLanguage : jsstring) : option (Global * list ShellEvent) :=
  let supportedTargets := getSupportedTargetLanguages sourceLanguage in
  if Nat.eqb (length supportedTargets) 0 then
    Some (g,
          Core (ShowErrorMessage (no_targets_text sourceLanguage)
                  [js "Copy Email Address"])
            :: (if is_choice (no_targets_choice dw) "Copy Email Address" then
                  [Core (ClipboardWriteText (js "info@unelmaplatforms.com"))]
                else []))
  else
    let quickPickItems := map quickPickItem supportedTargets in
    match
      match picked dw with
      | Some i => nth_error quickPickItems i
      | None => None
      end
    with
    | None => Some (g, [ShowQuickPick quickPickItems])
    | Some selectedItem =>
        let targetLanguage := lang selectedItem in
        let preserveComments := preserveComments_setting dw in
        let title :=
          js "Translating from " ++ sourceLanguage ++ js " to "
            ++ targetLanguage ++ js "..." in
        match translateCode (translate_worlds dw) g code sourceLanguage
                targetLanguage preserveComments DEFAULT_RETRY_COUNT with
        | None => None
        | Some (g', tr, outcome) =>
            Some (g',
                  [ShowQuickPick quickPickItems; WithProgress title]
                    ++ map Core tr
                    ++ (if cancelled dw then []
                        else match outcome with
                             | Success translatedCode =>
                                 [ShowTextDocument translatedCode targetLanguage]
                             | Failure e =>
                                 [Core (ShowErrorMessage (error_message e) [])]
                             end))
        end
    end.

End Shell.

(** ASCII lower-casing, an instance of [lowers_ascii]. *)
Definition ascii_toLowerCase (s : jsstring) : jsstring := map ascii_lower s.

(** What [testConnection] returns in a world. *)
Definition probe_result (w : World) : ConnectionTest :=
  match probe_reply w with
  | Replied r =>
      mkConnectionTest (status r <? 400) (Some (status r))
        (js "Connection successful (" ++ str_of_Z (status r) ++ js " in "
           ++ str_of_Z (probe_end w - probe_start w) ++ js "ms)")
  | Failed code message _ =>
      mkConnectionTest false None (js "Connection failed: " ++ or_else code message)
  | Crashed message =>
      mkConnectionTest false None (js "Connection failed: " ++ or_else None message)
  end.

(** The text and the buttons of the dialog of an unavailable service. *)
Definition unavailable_text (health : option jsstring) (w : World) : jsstring :=
  js "The translation service is currently unavailable." ++ [LF]
    ++ js "Health Check: " ++ template health ++ [LF]
    ++ js "Connection Test: " ++ test_message (probe_result w).

Definition unavailable_items : list jsstring :=
  [js "Try Anyway"; js "Check Again"; js "Open Network Settings"; js "Cancel"].

(** The events that a call of [translateCode] on the worlds [ws] can
    produce: the health GET, the probe and the POST of one of the worlds,
    the POST carrying the arguments of the call; waits of 1000 ms; the
    dialogs; the copy of the e-mail address to the clipboard; and the
    command that opens the network settings. *)
Definition call_event (code s t : jsstring) (pc : bool) (ws : list World)
  (e : Event) : Prop :=
  match e with
  | HttpGet url => exists w, In w ws /\ url = healthCheckUrl (apiEndpoint w)
  | HttpHead url => exists w, In w ws /\ url = apiEndpoint w
  | HttpPost url payload =>
      payload = mkRequest code s t pc
      /\ exists w, In w ws /\ url = apiEndpoint w
  | Sleep ms => ms = Num 1000
  | ShowErrorMessage _ _ => True
  | ShowWarningMessage _ => True
  | ExecuteCommand command => command = js "workbench.action.network.settings"
  | OpenExternal _ => False
  | ShowDiagnostics => False
  | ClipboardWriteText text => text = js "info@unelmaplatforms.com"
  end.

(* ===================================================================== *)
(** * Strings and regular expressions: basic facts *)
(* ===================================================================== *)

Lemma str_eqb_eq : forall a b : jsstring, str_eqb a b = true <-> a = b.
Proof.
  induction a as [|x a IH]; destruct b as [|y b]; simpl; split;
    try discriminate; try reflexivity.
  - intros H. apply andb_true_iff in H as [Hxy Hab].
    apply N.eqb_eq in Hxy. apply IH in Hab. now subst.
  - intros H. inversion H; subst. rewrite N.eqb_refl. simpl. now apply IH.
Qed.

Lemma str_eqb_refl : forall a : jsstring, str_eqb a a = true.
Proof. intros a. now apply str_eqb_eq. Qed.

Lemma str_eqb_neq : forall a b : jsstring, str_eqb a b = false <-> a <> b.
Proof.
  intros a b. split.
  - intros H E. apply str_eqb_eq in E. congruence.
  - intros H. destruct (str_eqb a b) eqn:E; [|reflexivity].
    apply str_eqb_eq in E. contradiction.
Qed.

Lemma count_app : forall p t1 t2, count p (t1 ++ t2) = (count p t1 + count p t2)%nat.
Proof. intros. unfold count. now rewrite filter_app, length_app. Qed.

Lemma sleeps_app : forall t1 t2, sleeps (t1 ++ t2) = sleeps t1 ++ sleeps t2.
Proof.
  induction t1 as [|e t1 IH]; intros t2; [reflexivity|].
  destruct e; simpl; rewrite ?IH; reflexivity.
Qed.

(** The lazy wildcard followed by a line break stops at the first line
    break. *)
Lemma match_lazy_line : forall t : jsstring,
  match_here [AnyLazy; Chr LF] false t = after_line_break t.
Proof.
  induction t as [|c t IH]; [reflexivity|].
  simpl. destruct (N.eqb c LF); [reflexivity|]. exact IH.
Qed.

Lemma replace_opening_fence : forall s : jsstring,
  replace opening_fence_re [] s = strip_leading_fence s.
Proof.
  intros s. unfold replace, strip_leading_fence.
  destruct s as [|a [|b [|c t]]]; try reflexivity.
  - simpl. destruct (N.eqb a BACKTICK); reflexivity.
  - simpl. destruct (N.eqb a BACKTICK); simpl; [|reflexivity].
    destruct (N.eqb b BACKTICK); reflexivity.
  - cbn [search opening_fence_re atoms to_end from_start].
    cbn [match_here].
    destruct (N.eqb a BACKTICK); simpl; [|reflexivity].
    destruct (N.eqb b BACKTICK); simpl; [|reflexivity].
    destruct (N.eqb c BACKTICK); simpl; [|reflexivity].
    change ((fix lazy (t0 : jsstring) : option jsstring :=
               match
                 match t0 with
                 | [] => None
                 | x :: s' => if (x =? LF)%N then Some s' else None
                 end
               with
               | Some r => Some r
               | None => match t0 with
                         | [] => None
                         | _ :: t' => lazy t'
                         end
               end) t) with (match_here [AnyLazy; Chr LF] false t).
    rewrite match_lazy_line.
    destruct (after_line_break t); reflexivity.
Qed.

(** The closing pattern matches at a position exactly when what remains
    there is a line break and the delimiter, and nothing more. *)
Lemma match_closing_fence : forall s : jsstring,
  match_here (atoms closing_fence_re) true s
  = if str_eqb s (LF :: fence) then Some [] else None.
Proof.
  intros s. unfold closing_fence_re, fence, atoms.
  destruct s as [|a [|b [|c [|d [|e s]]]]]; cbn [match_here str_eqb];
    repeat match goal with
      | |- context [N.eqb ?x ?y] => destruct (N.eqb x y); cbn [andb]
      end; reflexivity.
Qed.

Lemma search_closing_fence_suffix : forall body : jsstring,
  search closing_fence_re (body ++ LF :: fence) = Some (body, []).
Proof.
  induction body as [|c body IH].
  - reflexivity.
  - cbn [app search]. rewrite match_closing_fence.
    destruct (str_eqb (c :: body ++ LF :: fence) (LF :: fence)) eqn:E.
    + apply str_eqb_eq in E. apply (f_equal (@List.length N)) in E.
      simpl in E. rewrite length_app in E. simpl in E. lia.
    + cbn [from_start closing_fence_re]. rewrite IH. reflexivity.
Qed.

Lemma search_closing_fence_none : forall s : jsstring,
  (forall body, s <> body ++ LF :: fence) ->
  search closing_fence_re s = None.
Proof.
  induction s as [|c s IH]; intros H.
  - reflexivity.
  - cbn [search]. rewrite match_closing_fence.
    destruct (str_eqb (c :: s) (LF :: fence)) eqn:E.
    + apply str_eqb_eq in E. exfalso. apply (H []). exact E.
    + cbn [from_start closing_fence_re]. rewrite IH; [reflexivity|].
      intros body E'. apply (H (c :: body)). simpl. now rewrite E'.
Qed.

Lemma replace_closing_fence : forall s : jsstring,
  replace closing_fence_re [] s = strip_trailing_fence s.
Proof.
  intros s. unfold replace, strip_trailing_fence.
  destruct (str_eqb (skipn (length s - 4) s) (LF :: fence)) eqn:E.
  - apply str_eqb_eq in E.
    rewrite <- (firstn_skipn (length s - 4) s) at 1.
    rewrite E, search_closing_fence_suffix. simpl. now rewrite app_nil_r.
  - rewrite search_closing_fence_none; [reflexivity|].
    intros body Hs. apply str_eqb_neq in E. apply E.
    subst s. rewrite length_app. simpl.
    replace (length body + 4 - 4)%nat with (length body + 0)%nat by lia.
    rewrite skipn_app, Nat.add_0_r, skipn_all.
    replace (length body - length body)%nat with 0%nat by lia.
    reflexivity.
Qed.

(** [trim] removes white space at both ends and nothing else. *)
Lemma trimStart_split : forall s : jsstring,
  exists l, s = l ++ trimStart s /\ forallb is_js_space l = true.
Proof.
  induction s as [|c s [l [Hs Hl]]].
  - exists []. split; reflexivity.
  - simpl. destruct (is_js_space c) eqn:E.
    + exists (c :: l). simpl. rewrite E, Hl. split; [now rewrite <- Hs|reflexivity].
    + exists []. split; reflexivity.
Qed.

Lemma trimStart_head : forall (s : jsstring) c t,
  trimStart s = c :: t -> is_js_space c = false.
Proof.
  induction s as [|x s IH]; intros c t H; [discriminate|].
  simpl in H. destruct (is_js_space x) eqn:E.
  - now apply IH in H.
  - now inversion H; subst.
Qed.

Lemma trimStart_suffix_nonempty : forall (s : jsstring) c t,
  trimStart s = c :: t -> exists l, s = l ++ c :: t.
Proof.
  intros s c t H. destruct (trimStart_split s) as [l [Hs _]].
  exists l. now rewrite <- H.
Qed.

Lemma trim_split : forall s : jsstring,
  exists l r, s = l ++ trim s ++ r
              /\ forallb is_js_space l = true /\ forallb is_js_space r = true.
Proof.
  intros s. unfold trim, trimEnd.
  destruct (trimStart_split s) as [l [Hl Hl']].
  destruct (trimStart_split (rev (trimStart s))) as [r [Hr Hr']].
  exists l, (rev r). repeat split.
  - rewrite <- rev_app_distr, <- Hr, rev_involutive. exact Hl.
  - exact Hl'.
  - rewrite forallb_forall in *. intros x Hx. apply Hr'. now apply in_rev.
Qed.

Lemma trim_ends : forall s : jsstring,
  (forall c t, trim s = c :: t -> is_js_space c = false)
  /\ (forall t c, trim s = t ++ [c] -> is_js_space c = false).
Proof.
  intros s. unfold trim, trimEnd. split.
  - intros c t H.
    destruct (trimStart (rev (trimStart s))) as [|y u] eqn:E; [discriminate|].
    destruct (trimStart_suffix_nonempty _ _ _ E) as [l Hl].
    apply (f_equal (@rev N)) in Hl. rewrite rev_involutive in Hl.
    rewrite rev_app_distr in Hl. rewrite H in Hl.
    destruct (trimStart s) as [|z v] eqn:E'.
    + destruct (rev l); discriminate.
    + inversion Hl; subst. eapply trimStart_head. exact E'.
  - intros t c H.
    apply (f_equal (@rev N)) in H. rewrite rev_involutive, rev_app_distr in H.
    simpl in H. eapply trimStart_head. exact H.
Qed.

(* ===================================================================== *)
(** * The registry: basic facts *)
(* ===================================================================== *)

Lemma supported_iff_in_table : forall a b : jsstring,
  isLanguagePairSupported a b = true <-> In (mkPair a b) SUPPORTED_LANGUAGE_PAIRS.
Proof.
  intros a b. unfold isLanguagePairSupported. rewrite existsb_exists. split.
  - intros [[f t] [Hin H]]. simpl in H. apply andb_true_iff in H as [H1 H2].
    apply str_eqb_eq in H1, H2. now subst.
  - intros Hin. exists (mkPair a b). split; [exact Hin|].
    simpl. now rewrite !str_eqb_refl.
Qed.

Lemma table_has_every_reverse :
  forallb (fun p => isLanguagePairSupported (to p) (from p))
    SUPPORTED_LANGUAGE_PAIRS = true.
Proof. vm_compute. reflexivity. Qed.

Lemma supported_reverse : forall a b : jsstring,
  isLanguagePairSupported a b = true -> isLanguagePairSupported b a = true.
Proof.
  intros a b H. apply supported_iff_in_table in H.
  pose proof table_has_every_reverse as T. rewrite forallb_forall in T.
  exact (T _ H).
Qed.

Lemma set_from_In : forall xs seen (x : jsstring),
  In x (set_from seen xs) <-> In x xs /\ ~ In x seen.
Proof.
  induction xs as [|y xs IH]; intros seen x; simpl.
  - tauto.
  - destruct (existsb (str_eqb y) seen) eqn:E.
    + apply existsb_exists in E as [z [Hz Hyz]]. apply str_eqb_eq in Hyz. subst z.
      rewrite IH. split.
      * intros [H1 H2]. tauto.
      * intros [[H1|H1] H2]; [subst; contradiction|tauto].
    + assert (Hy : ~ In y seen).
      { intros Hin. assert (existsb (str_eqb y) seen = true); [|congruence].
        apply existsb_exists. exists y. split; [exact Hin|apply str_eqb_refl]. }
      simpl. rewrite IH. simpl. split.
      * intros [H|[H1 H2]]; [subst; tauto|tauto].
      * intros [[H|H] H2]; [now left|].
        destruct (list_eq_dec N.eq_dec y x) as [->|Hne]; [now left|right; tauto].
Qed.

Lemma target_iff_supported : forall a b : jsstring,
  In b (getSupportedTargetLanguages a) <-> isLanguagePairSupported a b = true.
Proof.
  intros a b. unfold getSupportedTargetLanguages.
  rewrite set_from_In, in_map_iff, supported_iff_in_table. split.
  - intros [[[f t] [Ht Hin]] _]. simpl in Ht. subst t.
    apply filter_In in Hin as [Hin Hf]. simpl in Hf. apply str_eqb_eq in Hf.
    now subst.
  - intros Hin. split; [|tauto]. exists (mkPair a b). split; [reflexivity|].
    apply filter_In. split; [exact Hin|]. simpl. apply str_eqb_refl.
Qed.

(* ===================================================================== *)
(** * The blocks of [translateCode], one by one *)
(* ===================================================================== *)

Arguments js : simpl never.
Arguments str_of_Z : simpl never.
Arguments replace : simpl never.
Arguments codeWithoutMarkdown : simpl never.
Arguments isLanguagePairSupported : simpl never.
Arguments or_else : simpl never.
Arguments template : simpl never.
Arguments retryAfter : simpl never.
Arguments is_choice : simpl never.
Arguments code_is : simpl never.
Arguments Z.mul : simpl never.
Arguments Z.sub : simpl never.

Ltac run_monad :=
  unfold bind, try_catch, ret, throw, return_, tell, sleep, await_axios,
    get_isApiHealthy, get_lastApiCheck, set_isApiHealthy, set_lastApiCheck;
  cbn [isApiHealthy lastApiCheck app fst snd].

Ltac run_monad_in H :=
  unfold bind, try_catch, ret, throw, return_, tell, sleep, await_axios,
    get_isApiHealthy, get_lastApiCheck, set_isApiHealthy, set_lastApiCheck in H;
  cbn [isApiHealthy lastApiCheck app fst snd] in H.

Lemma testConnection_total : forall w url g,
  testConnection w url g
  = (g, [HttpHead url],
     Normal
       match probe_reply w with
       | Replied r =>
           mkConnectionTest (status r <? 400) (Some (status r))
             (js "Connection successful (" ++ str_of_Z (status r) ++ js " in "
                ++ str_of_Z (probe_end w - probe_start w) ++ js "ms)")
       | Failed code message _ =>
           mkConnectionTest false None
             (js "Connection failed: " ++ or_else code message)
       | Crashed message =>
           mkConnectionTest false None
             (js "Connection failed: " ++ or_else None message)
       end).
Proof.
  intros w url g. unfold testConnection. run_monad.
  destruct (probe_reply w) as [r|code message request|message]; cbn [axios_settle].
  - rewrite orb_true_r. reflexivity.
  - reflexivity.
  - reflexivity.
Qed.

Lemma checkApiHealth_cached : forall w endpoint g,
  now w - lastApiCheck g < API_HEALTH_CHECK_INTERVAL ->
  checkApiHealth w endpoint g = (g, [], Normal (mkHealthCheck (isApiHealthy g) None)).
Proof.
  intros w endpoint g H. unfold checkApiHealth. run_monad.
  apply Z.ltb_lt in H. rewrite H. reflexivity.
Qed.

Lemma checkApiHealth_probes : forall w endpoint g,
  API_HEALTH_CHECK_INTERVAL <= now w - lastApiCheck g ->
  checkApiHealth w endpoint g
  = (mkGlobal (isHealthy (health_verdict w)) (now w),
     [HttpGet (healthCheckUrl endpoint)],
     Normal (health_verdict w)).
Proof.
  intros w endpoint g H. unfold checkApiHealth, health_verdict, healthCheckUrl.
  run_monad.
  apply Z.ltb_ge in H. rewrite H.
  destruct (health_reply w) as [r|code message request|message];
    cbn [axios_settle].
  - rewrite orb_true_r. cbn [isApiHealthy lastApiCheck app isHealthy].
    destruct (status r =? 200); reflexivity.
  - reflexivity.
  - reflexivity.
Qed.

(** How the health gate ends: it lets the call proceed, or the user asks
    to check again (a recursive call with the same retry count), or it
    throws a plain error.  It never posts and never sleeps. *)
Lemma health_gate_cases : forall w retryCount g,
  exists g1 t1,
    (health_gate w retryCount g = (g1, t1, Normal tt)
     \/ (is_choice (health_choice w) "Check Again" = true
         /\ lastApiCheck g1 = 0
         /\ health_gate w retryCount g = (g1, t1, Returns (RetCall retryCount)))
     \/ exists msg, health_gate w retryCount g = (g1, t1, Throws (PlainError msg)))
    /\ count is_post t1 = 0%nat /\ sleeps t1 = [].
Proof.
  intros w retryCount g. unfold health_gate.
  assert (Hcheck : exists g0 t0 h,
             checkApiHealth w (apiEndpoint w) g = (g0, t0, Normal h)
             /\ count is_post t0 = 0%nat /\ sleeps t0 = []).
  { destruct (Z.lt_ge_cases (now w - lastApiCheck g) API_HEALTH_CHECK_INTERVAL) as [H|H].
    - rewrite (checkApiHealth_cached _ _ _ H). eauto 6.
    - rewrite (checkApiHealth_probes _ _ _ H). eauto 6. }
  destruct Hcheck as [g0 [t0 [h [Hc [Hp Hs]]]]].
  remember (bind (checkApiHealth w (apiEndpoint w)) _ g) as R eqn:HR.
  unfold bind at 1 in HR. rewrite Hc in HR.
  destruct (isHealthy h); cbn [negb] in HR.
  - run_monad_in HR. subst R. exists g0, (t0 ++ []).
    split; [left; reflexivity|]. now rewrite app_nil_r.
  - unfold bind at 1 in HR. rewrite testConnection_total in HR.
    destruct (is_choice (health_choice w) "Check Again") eqn:E1;
      [|destruct (is_choice (health_choice w) "Open Network Settings") eqn:E2;
        [|destruct (is_choice (health_choice w) "Try Anyway") eqn:E3]];
      run_monad_in HR; cbn [negb] in HR; run_monad_in HR; subst R.
    + eexists; eexists. split.
      * right. left. split; [reflexivity|]. split; [|reflexivity]. reflexivity.
      * rewrite !count_app, !sleeps_app, Hp, Hs. split; reflexivity.
    + eexists; eexists. split.
      * right. right. eexists. reflexivity.
      * rewrite !count_app, !sleeps_app, Hp, Hs. split; reflexivity.
    + eexists; eexists. split.
      * left. reflexivity.
      * rewrite !count_app, !sleeps_app, Hp, Hs. split; reflexivity.
    + eexists; eexists. split.
      * right. right. eexists. reflexivity.
      * rewrite !count_app, !sleeps_app, Hp, Hs. split; reflexivity.
Qed.

(** With a fresh and healthy cached state the gate does nothing at all. *)
Lemma health_gate_fresh_healthy : forall w retryCount g,
  now w - lastApiCheck g < API_HEALTH_CHECK_INTERVAL ->
  isApiHealthy g = true ->
  health_gate w retryCount g = (g, [], Normal tt).
Proof.
  intros w retryCount g H Hh. unfold health_gate, bind.
  rewrite (checkApiHealth_cached _ _ _ H). simpl. rewrite Hh. reflexivity.
Qed.

Ltac split_ifs :=
  repeat match goal with
    | |- context [if ?b then _ else _] =>
        let E := fresh "E" in destruct b eqn:E; run_monad
    | |- context [match ?x with Some _ => _ | None => _ end] =>
        let E := fresh "E" in destruct x eqn:E; run_monad
    | |- context [match ?x with
                  | Replied _ => _ | Failed _ _ _ => _ | Crashed _ => _
                  end] =>
        let E := fresh "E" in destruct x eqn:E; run_monad
    end.

Ltac open_request_phase :=
  unfold request_phase, size_check, pair_check, attempt, inner_catch;
  run_monad; unfold axios_settle, status_is.

Ltac to_props :=
  repeat match goal with
    | H : (_ || _) = false |- _ => apply orb_false_iff in H; destruct H
    | H : (_ || _) = true |- _ => apply orb_true_iff in H; destruct H
    | H : (_ && _) = true |- _ => apply andb_true_iff in H; destruct H
    | H : (_ && _) = false |- _ => apply andb_false_iff in H; destruct H
    | H : negb _ = true |- _ => apply negb_true_iff in H
    | H : negb _ = false |- _ => apply negb_false_iff in H
    | H : (_ =? _) = true |- _ => apply Z.eqb_eq in H
    | H : (_ =? _) = false |- _ => apply Z.eqb_neq in H
    | H : (_ <? _) = true |- _ => apply Z.ltb_lt in H
    | H : (_ <? _) = false |- _ => apply Z.ltb_ge in H
    | H : (_ >? _) = true |- _ => rewrite Z.gtb_ltb in H; apply Z.ltb_lt in H
    | H : (_ >? _) = false |- _ => rewrite Z.gtb_ltb in H; apply Z.ltb_ge in H
    | H : (_ >=? _) = true |- _ => rewrite Z.geb_leb in H; apply Z.leb_le in H
    | H : (_ >=? _) = false |- _ => rewrite Z.geb_leb in H; apply Z.leb_gt in H
    end.

Lemma truthy_nonempty : forall s : jsstring, truthy s = true -> s <> [].
Proof. intros [|c s] H; [discriminate|congruence]. Qed.

(** The request phase leaves the module state alone, posts at most once,
    throws plain errors only, and recurses only after a timeout or a 504,
    with one fixed wait and the retry count decremented. *)
Lemma request_phase_spec : forall w code s t pc rc g,
  exists tr c,
    request_phase w code s t pc rc g = (g, tr, c)
    /\ (count is_post tr <= 1)%nat
    /\ (forall e, c = Throws e ->
          (exists msg, e = PlainError msg) /\ sleeps tr = [])
    /\ (forall rc', c = Returns (RetCall rc') ->
          rc' = rc - 1 /\ 0 < rc /\ sleeps tr = [Num 1000]
          /\ count is_post tr = 1%nat)
    /\ (forall v, c = Returns (RetValue v) ->
          v <> [] /\ sleeps tr = [] /\ count is_post tr = 1%nat
          /\ exists r, post_reply w = Replied r /\ 200 <= status r < 300).
Proof.
  intros w code s t pc rc g. open_request_phase. split_ifs;
    (eexists; eexists; split; [reflexivity|]);
    (split; [unfold count; simpl; lia|]);
    (split; [intros e' He'; inversion He'; subst; (split; [eauto|reflexivity])|]);
    (split; [intros rc' Hrc'; inversion Hrc'; subst|
             intros v Hv; inversion Hv; subst]);
    try (repeat split; solve [reflexivity | to_props; lia
                              | apply truthy_nonempty; to_props; assumption
                              | eexists; split; [reflexivity|to_props; lia]]).
  all: try (exfalso; to_props; simpl in *; lia).
Qed.

Lemma request_phase_too_large : forall w code s t pc rc g,
  MAX_CODE_LENGTH < Z.of_nat (length code) ->
  request_phase w code s t pc rc g
  = (g, [ShowWarningMessage (too_large_text code)],
     Throws (PlainError (js "Code too large for translation"))).
Proof.
  intros w code s t pc rc g H. open_request_phase.
  destruct (Z.of_nat (length code) >? MAX_CODE_LENGTH) eqn:E.
  - run_monad. reflexivity.
  - to_props. lia.
Qed.

Lemma request_phase_unsupported : forall w code s t pc rc g,
  Z.of_nat (length code) <= MAX_CODE_LENGTH ->
  isLanguagePairSupported s t = false ->
  request_phase w code s t pc rc g
  = (g, unsupported_notice w s t,
     Throws (PlainError (js "Translation from " ++ s ++ js " to " ++ t
                           ++ js " is not supported."))).
Proof.
  intros w code s t pc rc g H Hs. open_request_phase.
  unfold unsupported_notice.
  destruct (Z.of_nat (length code) >? MAX_CODE_LENGTH) eqn:E.
  - to_props. lia.
  - run_monad. rewrite Hs. cbn [negb]. run_monad.
    destruct (is_choice (unsupported_choice w) "Copy Email Address");
      run_monad; reflexivity.
Qed.

(** An admitted request goes to the POST. *)
Lemma request_phase_admitted : forall w code s t pc rc g,
  Z.of_nat (length code) <= MAX_CODE_LENGTH ->
  isLanguagePairSupported s t = true ->
  request_phase w code s t pc rc g
  = try_catch (attempt w code s t pc) (inner_catch rc) g.
Proof.
  intros w code s t pc rc g H Hs.
  unfold request_phase, size_check, pair_check.
  destruct (Z.of_nat (length code) >? MAX_CODE_LENGTH) eqn:E.
  - to_props. lia.
  - rewrite Hs. cbn [negb]. unfold bind, ret.
    destruct (try_catch (attempt w code s t pc) (inner_catch rc) g) as [[g2 t2] c].
    reflexivity.
Qed.

(** A reply that Axios resolves and that is not a 2xx: the two [catch]
    blocks of the request phase only add a prefix, whatever the status
    (429 and 413 included). *)
Lemma attempt_resolved_non_2xx : forall w code s t pc rc g r,
  post_reply w = Replied r ->
  status r < 500 ->
  status r < 200 \/ 300 <= status r ->
  try_catch (attempt w code s t pc) (inner_catch rc) g
  = (g, [HttpPost (apiEndpoint w) (mkRequest code s t pc)],
     Throws (PlainError
               (js "Translation failed: " ++ js "Translation failed: "
                  ++ or_else (data_message r)
                       (or_else (Some (statusText r))
                          (js "Request failed with status " ++ str_of_Z (status r)))))).
Proof.
  intros w code s t pc rc g r Hr H5 H2. unfold attempt, inner_catch.
  run_monad. rewrite Hr. unfold axios_settle.
  replace (status r <? 500) with true by (symmetry; now apply Z.ltb_lt).
  rewrite orb_true_r.
  replace ((status r >=? 200) && (status r <? 300)) with false.
  - reflexivity.
  - symmetry. apply andb_false_iff. rewrite Z.geb_leb, Z.leb_gt, Z.ltb_ge. lia.
Qed.


(** A 2xx reply with a [translated_code]. *)
Lemma attempt_2xx : forall w code s t pc rc g r raw,
  post_reply w = Replied r ->
  200 <= status r < 300 ->
  translated_code r = Some raw ->
  try_catch (attempt w code s t pc) (inner_catch rc) g
  = (g, [HttpPost (apiEndpoint w) (mkRequest code s t pc)],
     if truthy raw then
       if truthy (codeWithoutMarkdown raw) then
         Returns (RetValue (codeWithoutMarkdown raw))
       else
         Throws (PlainError (js "Translation failed: "
                               ++ js "Received empty translation from the server"))
     else
       Throws (PlainError (js "Translation failed: "
                             ++ js "Invalid response format from translation service: Missing translated_code"))).
Proof.
  intros w code s t pc rc g r raw Hr H2 Hraw. unfold attempt, inner_catch.
  run_monad. rewrite Hr. unfold axios_settle.
  replace (status r <? 500) with true by (symmetry; apply Z.ltb_lt; lia).
  rewrite orb_true_r.
  replace ((status r >=? 200) && (status r <? 300)) with true.
  - rewrite Hraw. destruct (truthy raw); [|reflexivity].
    destruct (truthy (codeWithoutMarkdown raw)); reflexivity.
  - symmetry. apply andb_true_iff. rewrite Z.geb_leb, Z.leb_le, Z.ltb_lt. lia.
Qed.

Lemma attempt_2xx_without_payload : forall w code s t pc rc g r,
  post_reply w = Replied r ->
  200 <= status r < 300 ->
  translated_code r = None ->
  try_catch (attempt w code s t pc) (inner_catch rc) g
  = (g, [HttpPost (apiEndpoint w) (mkRequest code s t pc)],
     Throws (PlainError (js "Translation failed: "
                           ++ js "Invalid response format from translation service: Missing translated_code"))).
Proof.
  intros w code s t pc rc g r Hr H2 Hraw. unfold attempt, inner_catch.
  run_monad. rewrite Hr. unfold axios_settle.
  replace (status r <? 500) with true by (symmetry; apply Z.ltb_lt; lia).
  rewrite orb_true_r.
  replace ((status r >=? 200) && (status r <? 300)) with true.
  - rewrite Hraw. reflexivity.
  - symmetry. apply andb_true_iff. rewrite Z.geb_leb, Z.leb_le, Z.ltb_lt. lia.
Qed.

Lemma translateCode_body_unfold : forall w code s t pc rc,
  translateCode_body w code s t pc rc
  = try_catch (bind (health_gate w rc) (fun _ => request_phase w code s t pc rc))
      (outer_catch w rc).
Proof. reflexivity. Qed.

(** Once the gate lets the call proceed, the body is the request phase,
    with the prefix of the outer [catch] on what it throws. *)
Lemma translateCode_body_after_gate : forall w code s t pc rc g g1 t1 tr c,
  health_gate w rc g = (g1, t1, Normal tt) ->
  request_phase w code s t pc rc g1 = (g1, tr, c) ->
  translateCode_body w code s t pc rc g = (g1, t1 ++ tr, rethrown c).
Proof.
  intros w code s t pc rc g g1 t1 tr c Hg Hr.
  rewrite translateCode_body_unfold. unfold try_catch, bind. rewrite Hg, Hr.
  destruct (request_phase_spec w code s t pc rc g1) as [tr' [c' [Hr' [_ [Ht _]]]]].
  rewrite Hr in Hr'. inversion Hr'; subst tr' c'.
  destruct c as [[]|e|r]; [|reflexivity].
  destruct (Ht e eq_refl) as [[msg ->] _].
  unfold outer_catch, throw, rethrown. cbn [error_message].
  now rewrite app_nil_r.
Qed.

(** The body as a whole: the gate, then the request phase, and the outer
    [catch] that only ever sees plain errors. *)
Lemma translateCode_body_cases : forall w code s t pc rc g,
  exists g1 t1,
    ((health_gate w rc g = (g1, t1, Normal tt)
      /\ exists tr c,
           request_phase w code s t pc rc g1 = (g1, tr, c)
           /\ translateCode_body w code s t pc rc g = (g1, t1 ++ tr, rethrown c))
     \/ (is_choice (health_choice w) "Check Again" = true
         /\ lastApiCheck g1 = 0
         /\ translateCode_body w code s t pc rc g = (g1, t1, Returns (RetCall rc)))
     \/ (exists msg,
           translateCode_body w code s t pc rc g = (g1, t1, Throws (PlainError msg))))
    /\ count is_post t1 = 0%nat /\ sleeps t1 = [].
Proof.
  intros w code s t pc rc g.
  destruct (health_gate_cases w rc g) as [g1 [t1 [Hg [Hp Hs]]]].
  exists g1, t1. split; [|split; assumption].
  rewrite translateCode_body_unfold.
  destruct Hg as [Hg|[[Hc [Hl Hg]]|[msg Hg]]].
  - left. split; [exact Hg|].
    destruct (request_phase_spec w code s t pc rc g1) as [tr [c [Hr _]]].
    exists tr, c. split; [exact Hr|].
    rewrite <- translateCode_body_unfold.
    now apply translateCode_body_after_gate.
  - right. left. split; [exact Hc|]. split; [exact Hl|].
    unfold try_catch, bind. rewrite Hg. reflexivity.
  - right. right. eexists.
    unfold try_catch, bind. rewrite Hg.
    unfold outer_catch, throw. rewrite app_nil_r. reflexivity.
Qed.

(* ===================================================================== *)
(** * The registry is symmetric *)
(* ===================================================================== *)

(** C10. For all tags [a] and [b], the pair [(a, b)] is admissible if and
    only if [(b, a)] is: every pair of the table appears together with
    its reverse, and [b] is among the targets offered for [a] exactly
    when [a] is among the targets offered for [b]. *)
Theorem registry_is_symmetric : forall a b : jsstring,
  isLanguagePairSupported a b = isLanguagePairSupported b a
  /\ (In (mkPair a b) SUPPORTED_LANGUAGE_PAIRS
      <-> In (mkPair b a) SUPPORTED_LANGUAGE_PAIRS)
  /\ (In b (getSupportedTargetLanguages a)
      <-> In a (getSupportedTargetLanguages b)).
Proof.
  intros a b.
  assert (E : isLanguagePairSupported a b = isLanguagePairSupported b a).
  { destruct (isLanguagePairSupported a b) eqn:Hab;
      destruct (isLanguagePairSupported b a) eqn:Hba; try reflexivity.
    - apply supported_reverse in Hab. congruence.
    - apply supported_reverse in Hba. congruence. }
  split; [exact E|]. split.
  - rewrite <- !supported_iff_in_table, E. tauto.
  - rewrite !target_iff_supported, E. tauto.
Qed.

(* ===================================================================== *)
(** * The normalizer *)
(* ===================================================================== *)

(** C7. The normalizer of the source (two regular-expression replacements
    and a [trim]) is the normalizer of the specification: it strips one
    leading fence (the delimiter and everything up to and including the
    next line break), one trailing fence (a line break followed by the
    delimiter at the very end), then trims the white space around; a
    second fence on either side stays; and the fenced [print(1)] of the
    specification normalizes to exactly [print(1)]. *)
Theorem normalizer_strips_one_fence_and_trims :
  (forall raw, codeWithoutMarkdown raw = normalize_spec raw)
  /\ (forall s, exists l r,
        s = l ++ trim s ++ r
        /\ forallb is_js_space l = true /\ forallb is_js_space r = true
        /\ (forall c t, trim s = c :: t -> is_js_space c = false)
        /\ (forall t c, trim s = t ++ [c] -> is_js_space c = false))
  /\ codeWithoutMarkdown fenced_print = js "print(1)"
  /\ codeWithoutMarkdown (fence ++ [LF] ++ fenced_print ++ [LF] ++ fence)
     = fenced_print.
Proof.
  split; [|split; [|split]].
  - intros raw. unfold codeWithoutMarkdown, normalize_spec.
    now rewrite replace_opening_fence, replace_closing_fence.
  - intros s. destruct (trim_split s) as [l [r [Hs [Hl Hr]]]].
    destruct (trim_ends s) as [Hhead Hlast].
    exists l, r. repeat split; assumption.
  - vm_compute. reflexivity.
  - vm_compute. reflexivity.
Qed.

Lemma normalizer_witness :
  codeWithoutMarkdown fenced_print = normalize_spec fenced_print
  /\ normalize_spec fenced_print = js "print(1)".
Proof.
  split.
  - apply (proj1 normalizer_strips_one_fence_and_trims).
  - vm_compute. reflexivity.
Defined.

(** A trailing fence that is not at the very end stays, and so does a
    leading delimiter without a line break after it. *)
Example fence_followed_by_a_line_break :
  codeWithoutMarkdown (fenced_print ++ [LF]) = js "print(1)" ++ [LF] ++ fence
  /\ codeWithoutMarkdown (js "```print(1)") = js "```print(1)".
Proof. split; vm_compute; reflexivity. Qed.

(* ===================================================================== *)
(** * The connectivity probe *)
(* ===================================================================== *)

(** C9. For every URL and every outcome of the transport, the probe
    returns a result record and does not throw: a reply gives its status,
    a transport failure (time-out, DNS failure, connection reset, ...)
    gives a negative result whose message is [Connection failed: ]
    followed by the error code, or by the error message when there is no
    code; so does an error that does not come from Axios. *)
Theorem testConnection_never_throws : forall w url g,
  exists result,
    testConnection w url g = (g, [HttpHead url], Normal result)
    /\ match probe_reply w with
       | Replied r =>
           success result = (status r <? 400)
           /\ test_status result = Some (status r)
       | Failed code message _ =>
           success result = false
           /\ test_status result = None
           /\ test_message result = js "Connection failed: " ++ or_else code message
           /\ test_message result <> []
       | Crashed message =>
           success result = false
           /\ test_status result = None
           /\ test_message result = js "Connection failed: " ++ message
           /\ test_message result <> []
       end.
Proof.
  intros w url g. rewrite testConnection_total. eexists. split; [reflexivity|].
  destruct (probe_reply w) as [r|code message request|message]; simpl.
  - split; reflexivity.
  - repeat split. discriminate.
  - repeat split. discriminate.
Qed.

Example testConnection_dns_failure :
  testConnection (world_at clock0 reply_dns None reply_200) default_endpoint
    initial_state
  = (initial_state, [HttpHead default_endpoint],
     Normal (mkConnectionTest false None (js "Connection failed: ENOTFOUND"))).
Proof. vm_compute. reflexivity. Qed.

(* ===================================================================== *)
(** * The health monitor *)
(* ===================================================================== *)

Lemma testConnection_result : forall w url g,
  testConnection w url g = (g, [HttpHead url], Normal (probe_result w)).
Proof.
  intros w url g. rewrite testConnection_total. unfold probe_result.
  destruct (probe_reply w); reflexivity.
Qed.

(** The gate after a health check that reports the service healthy. *)
Lemma health_gate_healthy : forall w rc g g0 t0 h,
  checkApiHealth w (apiEndpoint w) g = (g0, t0, Normal h) ->
  isHealthy h = true ->
  health_gate w rc g = (g0, t0, Normal tt).
Proof.
  intros w rc g g0 t0 h Hc Hh. unfold health_gate.
  unfold bind at 1. rewrite Hc, Hh. cbn [negb]. unfold ret.
  now rewrite app_nil_r.
Qed.

(** The gate after a health check that reports it unhealthy: the probe,
    the dialog, and what the button picked leads to. *)
Lemma health_gate_unhealthy : forall w rc g g0 t0 h,
  checkApiHealth w (apiEndpoint w) g = (g0, t0, Normal h) ->
  isHealthy h = false ->
  health_gate w rc g
  = if is_choice (health_choice w) "Check Again" then
      (mkGlobal (isApiHealthy g0) 0,
       t0 ++ [HttpHead (apiEndpoint w);
              ShowErrorMessage (unavailable_text (health_message h) w)
                unavailable_items],
       Returns (RetCall rc))
    else if is_choice (health_choice w) "Open Network Settings" then
      (g0,
       t0 ++ [HttpHead (apiEndpoint w);
              ShowErrorMessage (unavailable_text (health_message h) w)
                unavailable_items;
              ExecuteCommand (js "workbench.action.network.settings")],
       Throws (PlainError (js "Please check your network settings and try again.")))
    else if is_choice (health_choice w) "Try Anyway" then
      (g0,
       t0 ++ [HttpHead (apiEndpoint w);
              ShowErrorMessage (unavailable_text (health_message h) w)
                unavailable_items],
       Normal tt)
    else
      (g0,
       t0 ++ [HttpHead (apiEndpoint w);
              ShowErrorMessage (unavailable_text (health_message h) w)
                unavailable_items],
       Throws (PlainError (js "Translation aborted by user"))).
Proof.
  intros w rc g g0 t0 h Hc Hh. unfold health_gate.
  unfold bind at 1. rewrite Hc, Hh. cbn [negb].
  unfold bind at 1. rewrite testConnection_result.
  unfold unavailable_text, unavailable_items.
  destruct (is_choice (health_choice w) "Check Again");
    [|destruct (is_choice (health_choice w) "Open Network Settings");
      [|destruct (is_choice (health_choice w) "Try Anyway")]];
    run_monad; cbn [negb]; run_monad; reflexivity.
Qed.

(** The health check reports what it leaves in the state. *)
Lemma checkApiHealth_verdict : forall w endpoint g,
  exists g0 t0 h,
    checkApiHealth w endpoint g = (g0, t0, Normal h)
    /\ isHealthy h = isApiHealthy g0.
Proof.
  intros w endpoint g.
  destruct (Z.lt_ge_cases (now w - lastApiCheck g) API_HEALTH_CHECK_INTERVAL) as [H|H].
  - rewrite (checkApiHealth_cached _ _ _ H). eauto 6.
  - rewrite (checkApiHealth_probes _ _ _ H). eauto 6.
Qed.

(** The state that the gate leaves is the state that the health check
    left, unless the user asks to check again: then the stamp is reset
    and the gate ends in the recursive call. *)
Lemma health_gate_state : forall w rc g g1 t1 c,
  health_gate w rc g = (g1, t1, c) ->
  (g1 = fst (fst (checkApiHealth w (apiEndpoint w) g))
   /\ (c = Normal tt \/ exists msg, c = Throws (PlainError msg)))
  \/ (is_choice (health_choice w) "Check Again" = true
      /\ isApiHealthy (fst (fst (checkApiHealth w (apiEndpoint w) g))) = false
      /\ g1 = mkGlobal false 0
      /\ c = Returns (RetCall rc)).
Proof.
  intros w rc g g1 t1 c H.
  destruct (checkApiHealth_verdict w (apiEndpoint w) g) as [g0 [t0 [h [Hc Hv]]]].
  rewrite Hc. cbn [fst].
  destruct (isHealthy h) eqn:Hh.
  - rewrite (health_gate_healthy w rc g g0 t0 h Hc Hh) in H.
    injection H as <- <- <-. left. split; [reflexivity|left; reflexivity].
  - rewrite (health_gate_unhealthy w rc g g0 t0 h Hc Hh) in H.
    destruct (is_choice (health_choice w) "Check Again") eqn:E1;
      [|destruct (is_choice (health_choice w) "Open Network Settings");
        [|destruct (is_choice (health_choice w) "Try Anyway")]];
      injection H as <- <- <-.
    + right. rewrite <- Hv. repeat split; reflexivity.
    + left. split; [reflexivity|right; eexists; reflexivity].
    + left. split; [reflexivity|left; reflexivity].
    + left. split; [reflexivity|right; eexists; reflexivity].
Qed.

(** Nothing after the gate touches the state. *)
Lemma translateCode_body_state : forall w code s t pc rc g g' tr c,
  translateCode_body w code s t pc rc g = (g', tr, c) ->
  g' = fst (fst (checkApiHealth w (apiEndpoint w) g))
  \/ (is_choice (health_choice w) "Check Again" = true
      /\ isApiHealthy (fst (fst (checkApiHealth w (apiEndpoint w) g))) = false
      /\ g' = mkGlobal false 0
      /\ c = Returns (RetCall rc)).
Proof.
  intros w code s t pc rc g g' tr c H.
  destruct (health_gate w rc g) as [[g1 t1] c1] eqn:Hg.
  destruct (health_gate_state w rc g g1 t1 c1 Hg)
    as [[E [->|[msg ->]]]|[Hc [Hh [E ->]]]].
  - destruct (request_phase_spec w code s t pc rc g1) as [tr1 [c2 [Hr _]]].
    rewrite (translateCode_body_after_gate w code s t pc rc g g1 t1 tr1 c2 Hg Hr)
      in H.
    injection H as <- _ _. left. exact E.
  - rewrite translateCode_body_unfold in H. unfold try_catch, bind in H.
    rewrite Hg in H. unfold outer_catch, throw in H.
    injection H as <- _ _. left. exact E.
  - rewrite translateCode_body_unfold in H. unfold try_catch, bind in H.
    rewrite Hg in H. injection H as <- _ <-. right. auto.
Qed.

(** C8, as stated, fails: the health check of the first invocation is
    an actual one and fails, the user picks [Check Again], and the
    health check of the second invocation, one second later and so well
    inside the caching window of the first, is an actual one again. *)
Lemma health_cache_counterexample :
  (clock0 + 1000) - clock0 < API_HEALTH_CHECK_INTERVAL
  /\ network_calls
       (translateCode
          [world_check_again;
           world_at (clock0 + 1000) reply_200 None (reply_translated fenced_print)]
          initial_state (js "x") (js "python") (js "java") true
          DEFAULT_RETRY_COUNT)
     = [HttpGet (js "https://translate.u16p.com/api/v1/health");
        HttpHead default_endpoint;
        HttpGet (js "https://translate.u16p.com/api/v1/health");
        HttpPost default_endpoint
          (mkRequest (js "x") (js "python") (js "java") true)].
Proof.
  split; vm_compute; reflexivity.
Qed.

(** C8, amended. A call of [checkApiHealth] while the clock is within the
    caching window of the stamp [lastApiCheck] returns the cached state
    and performs no request; an actual check stamps [lastApiCheck] with
    the clock of the call whether the check succeeds or fails (the reply
    of the health endpoint is arbitrary).  So two calls inside one window
    perform exactly one GET, and a third call after the window has
    elapsed performs a second one, as long as the stamp is left alone.
    An invocation of [translateCode] leaves the state as its health
    check left it, with one exception: when the check has failed and the
    user picks [Check Again], the stamp is reset to 0, and the next call
    performs an actual check whatever the window. *)
Theorem health_check_is_cached_unless_reset : forall w1 w2 w3 endpoint g,
  API_HEALTH_CHECK_INTERVAL <= now w1 - lastApiCheck g ->
  now w2 - now w1 < API_HEALTH_CHECK_INTERVAL ->
  API_HEALTH_CHECK_INTERVAL <= now w3 - now w1 ->
  let g1 := mkGlobal (isHealthy (health_verdict w1)) (now w1) in
  let g3 := mkGlobal (isHealthy (health_verdict w3)) (now w3) in
  checkApiHealth w1 endpoint g
  = (g1, [HttpGet (healthCheckUrl endpoint)], Normal (health_verdict w1))
  /\ checkApiHealth w2 endpoint g1
     = (g1, [], Normal (mkHealthCheck (isHealthy (health_verdict w1)) None))
  /\ (checkApiHealth w1 endpoint ;; checkApiHealth w2 endpoint) g
     = (g1, [HttpGet (healthCheckUrl endpoint)],
        Normal (mkHealthCheck (isHealthy (health_verdict w1)) None))
  /\ (checkApiHealth w1 endpoint ;; checkApiHealth w2 endpoint ;;
      checkApiHealth w3 endpoint) g
     = (g3, [HttpGet (healthCheckUrl endpoint); HttpGet (healthCheckUrl endpoint)],
        Normal (health_verdict w3))
  /\ (forall w code s t pc rc g0 g' tr c,
        translateCode_body w code s t pc rc g0 = (g', tr, c) ->
        g' = fst (fst (checkApiHealth w (apiEndpoint w) g0))
        \/ (is_choice (health_choice w) "Check Again" = true
            /\ isApiHealthy (fst (fst (checkApiHealth w (apiEndpoint w) g0)))
               = false
            /\ g' = mkGlobal false 0
            /\ c = Returns (RetCall rc)))
  /\ (forall w healthy,
        API_HEALTH_CHECK_INTERVAL <= now w ->
        checkApiHealth w endpoint (mkGlobal healthy 0)
        = (mkGlobal (isHealthy (health_verdict w)) (now w),
           [HttpGet (healthCheckUrl endpoint)],
           Normal (health_verdict w))).
Proof.
  intros w1 w2 w3 endpoint g H1 H2 H3 g1 g3.
  assert (E1 : checkApiHealth w1 endpoint g
               = (g1, [HttpGet (healthCheckUrl endpoint)], Normal (health_verdict w1))).
  { now apply checkApiHealth_probes. }
  assert (E2 : checkApiHealth w2 endpoint g1
               = (g1, [], Normal (mkHealthCheck (isHealthy (health_verdict w1)) None))).
  { now apply checkApiHealth_cached. }
  assert (E3 : checkApiHealth w3 endpoint g1
               = (g3, [HttpGet (healthCheckUrl endpoint)], Normal (health_verdict w3))).
  { now apply checkApiHealth_probes. }
  split; [exact E1|]. split; [exact E2|]. split; [|split; [|split]].
  - unfold bind. rewrite E1, E2. reflexivity.
  - unfold bind. rewrite E1, E2, E3. reflexivity.
  - apply translateCode_body_state.
  - intros w healthy Hw. apply checkApiHealth_probes.
    cbn [lastApiCheck]. lia.
Qed.

Lemma health_check_is_cached_witness :
  (checkApiHealth (world_at clock0 reply_503 None reply_200) default_endpoint ;;
   checkApiHealth (world_at (clock0 + 60000) reply_200 None reply_200) default_endpoint ;;
   checkApiHealth (world_at (clock0 + 300000) reply_200 None reply_200) default_endpoint)
    initial_state
  = (mkGlobal true (clock0 + 300000),
     [HttpGet (healthCheckUrl default_endpoint);
      HttpGet (healthCheckUrl default_endpoint)],
     Normal (health_verdict (world_at (clock0 + 300000) reply_200 None reply_200))).
Proof.
  refine (proj1 (proj2 (proj2 (proj2
           (health_check_is_cached_unless_reset
              (world_at clock0 reply_503 None reply_200)
              (world_at (clock0 + 60000) reply_200 None reply_200)
              (world_at (clock0 + 300000) reply_200 None reply_200)
              default_endpoint initial_state _ _ _))))); vm_compute; congruence.
Defined.

(* ===================================================================== *)
(** * The whole call *)
(* ===================================================================== *)

Lemma translateCode_cons : forall w ws g code s t pc rc,
  translateCode (w :: ws) g code s t pc rc
  = match translateCode_body w code s t pc rc g with
    | (g1, t1, Returns (RetValue v)) => Some (g1, t1, Success v)
    | (g1, t1, Throws e) => Some (g1, t1, Failure e)
    | (g1, t1, Returns (RetCall rc')) =>
        match translateCode ws g1 code s t pc rc' with
        | Some (g2, t2, o) => Some (g2, t1 ++ t2, o)
        | None => None
        end
    | (_, _, Normal impossible) => match impossible with end
    end.
Proof. reflexivity. Qed.

Lemma is_post_network : forall e, is_post e = true -> is_network e = true.
Proof. intros [] H; try discriminate; reflexivity. Qed.

Lemma unsupported_notice_is_local : forall s t w,
  forallb (fun e => negb (is_network e) && negb (is_sleep e))
    (unsupported_notice w s t) = true.
Proof.
  intros s t w. unfold unsupported_notice.
  destruct (is_choice (unsupported_choice w) "Copy Email Address"); reflexivity.
Qed.

Section RejectedCall.

(** A request that the request phase turns down with a notice to the
    user and a plain error, whatever the world. *)
Variables (code s t : jsstring) (pc : bool) (notice : World -> list Event)
  (m : jsstring).
Hypothesis notice_is_local : forall w,
  forallb (fun e => negb (is_network e) && negb (is_sleep e)) (notice w) = true.
Hypothesis rejected : forall w rc g,
  request_phase w code s t pc rc g = (g, notice w, Throws (PlainError m)).

Lemma notice_counts : forall w,
  count is_post (notice w) = 0%nat /\ sleeps (notice w) = [].
Proof.
  intros w. pose proof (notice_is_local w) as H.
  induction (notice w) as [|e l IH]; [split; reflexivity|].
  cbn [forallb] in H. apply andb_true_iff in H as [He Hl].
  apply andb_true_iff in He as [Hn Hsl]. destruct (IH Hl) as [IH1 IH2].
  split.
  - unfold count in *. cbn [filter]. destruct (is_post e) eqn:E; [|exact IH1].
    apply is_post_network in E. rewrite E in Hn. discriminate.
  - destruct e; try exact IH2. discriminate.
Qed.

Lemma rejected_never_posts : forall ws g rc g' tr o,
  translateCode ws g code s t pc rc = Some (g', tr, o) ->
  count is_post tr = 0%nat /\ sleeps tr = []
  /\ exists msg, o = Failure (PlainError msg).
Proof.
  induction ws as [|w ws IH]; intros g rc g' tr o H; [discriminate|].
  rewrite translateCode_cons in H.
  destruct (translateCode_body_cases w code s t pc rc g)
    as [g1 [t1 [[[Hg [tr1 [c [Hr Hb]]]]|[[Hc [Hl Hb]]|[msg Hb]]] [Hp Hs]]]];
    rewrite Hb in H.
  - rewrite rejected in Hr. inversion Hr; subst tr1 c. cbn [rethrown] in H.
    inversion H; subst. destruct (notice_counts w) as [Hn1 Hn2].
    rewrite count_app, sleeps_app, Hp, Hs, Hn1, Hn2. eauto.
  - destruct (translateCode ws g1 code s t pc rc) as [[[g2 t2] o2]|] eqn:E;
      [|discriminate].
    inversion H; subst. destruct (IH _ _ _ _ _ E) as [Hp2 [Hs2 Ho]].
    rewrite count_app, sleeps_app, Hp, Hs, Hp2, Hs2. auto.
  - inversion H; subst. eauto.
Qed.

Lemma rejected_completes : forall w ws g rc,
  is_choice (health_choice w) "Check Again" = false ->
  exists r, translateCode (w :: ws) g code s t pc rc = Some r.
Proof.
  intros w ws g rc Hno. rewrite translateCode_cons.
  destruct (translateCode_body_cases w code s t pc rc g)
    as [g1 [t1 [[[Hg [tr1 [c [Hr Hb]]]]|[[Hc [Hl Hb]]|[msg Hb]]] _]]];
    rewrite Hb.
  - rewrite rejected in Hr. inversion Hr; subst tr1 c. cbn [rethrown]. eauto.
  - congruence.
  - eauto.
Qed.

Lemma rejected_after_gate : forall w ws g rc g1 t1,
  health_gate w rc g = (g1, t1, Normal tt) ->
  translateCode (w :: ws) g code s t pc rc
  = Some (g1, t1 ++ notice w,
          Failure (PlainError (js "Translation failed: " ++ m))).
Proof.
  intros w ws g rc g1 t1 Hg. rewrite translateCode_cons.
  rewrite (translateCode_body_after_gate _ _ _ _ _ _ _ _ _ _ _ Hg (rejected w rc g1)).
  reflexivity.
Qed.

Lemma rejected_without_network : forall w ws g rc,
  now w - lastApiCheck g < API_HEALTH_CHECK_INTERVAL ->
  isApiHealthy g = true ->
  translateCode (w :: ws) g code s t pc rc
  = Some (g, notice w, Failure (PlainError (js "Translation failed: " ++ m))).
Proof.
  intros w ws g rc Hf Hh.
  apply (rejected_after_gate w ws g rc g []).
  now apply health_gate_fresh_healthy.
Qed.

End RejectedCall.

(* ===================================================================== *)
(** * Admission of the language pair *)
(* ===================================================================== *)

(** C1, as stated, fails: for the unsupported pair (python, cobol) and a
    stale health cache, the health-check GET is issued before the
    admission check; and when the text is also over the size ceiling the
    failure is the one of the size check, not [Unsupported]. *)
Lemma unsupported_pair_counterexample :
  isLanguagePairSupported (js "python") (js "cobol") = false
  /\ network_calls
       (translateCode [world_at clock0 reply_200 None reply_200] initial_state
          (js "x") (js "python") (js "cobol") true DEFAULT_RETRY_COUNT)
     = [HttpGet (js "https://translate.u16p.com/api/v1/health")]
  /\ outcome_of
       (translateCode [world_at clock0 reply_200 None reply_200] initial_state
          long_code (js "python") (js "cobol") true DEFAULT_RETRY_COUNT)
     = Some PayloadTooLargeFailure
  /\ PayloadTooLargeFailure <> UnsupportedFailure (js "python") (js "cobol").
Proof.
  split; [vm_compute; reflexivity|].
  split; [vm_compute; reflexivity|].
  split; [vm_compute; reflexivity|].
  vm_compute. discriminate.
Qed.

(** C1, amended. For every pair that is not in the table, [translateCode]
    never issues the translate POST, never waits for a retry and never
    succeeds; it completes as soon as the user does not ask to check
    again; it fails with [Unsupported] whenever the health gate lets the
    call proceed and the text is within the size ceiling.  The admission
    check comes after the health check: no request at all is made when
    the cached health state is fresh and healthy, otherwise the health
    GET (and the probe) may precede the rejection. *)
Theorem unsupported_pair_is_never_posted : forall code s t pc rc g,
  isLanguagePairSupported s t = false ->
  (forall ws g' tr o,
      translateCode ws g code s t pc rc = Some (g', tr, o) ->
      count is_post tr = 0%nat /\ sleeps tr = []
      /\ exists msg, o = Failure (PlainError msg))
  /\ (forall w ws,
        is_choice (health_choice w) "Check Again" = false ->
        exists r, translateCode (w :: ws) g code s t pc rc = Some r)
  /\ (forall w ws g1 t1,
        Z.of_nat (length code) <= MAX_CODE_LENGTH ->
        health_gate w rc g = (g1, t1, Normal tt) ->
        translateCode (w :: ws) g code s t pc rc
        = Some (g1, t1 ++ unsupported_notice w s t, UnsupportedFailure s t))
  /\ (forall w ws,
        Z.of_nat (length code) <= MAX_CODE_LENGTH ->
        now w - lastApiCheck g < API_HEALTH_CHECK_INTERVAL ->
        isApiHealthy g = true ->
        translateCode (w :: ws) g code s t pc rc
        = Some (g, unsupported_notice w s t, UnsupportedFailure s t)).
Proof.
  intros code s t pc rc g Hs.
  destruct (Z.lt_ge_cases MAX_CODE_LENGTH (Z.of_nat (length code))) as [Hl|Hl].
  - (* the size check rejects first *)
    pose proof (fun w rc g => request_phase_too_large w code s t pc rc g Hl) as R.
    split; [|split; [|split]].
    + intros ws g' tr o.
      exact (rejected_never_posts code s t pc (fun _ => [ShowWarningMessage (too_large_text code)]) _ (fun _ => eq_refl) R ws g rc g' tr o).
    + intros w ws.
      exact (rejected_completes code s t pc (fun _ => [ShowWarningMessage (too_large_text code)]) _ R w ws g rc).
    + intros; lia.
    + intros; lia.
  - pose proof (fun w rc g => request_phase_unsupported w code s t pc rc g Hl Hs) as R.
    split; [|split; [|split]].
    + intros ws g' tr o.
      exact (rejected_never_posts code s t pc (fun w => unsupported_notice w s t) _ (unsupported_notice_is_local s t) R ws g rc g' tr o).
    + intros w ws.
      exact (rejected_completes code s t pc (fun w => unsupported_notice w s t) _ R w ws g rc).
    + intros w ws g1 t1 _ Hg.
      exact (rejected_after_gate code s t pc (fun w => unsupported_notice w s t) _ R w ws g rc g1 t1 Hg).
    + intros w ws _ Hf Hh.
      exact (rejected_without_network code s t pc (fun w => unsupported_notice w s t) _ R w ws g rc Hf Hh).
Qed.

Lemma unsupported_pair_witness :
  translateCode [world_at 1000 reply_200 None reply_200] initial_state
    (js "x") (js "python") (js "cobol") true DEFAULT_RETRY_COUNT
  = Some (initial_state,
          unsupported_notice (world_at 1000 reply_200 None reply_200)
            (js "python") (js "cobol"),
          UnsupportedFailure (js "python") (js "cobol")).
Proof.
  destruct (unsupported_pair_is_never_posted (js "x") (js "python") (js "cobol")
              true DEFAULT_RETRY_COUNT initial_state)
    as [_ [_ [_ H]]].
  - vm_compute. reflexivity.
  - apply H.
    + vm_compute. discriminate.
    + vm_compute. reflexivity.
    + reflexivity.
Defined.

(* ===================================================================== *)
(** * The size ceiling *)
(* ===================================================================== *)

(** C2, as stated, fails: for a text of 10,001 characters and a stale
    health cache, the health-check GET is issued before the size check;
    and when the health check fails and the dialog is dismissed, the
    probe is issued too and the failure is not [PayloadTooLarge]. *)
Lemma oversized_payload_counterexample :
  MAX_CODE_LENGTH < Z.of_nat (length long_code)
  /\ translateCode [world_at clock0 reply_200 None reply_200] initial_state
       long_code (js "python") (js "java") true DEFAULT_RETRY_COUNT
     = Some (mkGlobal true clock0,
             [HttpGet (js "https://translate.u16p.com/api/v1/health");
              ShowWarningMessage (too_large_text long_code)],
             PayloadTooLargeFailure)
  /\ network_calls
       (translateCode [world_at clock0 reply_503 None reply_200] initial_state
          long_code (js "python") (js "java") true DEFAULT_RETRY_COUNT)
     = [HttpGet (js "https://translate.u16p.com/api/v1/health");
        HttpHead default_endpoint]
  /\ outcome_of
       (translateCode [world_at clock0 reply_503 None reply_200] initial_state
          long_code (js "python") (js "java") true DEFAULT_RETRY_COUNT)
     = Some (Failure (PlainError (js "Translation failed: "
                                    ++ js "Translation aborted by user"))).
Proof.
  split; [vm_compute; reflexivity|].
  split; [vm_compute; reflexivity|].
  split; vm_compute; reflexivity.
Qed.

(** C2, amended. For every text longer than the ceiling of 10,000
    characters, [translateCode] never issues the translate POST, never
    waits for a retry and never succeeds; it completes as soon as the
    user does not ask to check again; it fails with [PayloadTooLarge]
    whenever the health gate lets the call proceed.  The size check comes
    after the health check: no request at all is made when the cached
    health state is fresh and healthy, otherwise the health GET (and the
    probe) may precede the rejection. *)
Theorem oversized_payload_is_never_posted : forall code s t pc rc g,
  MAX_CODE_LENGTH < Z.of_nat (length code) ->
  (forall ws g' tr o,
      translateCode ws g code s t pc rc = Some (g', tr, o) ->
      count is_post tr = 0%nat /\ sleeps tr = []
      /\ exists msg, o = Failure (PlainError msg))
  /\ (forall w ws,
        is_choice (health_choice w) "Check Again" = false ->
        exists r, translateCode (w :: ws) g code s t pc rc = Some r)
  /\ (forall w ws g1 t1,
        health_gate w rc g = (g1, t1, Normal tt) ->
        translateCode (w :: ws) g code s t pc rc
        = Some (g1, t1 ++ [ShowWarningMessage (too_large_text code)],
                PayloadTooLargeFailure))
  /\ (forall w ws,
        now w - lastApiCheck g < API_HEALTH_CHECK_INTERVAL ->
        isApiHealthy g = true ->
        translateCode (w :: ws) g code s t pc rc
        = Some (g, [ShowWarningMessage (too_large_text code)],
                PayloadTooLargeFailure)).
Proof.
  intros code s t pc rc g Hl.
  pose proof (fun w rc g => request_phase_too_large w code s t pc rc g Hl) as R.
  split; [|split; [|split]].
  - intros ws g' tr o.
    exact (rejected_never_posts code s t pc (fun _ => [ShowWarningMessage (too_large_text code)]) _ (fun _ => eq_refl) R ws g rc g' tr o).
  - intros w ws.
    exact (rejected_completes code s t pc (fun _ => [ShowWarningMessage (too_large_text code)]) _ R w ws g rc).
  - intros w ws g1 t1 Hg.
    exact (rejected_after_gate code s t pc (fun _ => [ShowWarningMessage (too_large_text code)]) _ R w ws g rc g1 t1 Hg).
  - intros w ws Hf Hh.
    exact (rejected_without_network code s t pc (fun _ => [ShowWarningMessage (too_large_text code)]) _ R w ws g rc Hf Hh).
Qed.

Lemma oversized_payload_witness :
  translateCode [world_at 1000 reply_200 None reply_200] initial_state
    long_code (js "python") (js "java") true DEFAULT_RETRY_COUNT
  = Some (initial_state, [ShowWarningMessage (too_large_text long_code)],
          PayloadTooLargeFailure).
Proof.
  destruct (oversized_payload_is_never_posted long_code (js "python") (js "java")
              true DEFAULT_RETRY_COUNT initial_state)
    as [_ [_ [_ H]]].
  - vm_compute. reflexivity.
  - apply H.
    + vm_compute. reflexivity.
    + reflexivity.
Defined.

(* ===================================================================== *)
(** * The retry budget *)
(* ===================================================================== *)

Lemma translateCode_body_recursion : forall w code s t pc rc g g1 tr rc',
  translateCode_body w code s t pc rc g = (g1, tr, Returns (RetCall rc')) ->
  (rc' = rc - 1 /\ 0 < rc /\ sleeps tr = [Num 1000] /\ count is_post tr = 1%nat)
  \/ (rc' = rc /\ is_choice (health_choice w) "Check Again" = true
      /\ count is_post tr = 0%nat /\ sleeps tr = []).
Proof.
  intros w code s t pc rc g g1 tr rc' H.
  destruct (translateCode_body_cases w code s t pc rc g)
    as [g2 [t1 [[[Hg [tr1 [c [Hr Hb]]]]|[[Hc [Hl Hb]]|[msg Hb]]] [Hp Hs]]]];
    rewrite Hb in H.
  - left.
    destruct (request_phase_spec w code s t pc rc g2) as [tr' [c' [Hr' [_ [_ [Hc _]]]]]].
    rewrite Hr in Hr'. inversion Hr'; subst tr' c'.
    destruct c as [[]|e|r]; [discriminate|]. cbn [rethrown] in H.
    inversion H; subst.
    destruct (Hc _ eq_refl) as [E1 [E2 [E3 E4]]].
    rewrite sleeps_app, count_app, Hp, Hs, E3, E4. auto.
  - right. inversion H; subst. auto.
  - discriminate.
Qed.

Lemma translateCode_terminates : forall code s t pc ws g rc,
  Forall no_check_again ws ->
  (Z.to_nat rc < length ws)%nat ->
  exists g' tr o,
    translateCode ws g code s t pc rc = Some (g', tr, o)
    /\ (count is_post tr <= Z.to_nat rc + 1)%nat
    /\ (length (sleeps tr) <= Z.to_nat rc)%nat
    /\ (forall v, o = Success v ->
          exists w r, In w ws /\ post_reply w = Replied r /\ 200 <= status r < 300).
Proof.
  intros code s t pc.
  induction ws as [|w ws IH]; intros g rc Hall Hlen; [simpl in Hlen; lia|].
  inversion Hall as [|w' ws' Hw Hws]; subst.
  rewrite translateCode_cons.
  destruct (translateCode_body_cases w code s t pc rc g)
    as [g1 [t1 [[[Hg [tr1 [c [Hr Hb]]]]|[[Hc [Hl Hb]]|[msg Hb]]] [Hp Hs]]]];
    rewrite Hb.
  - destruct (request_phase_spec w code s t pc rc g1)
      as [tr' [c' [Hr' [Hle [Ht [Hc Hv]]]]]].
    rewrite Hr in Hr'. inversion Hr'; subst tr' c'.
    destruct c as [[]|e|[v|rc']]; cbn [rethrown].
    + destruct (Ht _ eq_refl) as [_ E].
      eexists; eexists; eexists. split; [reflexivity|].
      rewrite count_app, sleeps_app, Hp, Hs, E. simpl.
      repeat split; try lia. intros v Hv'. discriminate.
    + destruct (Hv _ eq_refl) as [_ [E1 [E2 [r [Hr1 Hr2]]]]].
      eexists; eexists; eexists. split; [reflexivity|].
      rewrite count_app, sleeps_app, Hp, Hs, E1, E2. simpl.
      repeat split; try lia. intros v' _. exists w, r. simpl. auto.
    + destruct (Hc _ eq_refl) as [E1 [E2 [E3 E4]]]. subst rc'.
      destruct (IH g1 (rc - 1) Hws) as [g' [tr2 [o [E [B1 [B2 B3]]]]]].
      { simpl in Hlen. lia. }
      rewrite E. eexists; eexists; eexists. split; [reflexivity|].
      rewrite !count_app, !sleeps_app, !length_app, Hp, Hs, E3, E4. simpl.
      repeat split; try lia.
      intros v Hv'. destruct (B3 v Hv') as [w' [r [Hin Hw']]].
      exists w', r. simpl. auto.
  - unfold no_check_again in Hw. congruence.
  - eexists; eexists; eexists. split; [reflexivity|].
    rewrite Hp, Hs. simpl. repeat split; try lia. intros v Hv. discriminate.
Qed.

(** As long as the health check fails and the user asks to check again,
    the call goes on, with the retry count it started with. *)
Lemma check_again_goes_on : forall n code s t pc rc,
  translateCode (repeat world_check_again n) (mkGlobal false 0) code s t pc rc
  = None.
Proof.
  induction n as [|n IH]; intros code s t pc rc; [reflexivity|].
  cbn [repeat]. rewrite translateCode_cons.
  assert (E : exists tr,
             translateCode_body world_check_again code s t pc rc (mkGlobal false 0)
             = (mkGlobal false 0, tr, Returns (RetCall rc))).
  { eexists. rewrite translateCode_body_unfold.
    unfold try_catch, bind, health_gate, bind.
    rewrite checkApiHealth_probes by (vm_compute; discriminate).
    cbn [health_verdict world_check_again world_at health_reply reply_503
           isHealthy status Z.eqb Pos.eqb negb].
    rewrite testConnection_total.
    cbn [health_choice]. replace (is_choice (Some (js "Check Again")) "Check Again")
      with true by (vm_compute; reflexivity).
    run_monad. reflexivity. }
  destruct E as [tr E]. rewrite E, IH. reflexivity.
Qed.

(** C3, as stated, fails: when the health check fails and the user picks
    [Check Again], the body calls itself with the retry count unchanged,
    also when that count is zero, and does so again in the next
    invocation: 25 invocations later the call has not completed. *)
Lemma retry_budget_counterexample :
  (exists g1 tr,
      translateCode_body world_check_again (js "x") (js "python") (js "java")
        true 0 initial_state
      = (g1, tr, Returns (RetCall 0)))
  /\ translateCode (repeat world_check_again 25) initial_state
       (js "x") (js "python") (js "java") true 0
     = None.
Proof.
  split.
  - eexists; eexists. vm_compute. reflexivity.
  - vm_compute. reflexivity.
Qed.

(** C3, amended. Every recursive call of the body is either a retry after
    a timed-out request or a 504, with the retry count positive and
    decremented by one (after one wait and one POST), or the re-check the
    user asked for
    in the dialog of a failed health check, with the retry count
    unchanged and no POST.  Hence, when the user never asks to check
    again, a call with retry count [rc] completes within
    [max rc 0 + 1] invocations, with at most that many POSTs and at most
    [max rc 0] waits; at zero it completes in one invocation without a
    wait, and with a failure unless the POST was answered 2xx. *)
Theorem retry_budget_bounds_the_retries : forall code s t pc,
  (forall w rc g g1 tr rc',
      translateCode_body w code s t pc rc g = (g1, tr, Returns (RetCall rc')) ->
      (rc' = rc - 1 /\ 0 < rc /\ sleeps tr = [Num 1000]
       /\ count is_post tr = 1%nat)
      \/ (rc' = rc /\ is_choice (health_choice w) "Check Again" = true
          /\ count is_post tr = 0%nat /\ sleeps tr = []))
  /\ (forall ws g rc,
        Forall no_check_again ws ->
        (Z.to_nat rc < length ws)%nat ->
        exists g' tr o,
          translateCode ws g code s t pc rc = Some (g', tr, o)
          /\ (count is_post tr <= Z.to_nat rc + 1)%nat
          /\ (length (sleeps tr) <= Z.to_nat rc)%nat
          /\ (forall v, o = Success v ->
                exists w r,
                  In w ws /\ post_reply w = Replied r /\ 200 <= status r < 300))
  /\ (forall w ws g rc,
        no_check_again w ->
        rc <= 0 ->
        exists g' tr o,
          translateCode (w :: ws) g code s t pc rc = Some (g', tr, o)
          /\ (count is_post tr <= 1)%nat
          /\ sleeps tr = []
          /\ (forall v, o = Success v ->
                exists r, post_reply w = Replied r /\ 200 <= status r < 300)).
Proof.
  intros code s t pc. split; [|split].
  - intros w rc g g1 tr rc'. apply translateCode_body_recursion.
  - intros ws g rc. apply translateCode_terminates.
  - intros w ws g rc Hw Hrc.
    destruct (translateCode_terminates code s t pc [w] g rc) as [g' [tr [o [E [B1 [B2 B3]]]]]].
    { constructor; [exact Hw|constructor]. }
    { simpl. lia. }
    exists g', tr, o.
    replace (Z.to_nat rc) with 0%nat in * by lia.
    split; [|split; [|split]].
    + rewrite translateCode_cons in *.
      destruct (translateCode_body w code s t pc rc g) as [[g1 t1] [[]|e|[v|rc']]];
        try exact E.
      simpl in E. discriminate.
    + exact B1.
    + destruct (sleeps tr); [reflexivity|simpl in B2; lia].
    + intros v Hv. destruct (B3 v Hv) as [w' [r [[<-|[]] Hr]]]. eauto.
Qed.

Lemma retry_budget_witness :
  exists g' tr o,
    translateCode
      [world_at clock0 reply_200 None reply_timeout;
       world_at (clock0 + 11000) reply_200 None reply_timeout]
      initial_state (js "x") (js "python") (js "java") true DEFAULT_RETRY_COUNT
    = Some (g', tr, o)
    /\ (count is_post tr <= Z.to_nat DEFAULT_RETRY_COUNT + 1)%nat
    /\ (length (sleeps tr) <= Z.to_nat DEFAULT_RETRY_COUNT)%nat
    /\ (forall v, o = Success v ->
          exists w r,
            In w [world_at clock0 reply_200 None reply_timeout;
                  world_at (clock0 + 11000) reply_200 None reply_timeout]
            /\ post_reply w = Replied r /\ 200 <= status r < 300).
Proof.
  apply (proj1 (proj2 (retry_budget_bounds_the_retries
                         (js "x") (js "python") (js "java") true))).
  - repeat constructor.
  - vm_compute. lia.
Defined.

(* ===================================================================== *)
(** * HTTP 429 *)
(* ===================================================================== *)

(** What both [catch] blocks would do with an Axios error that carries a
    429 response: wait for [retry-after] seconds (5 when the header is
    absent) and call again with the retry count decremented. *)
Lemma rate_limit_handler : forall rc code message r g,
  status r = 429 ->
  code_is code "ECONNABORTED" = false ->
  0 < rc ->
  inner_catch rc (AxiosError code message (Some r) true) g
  = (g, [Sleep (retryAfter r)], Returns (RetCall (rc - 1))).
Proof.
  intros rc code message r g Hs Hc Hrc. unfold inner_catch, status_is.
  rewrite Hc, Hs. cbn [Z.eqb Pos.eqb orb].
  replace (rc >? 0) with true by (symmetry; rewrite Z.gtb_ltb; now apply Z.ltb_lt).
  run_monad. reflexivity.
Qed.

Lemma retryAfter_header :
  retryAfter (mkResponse 429 (js "Too Many Requests") (Some (js "2")) None None)
  = Num 2000
  /\ retryAfter (mkResponse 429 (js "Too Many Requests") None None None)
     = Num 5000.
Proof. split; vm_compute; reflexivity. Qed.

(** That handler is never reached: the POST is made with
    [validateStatus: status < 500], so Axios resolves a 429 and the
    response is turned into a plain error, which each [catch] block only
    prefixes. *)
Lemma reply_429_fails_at_once : forall w ws g code s t pc rc g1 t1 r,
  health_gate w rc g = (g1, t1, Normal tt) ->
  Z.of_nat (length code) <= MAX_CODE_LENGTH ->
  isLanguagePairSupported s t = true ->
  post_reply w = Replied r ->
  status r = 429 ->
  translateCode (w :: ws) g code s t pc rc
  = Some (g1, t1 ++ [HttpPost (apiEndpoint w) (mkRequest code s t pc)],
          Failure (PlainError
                     (js "Translation failed: " ++ js "Translation failed: "
                        ++ js "Translation failed: "
                        ++ or_else (data_message r)
                             (or_else (Some (statusText r))
                                (js "Request failed with status "
                                   ++ str_of_Z (status r)))))).
Proof.
  intros w ws g code s t pc rc g1 t1 r Hg Hl Hs Hr H429.
  rewrite translateCode_cons.
  rewrite (translateCode_body_after_gate w code s t pc rc g g1 t1
             [HttpPost (apiEndpoint w) (mkRequest code s t pc)]
             (Throws (PlainError
                        (js "Translation failed: " ++ js "Translation failed: "
                           ++ or_else (data_message r)
                                (or_else (Some (statusText r))
                                   (js "Request failed with status "
                                      ++ str_of_Z (status r))))))).
  - reflexivity.
  - exact Hg.
  - rewrite request_phase_admitted by assumption.
    apply attempt_resolved_non_2xx; [exact Hr|lia|lia].
Qed.

(** C4, on the code: the transport answers every POST with HTTP 429 and
    [retry-after: 2], the retry count is 1.  [translateCode] posts once,
    does not wait, does not retry, and fails at once with the status
    text under three prefixes, not with the rate-limit failure. *)
Theorem rate_limited_reply_is_not_retried :
  translateCode
    [world_at clock0 reply_200 None reply_429;
     world_at (clock0 + 2000) reply_200 None reply_429]
    initial_state (js "x") (js "python") (js "java") true DEFAULT_RETRY_COUNT
  = Some (mkGlobal true clock0,
          [HttpGet (js "https://translate.u16p.com/api/v1/health");
           HttpPost default_endpoint
             (mkRequest (js "x") (js "python") (js "java") true)],
          Failure (PlainError
                     (js "Translation failed: Translation failed: Translation failed: Too Many Requests")))
  /\ Failure (PlainError
                (js "Translation failed: Translation failed: Translation failed: Too Many Requests"))
     <> RateLimitedFailure.
Proof.
  split.
  - vm_compute. reflexivity.
  - vm_compute. discriminate.
Qed.

(* ===================================================================== *)
(** * Timeouts and HTTP 504 *)
(* ===================================================================== *)


(** The schedule of the outer [catch] block, which no Axios error
    reaches. *)
Lemma outer_catch_schedule : forall w rc g,
  0 < rc ->
  outer_catch w rc
    (AxiosError (Some (js "ECONNABORTED")) (js "timeout of 10000ms exceeded")
       None true) g
  = (g, [Sleep (Num (Qred (backoffTime rc + inject_Z (jitter w))))],
     Returns (RetCall (rc - 1))).
Proof.
  intros w rc g Hrc. unfold outer_catch.
  replace (code_is (Some (js "ECONNABORTED")) "ECONNABORTED") with true
    by (vm_compute; reflexivity).
  cbn [orb].
  replace (rc >? 0) with true by (symmetry; rewrite Z.gtb_ltb; now apply Z.ltb_lt).
  run_monad. reflexivity.
Qed.

(** The sibling path: a request that times out ([ECONNABORTED]) with the
    default retry count is retried after a wait of 1000 ms, which is
    min(1000 * 2^0, 30000) with a jitter of 0; when the request times out
    again the retry count is exhausted and the call fails with the
    timed-out failure. *)
Example timed_out_request_is_retried :
  translateCode worlds_timeout_then_success initial_state
    (js "x") (js "python") (js "java") true DEFAULT_RETRY_COUNT
  = Some (mkGlobal true clock0,
          [HttpGet (js "https://translate.u16p.com/api/v1/health");
           HttpPost default_endpoint
             (mkRequest (js "x") (js "python") (js "java") true);
           Sleep (Num 1000);
           HttpPost default_endpoint
             (mkRequest (js "x") (js "python") (js "java") true)],
          Success (js "print(1)"))
  /\ translateCode
       [world_at clock0 reply_200 None reply_timeout;
        world_at (clock0 + 11000) reply_200 None reply_timeout]
       initial_state (js "x") (js "python") (js "java") true DEFAULT_RETRY_COUNT
     = Some (mkGlobal true clock0,
             [HttpGet (js "https://translate.u16p.com/api/v1/health");
              HttpPost default_endpoint
                (mkRequest (js "x") (js "python") (js "java") true);
              Sleep (Num 1000);
              HttpPost default_endpoint
                (mkRequest (js "x") (js "python") (js "java") true)],
             ServiceUnavailableFailure).
Proof.
  split; vm_compute; reflexivity.
Qed.

(** C5, on the code: the first request is aborted by the timer that
    [translateCode] arms on its [AbortController] (Axios reports
    [ERR_CANCELED]), the retry count is the default 1, and a second
    request would be answered with a translation.  The claim has the
    aborted request retried after a wait of 1000 to 2000 ms; the call
    posts once, does not wait and does not retry, and fails with the
    message of a request without a response, which is not the timed-out
    failure either.  Both handlers of a time-out test [ECONNABORTED] and
    the status 504 only. *)
Theorem aborted_request_is_not_retried :
  0 < DEFAULT_RETRY_COUNT
  /\ timed_out reply_aborted = false
  /\ translateCode
       [world_at clock0 reply_200 None reply_aborted;
        world_at (clock0 + 11000) reply_200 None (reply_translated fenced_print)]
       initial_state (js "x") (js "python") (js "java") true DEFAULT_RETRY_COUNT
     = Some (mkGlobal true clock0,
             [HttpGet (js "https://translate.u16p.com/api/v1/health");
              HttpPost default_endpoint
                (mkRequest (js "x") (js "python") (js "java") true)],
             Failure (PlainError
                        (js "Translation failed: No response received from the translation service. Please check your connection.")))
  /\ Failure (PlainError
                (js "Translation failed: No response received from the translation service. Please check your connection."))
     <> ServiceUnavailableFailure
  /\ (forall rc g,
        outer_catch (world_at clock0 reply_200 None reply_aborted) rc
          (AxiosError (Some (js "ERR_CANCELED")) (js "canceled") None true) g
        = (g, [],
           Throws (PlainError
                     (js "No response received from the translation service. Please check your connection.")))).
Proof.
  split; [reflexivity|].
  split; [vm_compute; reflexivity|].
  split; [vm_compute; reflexivity|].
  split; [vm_compute; discriminate|].
  intros rc g. unfold outer_catch.
  replace (code_is (Some (js "ERR_CANCELED")) "ECONNABORTED") with false
    by (vm_compute; reflexivity).
  replace (code_is (Some (js "ERR_CANCELED")) "ECONNRESET") with false
    by (vm_compute; reflexivity).
  replace (code_is (Some (js "ERR_CANCELED")) "ETIMEDOUT") with false
    by (vm_compute; reflexivity).
  replace (code_is (Some (js "ERR_CANCELED")) "ENOTFOUND") with false
    by (vm_compute; reflexivity).
  cbn [orb status_is]. rewrite andb_false_r. reflexivity.
Qed.

(* ===================================================================== *)
(** * Empty translations *)
(* ===================================================================== *)

(** C6, as stated, fails on the kind of the failure: a 2xx response whose
    [translated_code] is the empty string (which normalizes to the empty
    string) is reported as a response without [translated_code], not as
    an empty translation. *)
Lemma empty_payload_counterexample :
  codeWithoutMarkdown [] = []
  /\ outcome_of
       (translateCode [world_at clock0 reply_200 None (reply_translated [])]
          initial_state (js "x") (js "python") (js "java") true
          DEFAULT_RETRY_COUNT)
     = Some MissingPayloadFailure
  /\ MissingPayloadFailure <> EmptyPayloadFailure.
Proof.
  split; [vm_compute; reflexivity|].
  split; [vm_compute; reflexivity|].
  vm_compute. discriminate.
Qed.

Lemma success_is_never_empty : forall code s t pc ws g rc g' tr v,
  translateCode ws g code s t pc rc = Some (g', tr, Success v) -> v <> [].
Proof.
  intros code s t pc.
  induction ws as [|w ws IH]; intros g rc g' tr v H; [discriminate|].
  rewrite translateCode_cons in H.
  destruct (translateCode_body w code s t pc rc g) as [[g1 t1] c] eqn:Hb.
  destruct c as [[]|e|[v'|rc']].
  - discriminate.
  - inversion H; subst.
    destruct (translateCode_body_cases w code s t pc rc g)
      as [g2 [t2 [[[Hg [tr1 [c [Hr Hb']]]]|[[Hc [Hl Hb']]|[msg Hb']]] _]]];
      rewrite Hb in Hb'; try discriminate.
    destruct (request_phase_spec w code s t pc rc g2)
      as [tr' [c' [Hr' [_ [_ [_ Hv]]]]]].
    rewrite Hr in Hr'. inversion Hr'; subst tr' c'.
    destruct c as [[]|e|r]; [discriminate|]. cbn [rethrown] in Hb'.
    inversion Hb'; subst. now destruct (Hv _ eq_refl).
  - destruct (translateCode ws g1 code s t pc rc') as [[[g2 t2] o]|] eqn:E;
      [|discriminate].
    inversion H; subst. eapply IH. exact E.
Qed.

(** C6, amended. A success of [translateCode] always carries a non-empty
    text.  A 2xx response whose [translated_code] is a non-empty string
    that normalizes to the empty string is a failure of kind
    [EmptyPayload]; a 2xx response whose [translated_code] is the empty
    string, or that has no [translated_code] at all, is a failure too,
    reported as a response without [translated_code]. *)
Theorem empty_translation_is_a_failure : forall code s t pc,
  (forall ws g rc g' tr v,
      translateCode ws g code s t pc rc = Some (g', tr, Success v) -> v <> [])
  /\ (forall w ws g rc g1 t1 r raw,
        health_gate w rc g = (g1, t1, Normal tt) ->
        Z.of_nat (length code) <= MAX_CODE_LENGTH ->
        isLanguagePairSupported s t = true ->
        post_reply w = Replied r ->
        200 <= status r < 300 ->
        translated_code r = Some raw ->
        codeWithoutMarkdown raw = [] ->
        translateCode (w :: ws) g code s t pc rc
        = Some (g1, t1 ++ [HttpPost (apiEndpoint w) (mkRequest code s t pc)],
                if truthy raw then EmptyPayloadFailure
                else MissingPayloadFailure))
  /\ (forall w ws g rc g1 t1 r,
        health_gate w rc g = (g1, t1, Normal tt) ->
        Z.of_nat (length code) <= MAX_CODE_LENGTH ->
        isLanguagePairSupported s t = true ->
        post_reply w = Replied r ->
        200 <= status r < 300 ->
        translated_code r = None ->
        translateCode (w :: ws) g code s t pc rc
        = Some (g1, t1 ++ [HttpPost (apiEndpoint w) (mkRequest code s t pc)],
                MissingPayloadFailure)).
Proof.
  intros code s t pc. split; [|split].
  - apply success_is_never_empty.
  - intros w ws g rc g1 t1 r raw Hg Hl Hs Hr H2 Hraw Hempty.
    rewrite translateCode_cons.
    rewrite (translateCode_body_after_gate w code s t pc rc g g1 t1
               [HttpPost (apiEndpoint w) (mkRequest code s t pc)]
               (if truthy raw then
                  Throws (PlainError (js "Translation failed: "
                                        ++ js "Received empty translation from the server"))
                else
                  Throws (PlainError (js "Translation failed: "
                                        ++ js "Invalid response format from translation service: Missing translated_code")))).
    + destruct (truthy raw); reflexivity.
    + exact Hg.
    + rewrite request_phase_admitted by assumption.
      rewrite (attempt_2xx w code s t pc rc g1 r raw Hr H2 Hraw).
      rewrite Hempty. cbn [truthy]. reflexivity.
  - intros w ws g rc g1 t1 r Hg Hl Hs Hr H2 Hraw.
    rewrite translateCode_cons.
    rewrite (translateCode_body_after_gate w code s t pc rc g g1 t1
               [HttpPost (apiEndpoint w) (mkRequest code s t pc)]
               (Throws (PlainError (js "Translation failed: "
                                      ++ js "Invalid response format from translation service: Missing translated_code")))).
    + reflexivity.
    + exact Hg.
    + rewrite request_phase_admitted by assumption.
      exact (attempt_2xx_without_payload w code s t pc rc g1 r Hr H2 Hraw).
Qed.

(** A payload of white space only, with a fresh and healthy cached state. *)
Lemma empty_translation_witness :
  translateCode [world_at 1000 reply_200 None (reply_translated (js "   "))]
    initial_state (js "x") (js "python") (js "java") true DEFAULT_RETRY_COUNT
  = Some (initial_state,
          [HttpPost default_endpoint
             (mkRequest (js "x") (js "python") (js "java") true)],
          EmptyPayloadFailure).
Proof.
  apply (proj1 (proj2 (empty_translation_is_a_failure
                         (js "x") (js "python") (js "java") true))
           (world_at 1000 reply_200 None (reply_translated (js "   "))) []
           initial_state DEFAULT_RETRY_COUNT initial_state []
           (mkResponse 200 (js "OK") None None (Some (js "   "))) (js "   "));
    vm_compute;
    first [reflexivity | discriminate | split; [discriminate|reflexivity]].
Defined.

(* ===================================================================== *)
(** * The health-check URL *)
(* ===================================================================== *)

(** A pattern of literal code units anchored with [$] matches at a
    position exactly when what remains there is the literal. *)
Lemma match_literal_to_end : forall lit s : jsstring,
  match_here (map Chr lit) true s = if str_eqb s lit then Some [] else None.
Proof.
  induction lit as [|c lit IH]; intros s.
  - destruct s; reflexivity.
  - destruct s as [|x s]; [reflexivity|].
    cbn [map match_here str_eqb]. rewrite IH.
    destruct (N.eqb x c); reflexivity.
Qed.

Lemma search_literal_suffix : forall lit p : jsstring,
  search (mkRegex false (map Chr lit) true) (p ++ lit) = Some (p, []).
Proof.
  intros lit. induction p as [|c p IH].
  - cbn [app]. destruct lit as [|x lit].
    + reflexivity.
    + cbn [search atoms to_end]. rewrite match_literal_to_end, str_eqb_refl.
      reflexivity.
  - cbn [app search atoms to_end from_start]. rewrite match_literal_to_end.
    destruct (str_eqb (c :: p ++ lit) lit) eqn:E.
    + apply str_eqb_eq in E. apply (f_equal (@List.length N)) in E.
      simpl in E. rewrite length_app in E. lia.
    + rewrite IH. reflexivity.
Qed.

Lemma search_literal_none : forall lit s : jsstring,
  (forall p, s <> p ++ lit) ->
  search (mkRegex false (map Chr lit) true) s = None.
Proof.
  intros lit. induction s as [|c s IH]; intros H.
  - cbn [search atoms to_end]. rewrite match_literal_to_end.
    destruct (str_eqb [] lit) eqn:E; [|reflexivity].
    apply str_eqb_eq in E. exfalso. apply (H []). now rewrite <- E.
  - cbn [search atoms to_end from_start]. rewrite match_literal_to_end.
    destruct (str_eqb (c :: s) lit) eqn:E.
    + apply str_eqb_eq in E. exfalso. apply (H []). exact E.
    + rewrite IH; [reflexivity|].
      intros p E'. apply (H (c :: p)). simpl. now rewrite E'.
Qed.

(** X1. The health check is sent to the endpoint with its trailing
    [/translate] replaced by [/health]; an endpoint that does not end in
    [/translate] is used as it is, so that the health check is a GET of
    the translation endpoint itself. *)
Theorem health_check_url_of_endpoint : forall w g,
  API_HEALTH_CHECK_INTERVAL <= now w - lastApiCheck g ->
  (forall base,
      exists g1 h,
        checkApiHealth w (base ++ js "/translate") g
        = (g1, [HttpGet (base ++ js "/health")], Normal h))
  /\ (forall endpoint,
        (forall base, endpoint <> base ++ js "/translate") ->
        exists g1 h,
          checkApiHealth w endpoint g = (g1, [HttpGet endpoint], Normal h)).
Proof.
  intros w g H. split.
  - intros base. rewrite (checkApiHealth_probes _ _ _ H).
    unfold healthCheckUrl, replace, translate_suffix_re.
    rewrite search_literal_suffix, app_nil_r. eauto.
  - intros endpoint Hn. rewrite (checkApiHealth_probes _ _ _ H).
    unfold healthCheckUrl, replace, translate_suffix_re.
    rewrite (search_literal_none _ _ Hn). eauto.
Qed.

Lemma health_check_url_witness :
  exists g1 h,
    checkApiHealth (world_at clock0 reply_200 None reply_200)
      (js "https://translate.u16p.com/api/v1" ++ js "/translate") initial_state
    = (g1, [HttpGet (js "https://translate.u16p.com/api/v1" ++ js "/health")],
       Normal h).
Proof.
  apply (proj1 (health_check_url_of_endpoint
                  (world_at clock0 reply_200 None reply_200) initial_state
                  ltac:(vm_compute; discriminate))).
Defined.

(* ===================================================================== *)
(** * More on the registry *)
(* ===================================================================== *)

Lemma table_has_no_loop :
  forallb (fun p => negb (str_eqb (from p) (to p))) SUPPORTED_LANGUAGE_PAIRS = true.
Proof. vm_compute. reflexivity. Qed.

(** X2. No language is paired with itself: a pair [(a, a)] is never
    admissible, and the targets offered for a language never include that
    language. *)
Theorem registry_is_irreflexive : forall a : jsstring,
  isLanguagePairSupported a a = false
  /\ ~ In a (getSupportedTargetLanguages a).
Proof.
  intros a.
  assert (E : isLanguagePairSupported a a = false).
  { destruct (isLanguagePairSupported a a) eqn:E; [|reflexivity].
    apply supported_iff_in_table in E.
    pose proof table_has_no_loop as T. rewrite forallb_forall in T.
    specialize (T _ E). simpl in T. now rewrite str_eqb_refl in T. }
  split; [exact E|]. rewrite target_iff_supported. congruence.
Qed.

Lemma set_from_NoDup : forall xs seen, NoDup (set_from seen xs).
Proof.
  induction xs as [|x xs IH]; intros seen; simpl; [constructor|].
  destruct (existsb (str_eqb x) seen); [apply IH|].
  constructor; [|apply IH]. rewrite set_from_In. simpl. tauto.
Qed.

(** X3. The targets offered for a source language are exactly the tags
    [t] such that the pair (source, t) is admissible, each listed once;
    the list is empty exactly when no pair has that source. *)
Theorem targets_are_the_admissible_ones : forall source : jsstring,
  NoDup (getSupportedTargetLanguages source)
  /\ (forall t, In t (getSupportedTargetLanguages source)
                <-> isLanguagePairSupported source t = true)
  /\ (getSupportedTargetLanguages source = []
      <-> forall t, isLanguagePairSupported source t = false).
Proof.
  intros source. split; [apply set_from_NoDup|]. split.
  - intros t. apply target_iff_supported.
  - split.
    + intros E t. destruct (isLanguagePairSupported source t) eqn:H; [|reflexivity].
      apply target_iff_supported in H. rewrite E in H. destruct H.
    + intros H. destruct (getSupportedTargetLanguages source) as [|t l] eqn:E;
        [reflexivity|].
      assert (Ht : In t (getSupportedTargetLanguages source))
        by (rewrite E; now left).
      apply target_iff_supported in Ht. rewrite H in Ht. discriminate.
Qed.

(* ===================================================================== *)
(** * More on the normalizer *)
(* ===================================================================== *)

Lemma after_line_break_app : forall info rest : jsstring,
  ~ In LF info -> after_line_break (info ++ LF :: rest) = Some rest.
Proof.
  induction info as [|c info IH]; intros rest H.
  - simpl. reflexivity.
  - simpl. destruct (N.eqb_spec c LF) as [->|Hc].
    + exfalso. apply H. now left.
    + apply IH. intros Hin. apply H. now right.
Qed.

Lemma after_line_break_split : forall s rest : jsstring,
  after_line_break s = Some rest -> exists l, s = l ++ rest.
Proof.
  induction s as [|c s IH]; intros rest H; [discriminate|].
  simpl in H. destruct (N.eqb c LF).
  - inversion H; subst. now exists [c].
  - destruct (IH _ H) as [l ->]. now exists (c :: l).
Qed.

Lemma strip_trailing_fence_suffix : forall body : jsstring,
  strip_trailing_fence (body ++ LF :: fence) = body.
Proof.
  intros body. rewrite <- replace_closing_fence. unfold replace.
  rewrite search_closing_fence_suffix. simpl. apply app_nil_r.
Qed.

(** X4. Unwrapping what was wrapped: a payload made of an opening fence
    line (the delimiter and any info string without a line break), the
    code, a line break and the closing delimiter normalizes to the code,
    trimmed. *)
Theorem normalizer_unwraps_a_fenced_block : forall info body : jsstring,
  ~ In LF info ->
  codeWithoutMarkdown (fence ++ info ++ LF :: body ++ LF :: fence) = trim body.
Proof.
  intros info body H. unfold codeWithoutMarkdown.
  rewrite replace_opening_fence, replace_closing_fence.
  unfold strip_leading_fence, fence at 1. cbn [app].
  rewrite !N.eqb_refl. cbn [andb].
  rewrite (after_line_break_app info (body ++ LF :: fence) H).
  now rewrite strip_trailing_fence_suffix.
Qed.

Lemma normalizer_unwraps_witness :
  codeWithoutMarkdown
    (fence ++ js "python" ++ LF :: (js "  print(1) ") ++ LF :: fence)
  = trim (js "  print(1) ").
Proof.
  apply (normalizer_unwraps_a_fenced_block (js "python") (js "  print(1) ")).
  vm_compute. intros H.
  repeat (destruct H as [H|H]; [discriminate|]). exact H.
Defined.

(** X5. A payload that neither starts with the delimiter nor ends with a
    line break and the delimiter is only trimmed. *)
Theorem normalizer_only_trims_unfenced_text : forall raw : jsstring,
  firstn 3 raw <> fence ->
  (forall body, raw <> body ++ LF :: fence) ->
  codeWithoutMarkdown raw = trim raw.
Proof.
  intros raw H1 H2. unfold codeWithoutMarkdown.
  rewrite replace_opening_fence.
  assert (E : strip_leading_fence raw = raw).
  { unfold strip_leading_fence. destruct raw as [|a [|b [|c t]]]; try reflexivity.
    destruct (N.eqb_spec a BACKTICK) as [->|]; [|reflexivity].
    destruct (N.eqb_spec b BACKTICK) as [->|]; [|reflexivity].
    destruct (N.eqb_spec c BACKTICK) as [->|]; [|reflexivity].
    exfalso. apply H1. reflexivity. }
  rewrite E. unfold replace. now rewrite (search_closing_fence_none _ H2).
Qed.

Lemma normalizer_only_trims_witness :
  codeWithoutMarkdown (js " print(1) ") = trim (js " print(1) ").
Proof.
  apply normalizer_only_trims_unfenced_text.
  - vm_compute. discriminate.
  - intros body E. apply (f_equal (@rev N)) in E.
    rewrite rev_app_distr in E. vm_compute in E. discriminate.
Defined.

(** X6. The normalizer only cuts at the two ends: its result is a
    contiguous piece of the payload, so the code in between is never
    altered and the result is never longer than the payload. *)
Theorem normalizer_returns_a_piece_of_the_payload : forall raw : jsstring,
  (exists l r, raw = l ++ codeWithoutMarkdown raw ++ r)
  /\ (length (codeWithoutMarkdown raw) <= length raw)%nat.
Proof.
  intros raw.
  assert (P : exists l r, raw = l ++ codeWithoutMarkdown raw ++ r).
  { unfold codeWithoutMarkdown.
    rewrite replace_opening_fence, replace_closing_fence.
    assert (L : exists l, raw = l ++ strip_leading_fence raw).
    { unfold strip_leading_fence.
      destruct raw as [|a [|b [|c t]]]; try (now exists []).
      destruct (N.eqb a BACKTICK && N.eqb b BACKTICK && N.eqb c BACKTICK);
        [|now exists []].
      destruct (after_line_break t) as [rest|] eqn:E; [|now exists []].
      destruct (after_line_break_split _ _ E) as [l ->].
      now exists (a :: b :: c :: l). }
    destruct L as [l1 L].
    set (s := strip_leading_fence raw) in *.
    assert (T : exists r, s = strip_trailing_fence s ++ r).
    { unfold strip_trailing_fence.
      destruct (str_eqb (skipn (length s - 4) s) (LF :: fence)).
      - exists (skipn (length s - 4) s). now rewrite firstn_skipn.
      - exists []. now rewrite app_nil_r. }
    destruct T as [r1 T].
    destruct (trim_split (strip_trailing_fence s)) as [l2 [r2 [E _]]].
    exists (l1 ++ l2), (r2 ++ r1).
    rewrite L, T at 1. rewrite E at 1.
    now rewrite <- !app_assoc. }
  split; [exact P|].
  destruct P as [l [r E]]. rewrite E at 2. rewrite !length_app. lia.
Qed.

(* ===================================================================== *)
(** * More on [translateCode] *)
(* ===================================================================== *)

(** What the health check itself does, in one statement. *)
Lemma checkApiHealth_result : forall w endpoint g,
  exists g0 t0 h,
    checkApiHealth w endpoint g = (g0, t0, Normal h)
    /\ (t0 = [] \/ t0 = [HttpGet (healthCheckUrl endpoint)]).
Proof.
  intros w endpoint g.
  destruct (Z.lt_ge_cases (now w - lastApiCheck g) API_HEALTH_CHECK_INTERVAL) as [H|H].
  - rewrite (checkApiHealth_cached _ _ _ H). eauto 6.
  - rewrite (checkApiHealth_probes _ _ _ H). eauto 6.
Qed.

Lemma call_event_mono : forall code s t pc ws ws' e,
  (forall w, In w ws -> In w ws') ->
  call_event code s t pc ws e -> call_event code s t pc ws' e.
Proof.
  intros code s t pc ws ws' e H. destruct e; simpl; try tauto.
  - intros [w [Hw E]]. eauto.
  - intros [w [Hw E]]. eauto.
  - intros [E [w [Hw E']]]. eauto.
Qed.

Lemma health_gate_events : forall code s t pc w rc g g1 t1 c,
  health_gate w rc g = (g1, t1, c) ->
  Forall (call_event code s t pc [w]) t1
  /\ (forall e, c = Throws e -> exists m, e = PlainError m).
Proof.
  intros code s t pc w rc g g1 t1 c H.
  destruct (checkApiHealth_result w (apiEndpoint w) g) as [g0 [t0 [h [Hc Ht0]]]].
  assert (F0 : Forall (call_event code s t pc [w]) t0).
  { destruct Ht0 as [->| ->]; [constructor|].
    constructor; [|constructor]. simpl. exists w. split; [now left|reflexivity]. }
  assert (Fh : call_event code s t pc [w] (HttpHead (apiEndpoint w))).
  { simpl. exists w. split; [now left|reflexivity]. }
  destruct (isHealthy h) eqn:Hh.
  - rewrite (health_gate_healthy _ _ _ _ _ _ Hc Hh) in H. inversion H; subst.
    split; [exact F0|]. intros e He. discriminate.
  - rewrite (health_gate_unhealthy _ _ _ _ _ _ Hc Hh) in H.
    destruct (is_choice (health_choice w) "Check Again");
      [|destruct (is_choice (health_choice w) "Open Network Settings");
        [|destruct (is_choice (health_choice w) "Try Anyway")]];
      inversion H; subst; (split; [|intros e He; inversion He; eauto]);
      apply Forall_app; (split; [exact F0|]);
      repeat (constructor; try exact Fh; try exact I); reflexivity.
Qed.

Lemma request_phase_events : forall code s t pc w rc g,
  Forall (call_event code s t pc [w])
    (snd (fst (request_phase w code s t pc rc g))).
Proof.
  intros code s t pc w rc g.
  assert (Fp : call_event code s t pc [w]
                 (HttpPost (apiEndpoint w) (mkRequest code s t pc))).
  { simpl. split; [reflexivity|]. exists w. split; [now left|reflexivity]. }
  open_request_phase. split_ifs; cbn [fst snd];
    repeat (constructor; try exact Fp; try exact I);
    try reflexivity.
  all: exfalso; to_props; simpl in *; lia.
Qed.

(** One invocation: every event is one of [call_event], and whatever is
    thrown is a plain error whose message starts with
    [Translation failed: ]. *)
Lemma translateCode_body_events : forall code s t pc w rc g g1 tr c,
  translateCode_body w code s t pc rc g = (g1, tr, c) ->
  Forall (call_event code s t pc [w]) tr
  /\ (forall e, c = Throws e ->
        exists m, e = PlainError (js "Translation failed: " ++ m)).
Proof.
  intros code s t pc w rc g g1 tr c H.
  rewrite translateCode_body_unfold in H. unfold try_catch, bind in H.
  destruct (health_gate w rc g) as [[g0 t0] c0] eqn:Hg.
  destruct (health_gate_events code s t pc _ _ _ _ _ _ Hg) as [F0 Hthrow].
  destruct c0 as [[]|e0|r0].
  - pose proof (request_phase_events code s t pc w rc g0) as Fr.
    destruct (request_phase_spec w code s t pc rc g0)
      as [tr1 [c1 [Hr [_ [Ht _]]]]].
    rewrite Hr in *. cbn [fst snd] in Fr.
    destruct c1 as [[]|e1|r1].
    + destruct (Ht _ eq_refl) as [[m ->] _].
      unfold outer_catch, throw in H. injection H as <- <- <-.
      split; [rewrite app_nil_r; apply Forall_app; now split|].
      intros e He. injection He as <-. eexists. reflexivity.
    + injection H as <- <- <-. split; [apply Forall_app; now split|].
      intros e He. discriminate.
  - destruct (Hthrow _ eq_refl) as [m ->].
    unfold outer_catch, throw in H. injection H as <- <- <-.
    split; [now rewrite app_nil_r|].
    intros e He. injection He as <-. eexists. reflexivity.
  - injection H as <- <- <-. split; [exact F0|]. intros e He. discriminate.
Qed.

Lemma translateCode_trace_events : forall code s t pc ws g rc g' tr o,
  translateCode ws g code s t pc rc = Some (g', tr, o) ->
  Forall (call_event code s t pc ws) tr.
Proof.
  intros code s t pc.
  induction ws as [|w ws IH]; intros g rc g' tr o H; [discriminate|].
  rewrite translateCode_cons in H.
  destruct (translateCode_body w code s t pc rc g) as [[g1 t1] c] eqn:Hb.
  destruct (translateCode_body_events _ _ _ _ _ _ _ _ _ _ Hb) as [F1 _].
  assert (F1' : Forall (call_event code s t pc (w :: ws)) t1).
  { eapply Forall_impl; [|exact F1]. intros e. apply call_event_mono.
    intros w' [<-|[]]. now left. }
  destruct c as [[]|e|[v|rc']].
  - inversion H; subst. exact F1'.
  - inversion H; subst. exact F1'.
  - destruct (translateCode ws g1 code s t pc rc') as [[[g2 t2] o2]|] eqn:E;
      [|discriminate].
    inversion H; subst. apply Forall_app. split; [exact F1'|].
    eapply Forall_impl; [|exact (IH _ _ _ _ _ E)].
    intros e. apply call_event_mono. intros w' Hw'. now right.
Qed.




(** X8. Whatever goes wrong, [translateCode] rejects with a plain error
    whose message starts with [Translation failed: ]: no Axios error and
    no other message reaches the caller. *)
Theorem translateCode_failures_are_prefixed : forall code s t pc ws g rc g' tr e,
  translateCode ws g code s t pc rc = Some (g', tr, Failure e) ->
  exists m, e = PlainError (js "Translation failed: " ++ m).
Proof.
  intros code s t pc.
  induction ws as [|w ws IH]; intros g rc g' tr e H; [discriminate|].
  rewrite translateCode_cons in H.
  destruct (translateCode_body w code s t pc rc g) as [[g1 t1] c] eqn:Hb.
  destruct (translateCode_body_events _ _ _ _ _ _ _ _ _ _ Hb) as [_ Ht].
  destruct c as [[]|e1|[v|rc']].
  - inversion H; subst. now apply Ht.
  - discriminate.
  - destruct (translateCode ws g1 code s t pc rc') as [[[g2 t2] o2]|] eqn:E;
      [|discriminate].
    inversion H; subst. eapply IH. exact E.
Qed.

Lemma translateCode_failures_witness :
  exists m,
    PlainError (js "Translation failed: Translation failed: Translation failed: Too Many Requests")
    = PlainError (js "Translation failed: " ++ m).
Proof.
  apply (translateCode_failures_are_prefixed (js "x") (js "python") (js "java")
           true
           [world_at clock0 reply_200 None reply_429] initial_state
           DEFAULT_RETRY_COUNT (mkGlobal true clock0)
           [HttpGet (js "https://translate.u16p.com/api/v1/health");
            HttpPost default_endpoint
              (mkRequest (js "x") (js "python") (js "java") true)]).
  vm_compute. reflexivity.
Defined.

Lemma translateCode_fails_after_gate : forall w ws g code s t pc rc g1 t1 tr m,
  health_gate w rc g = (g1, t1, Normal tt) ->
  Z.of_nat (length code) <= MAX_CODE_LENGTH ->
  isLanguagePairSupported s t = true ->
  try_catch (attempt w code s t pc) (inner_catch rc) g1
  = (g1, tr, Throws (PlainError m)) ->
  translateCode (w :: ws) g code s t pc rc
  = Some (g1, t1 ++ tr, Failure (PlainError (js "Translation failed: " ++ m))).
Proof.
  intros w ws g code s t pc rc g1 t1 tr m Hg Hl Hs Ha.
  rewrite translateCode_cons.
  rewrite (translateCode_body_after_gate w code s t pc rc g g1 t1 tr
             (Throws (PlainError m)) Hg).
  - reflexivity.
  - now rewrite request_phase_admitted.
Qed.

Lemma translateCode_succeeds_after_gate : forall w ws g code s t pc rc g1 t1 tr v,
  health_gate w rc g = (g1, t1, Normal tt) ->
  Z.of_nat (length code) <= MAX_CODE_LENGTH ->
  isLanguagePairSupported s t = true ->
  try_catch (attempt w code s t pc) (inner_catch rc) g1
  = (g1, tr, Returns (RetValue v)) ->
  translateCode (w :: ws) g code s t pc rc = Some (g1, t1 ++ tr, Success v).
Proof.
  intros w ws g code s t pc rc g1 t1 tr v Hg Hl Hs Ha.
  rewrite translateCode_cons.
  rewrite (translateCode_body_after_gate w code s t pc rc g g1 t1 tr
             (Returns (RetValue v)) Hg).
  - reflexivity.
  - now rewrite request_phase_admitted.
Qed.

Lemma bad_status_code_is_no_timeout : forall z,
  code_is (bad_status_code z) "ECONNABORTED" = false.
Proof.
  intros z. unfold bad_status_code.
  destruct ((400 <=? z) && (z <? 500)); [vm_compute; reflexivity|].
  destruct ((500 <=? z) && (z <? 600)); vm_compute; reflexivity.
Qed.

(** A reply that is neither a time-out nor a 504 ends the attempt: a
    value or a plain error, after the one POST. *)
Lemma attempt_completes : forall w code s t pc rc g,
  timed_out (post_reply w) = false ->
  exists c,
    try_catch (attempt w code s t pc) (inner_catch rc) g
    = (g, [HttpPost (apiEndpoint w) (mkRequest code s t pc)], c)
    /\ ((exists v, c = Returns (RetValue v))
        \/ (exists m, c = Throws (PlainError m))).
Proof.
  intros w code s t pc rc g H. unfold attempt, inner_catch, timed_out in *.
  run_monad. unfold axios_settle, status_is.
  destruct (post_reply w) as [r|c m rq|m];
    rewrite ?bad_status_code_is_no_timeout; split_ifs;
    try (eexists; split; [reflexivity|]; solve [left; eauto | right; eauto]).
  all: exfalso; rewrite ?bad_status_code_is_no_timeout in *;
    to_props; simpl in *; try congruence; lia.
Qed.

(** X9. Only a timed-out request and an HTTP 504 are retried: after any
    other reply to the POST the call completes in that invocation, with
    exactly one POST and no wait, whatever the retry count. *)
Theorem only_timeouts_are_retried : forall w ws g code s t pc rc g1 t1,
  health_gate w rc g = (g1, t1, Normal tt) ->
  Z.of_nat (length code) <= MAX_CODE_LENGTH ->
  isLanguagePairSupported s t = true ->
  timed_out (post_reply w) = false ->
  exists o,
    translateCode (w :: ws) g code s t pc rc
    = Some (g1, t1 ++ [HttpPost (apiEndpoint w) (mkRequest code s t pc)], o).
Proof.
  intros w ws g code s t pc rc g1 t1 Hg Hl Hs Ht.
  destruct (attempt_completes w code s t pc rc g1 Ht) as [c [Ha [[v ->]|[m ->]]]].
  - exists (Success v).
    exact (translateCode_succeeds_after_gate w ws g code s t pc rc g1 t1 _ v
             Hg Hl Hs Ha).
  - exists (Failure (PlainError (js "Translation failed: " ++ m))).
    exact (translateCode_fails_after_gate w ws g code s t pc rc g1 t1 _ m
             Hg Hl Hs Ha).
Qed.

Lemma only_timeouts_are_retried_witness :
  exists o,
    translateCode
      [world_at 1000 reply_200 None reply_dns;
       world_at 2000 reply_200 None (reply_translated fenced_print)]
      initial_state (js "x") (js "python") (js "java") true 5
    = Some (initial_state,
            [] ++ [HttpPost default_endpoint
                     (mkRequest (js "x") (js "python") (js "java") true)],
            o).
Proof.
  apply (only_timeouts_are_retried
           (world_at 1000 reply_200 None reply_dns)
           [world_at 2000 reply_200 None (reply_translated fenced_print)]
           initial_state (js "x") (js "python") (js "java") true 5
           initial_state []);
    vm_compute; first [reflexivity | discriminate].
Defined.

(** X10. A failure of the transport other than [ECONNABORTED] (connection
    reset, DNS failure, connection time-out, abort, ...) fails the call at
    once, whatever the retry count: with [No response received ...] when
    the request was sent, with [Failed to send translation request: ]
    and the error message when it was not. *)
Theorem transport_failure_fails_at_once :
  forall w ws g code s t pc rc g1 t1 c m rq,
    health_gate w rc g = (g1, t1, Normal tt) ->
    Z.of_nat (length code) <= MAX_CODE_LENGTH ->
    isLanguagePairSupported s t = true ->
    post_reply w = Failed c m rq ->
    code_is c "ECONNABORTED" = false ->
    translateCode (w :: ws) g code s t pc rc
    = Some (g1, t1 ++ [HttpPost (apiEndpoint w) (mkRequest code s t pc)],
            Failure (PlainError
                       (js "Translation failed: "
                          ++ (if rq then
                                js "No response received from the translation service. Please check your connection."
                              else
                                js "Failed to send translation request: " ++ m)))).
Proof.
  intros w ws g code s t pc rc g1 t1 c m rq Hg Hl Hs Hr Hc.
  apply translateCode_fails_after_gate; try assumption.
  unfold attempt, inner_catch. run_monad. rewrite Hr.
  unfold axios_settle, status_is. rewrite Hc. cbn [orb].
  destruct rq; reflexivity.
Qed.

Lemma transport_failure_witness :
  translateCode [world_at 1000 reply_200 None reply_dns] initial_state
    (js "x") (js "python") (js "java") true DEFAULT_RETRY_COUNT
  = Some (initial_state,
          [] ++ [HttpPost default_endpoint
                   (mkRequest (js "x") (js "python") (js "java") true)],
          Failure (PlainError
                     (js "Translation failed: "
                        ++ js "No response received from the translation service. Please check your connection."))).
Proof.
  apply (transport_failure_fails_at_once
           (world_at 1000 reply_200 None reply_dns) [] initial_state
           (js "x") (js "python") (js "java") true DEFAULT_RETRY_COUNT
           initial_state [] (Some (js "ENOTFOUND"))
           (js "getaddrinfo ENOTFOUND translate.u16p.com") true);
    vm_compute; first [reflexivity | discriminate].
Defined.

(** X11. A 5xx reply other than 504 fails the call at once, whatever the
    retry count, with the status and the message of the server (or, when
    the body has none, the message of Axios) in the error. *)
Theorem server_error_fails_at_once : forall w ws g code s t pc rc g1 t1 r,
  health_gate w rc g = (g1, t1, Normal tt) ->
  Z.of_nat (length code) <= MAX_CODE_LENGTH ->
  isLanguagePairSupported s t = true ->
  post_reply w = Replied r ->
  500 <= status r ->
  status r <> 504 ->
  translateCode (w :: ws) g code s t pc rc
  = Some (g1, t1 ++ [HttpPost (apiEndpoint w) (mkRequest code s t pc)],
          Failure (PlainError
                     (js "Translation failed: "
                        ++ js "Translation failed (" ++ str_of_Z (status r)
                        ++ js "): "
                        ++ or_else (data_message r)
                             (or_else
                                (Some (js "Request failed with status code "
                                         ++ str_of_Z (status r)))
                                (js "Unknown error occurred"))))).
Proof.
  intros w ws g code s t pc rc g1 t1 r Hg Hl Hs Hr H5 H504.
  apply translateCode_fails_after_gate; try assumption.
  unfold attempt, inner_catch. run_monad. rewrite Hr.
  unfold axios_settle, status_is.
  replace ((status r =? 0) || (status r <? 500)) with false.
  - cbn iota.
    rewrite bad_status_code_is_no_timeout.
    replace (status r =? 504) with false by (symmetry; now apply Z.eqb_neq).
    cbn [orb].
    replace (status r =? 429) with false by (symmetry; apply Z.eqb_neq; lia).
    reflexivity.
  - symmetry. apply orb_false_iff. rewrite Z.eqb_neq, Z.ltb_ge. lia.
Qed.

Lemma server_error_witness :
  translateCode [world_at 1000 reply_200 None reply_503] initial_state
    (js "x") (js "python") (js "java") true DEFAULT_RETRY_COUNT
  = Some (initial_state,
          [] ++ [HttpPost default_endpoint
                   (mkRequest (js "x") (js "python") (js "java") true)],
          Failure (PlainError
                     (js "Translation failed: "
                        ++ js "Translation failed (" ++ str_of_Z 503
                        ++ js "): "
                        ++ or_else None
                             (or_else
                                (Some (js "Request failed with status code "
                                         ++ str_of_Z 503))
                                (js "Unknown error occurred"))))).
Proof.
  apply (server_error_fails_at_once
           (world_at 1000 reply_200 None reply_503) [] initial_state
           (js "x") (js "python") (js "java") true DEFAULT_RETRY_COUNT
           initial_state []
           (mkResponse 503 (js "Service Unavailable") None None None));
    vm_compute; first [reflexivity | discriminate].
Defined.

Lemma normalized_nonempty_raw : forall raw : jsstring,
  codeWithoutMarkdown raw <> [] -> truthy raw = true.
Proof.
  intros [|c raw] H; [|reflexivity].
  exfalso. apply H. vm_compute. reflexivity.
Qed.

Lemma translateCode_good_reply : forall w ws g code s t pc rc g1 t1 r raw,
  health_gate w rc g = (g1, t1, Normal tt) ->
  Z.of_nat (length code) <= MAX_CODE_LENGTH ->
  isLanguagePairSupported s t = true ->
  post_reply w = Replied r ->
  200 <= status r < 300 ->
  translated_code r = Some raw ->
  codeWithoutMarkdown raw <> [] ->
  translateCode (w :: ws) g code s t pc rc
  = Some (g1, t1 ++ [HttpPost (apiEndpoint w) (mkRequest code s t pc)],
          Success (codeWithoutMarkdown raw)).
Proof.
  intros w ws g code s t pc rc g1 t1 r raw Hg Hl Hs Hr H2 Hraw Hne.
  apply translateCode_succeeds_after_gate; try assumption.
  rewrite (attempt_2xx w code s t pc rc g1 r raw Hr H2 Hraw).
  rewrite (normalized_nonempty_raw raw Hne).
  destruct (codeWithoutMarkdown raw); [contradiction|reflexivity].
Qed.

(** X12. A 2xx reply whose [translated_code] normalizes to a non-empty
    text makes the call succeed with exactly that text, after one POST
    and without a wait. *)
Theorem translation_is_returned_normalized :
  forall w ws g code s t pc rc g1 t1 r raw,
    health_gate w rc g = (g1, t1, Normal tt) ->
    Z.of_nat (length code) <= MAX_CODE_LENGTH ->
    isLanguagePairSupported s t = true ->
    post_reply w = Replied r ->
    200 <= status r < 300 ->
    translated_code r = Some raw ->
    codeWithoutMarkdown raw <> [] ->
    translateCode (w :: ws) g code s t pc rc
    = Some (g1, t1 ++ [HttpPost (apiEndpoint w) (mkRequest code s t pc)],
            Success (codeWithoutMarkdown raw)).
Proof. exact translateCode_good_reply. Qed.

Lemma translation_is_returned_witness :
  translateCode [world_at 1000 reply_200 None (reply_translated fenced_print)]
    initial_state (js "x") (js "python") (js "java") true DEFAULT_RETRY_COUNT
  = Some (initial_state,
          [] ++ [HttpPost default_endpoint
                   (mkRequest (js "x") (js "python") (js "java") true)],
          Success (codeWithoutMarkdown fenced_print)).
Proof.
  apply (translation_is_returned_normalized
           (world_at 1000 reply_200 None (reply_translated fenced_print)) []
           initial_state (js "x") (js "python") (js "java") true
           DEFAULT_RETRY_COUNT initial_state []
           (mkResponse 200 (js "OK") None None (Some fenced_print)) fenced_print);
    vm_compute;
    first [reflexivity | discriminate | split; [discriminate|reflexivity]].
Defined.

(* ===================================================================== *)
(** * The cached health state and the dialog of an unavailable service *)
(* ===================================================================== *)

Lemma health_gate_cached_unhealthy : forall w rc g,
  now w - lastApiCheck g < API_HEALTH_CHECK_INTERVAL ->
  isApiHealthy g = false ->
  health_gate w rc g
  = if is_choice (health_choice w) "Check Again" then
      (mkGlobal false 0,
       [HttpHead (apiEndpoint w);
        ShowErrorMessage (unavailable_text None w) unavailable_items],
       Returns (RetCall rc))
    else if is_choice (health_choice w) "Open Network Settings" then
      (g,
       [HttpHead (apiEndpoint w);
        ShowErrorMessage (unavailable_text None w) unavailable_items;
        ExecuteCommand (js "workbench.action.network.settings")],
       Throws (PlainError (js "Please check your network settings and try again.")))
    else if is_choice (health_choice w) "Try Anyway" then
      (g,
       [HttpHead (apiEndpoint w);
        ShowErrorMessage (unavailable_text None w) unavailable_items],
       Normal tt)
    else
      (g,
       [HttpHead (apiEndpoint w);
        ShowErrorMessage (unavailable_text None w) unavailable_items],
       Throws (PlainError (js "Translation aborted by user"))).
Proof.
  intros w rc g Hf Hh.
  pose proof (checkApiHealth_cached w (apiEndpoint w) g Hf) as Hc.
  rewrite Hh in Hc.
  rewrite (health_gate_unhealthy w rc g g [] _ Hc eq_refl).
  cbn [app health_message]. rewrite Hh. reflexivity.
Qed.

Lemma unavailable_text_undefined : forall w,
  unavailable_text None w
  = js "The translation service is currently unavailable." ++ [LF]
      ++ js "Health Check: undefined" ++ [LF]
      ++ js "Connection Test: " ++ test_message (probe_result w).
Proof. intros w. vm_compute. reflexivity. Qed.

(** X13. While a failed health check is cached, every call probes the
    endpoint again with a HEAD request (without a health GET) and shows
    the dialog, whose text reports [Health Check: undefined] because the
    cached state has no message; unless the user picks one of [Try
    Anyway], [Check Again] or [Open Network Settings], the call is
    aborted without a POST and the state is left as it was. *)
Theorem cached_failure_prompts_on_every_call : forall w ws g code s t pc rc,
  now w - lastApiCheck g < API_HEALTH_CHECK_INTERVAL ->
  isApiHealthy g = false ->
  is_choice (health_choice w) "Check Again" = false ->
  is_choice (health_choice w) "Open Network Settings" = false ->
  is_choice (health_choice w) "Try Anyway" = false ->
  translateCode (w :: ws) g code s t pc rc
  = Some (g,
          [HttpHead (apiEndpoint w);
           ShowErrorMessage
             (js "The translation service is currently unavailable." ++ [LF]
                ++ js "Health Check: undefined" ++ [LF]
                ++ js "Connection Test: " ++ test_message (probe_result w))
             unavailable_items],
          Failure (PlainError (js "Translation failed: "
                                 ++ js "Translation aborted by user"))).
Proof.
  intros w ws g code s t pc rc Hf Hh H1 H2 H3.
  rewrite translateCode_cons, translateCode_body_unfold.
  unfold try_catch, bind.
  rewrite (health_gate_cached_unhealthy w rc g Hf Hh), H1, H2, H3.
  unfold outer_catch, throw. rewrite unavailable_text_undefined.
  reflexivity.
Qed.

Lemma cached_failure_witness :
  translateCode [world_at 1000 reply_503 None reply_200] (mkGlobal false 0)
    (js "x") (js "python") (js "java") true DEFAULT_RETRY_COUNT
  = Some (mkGlobal false 0,
          [HttpHead (apiEndpoint (world_at 1000 reply_503 None reply_200));
           ShowErrorMessage
             (js "The translation service is currently unavailable." ++ [LF]
                ++ js "Health Check: undefined" ++ [LF]
                ++ js "Connection Test: "
                ++ test_message (probe_result (world_at 1000 reply_503 None reply_200)))
             unavailable_items],
          Failure (PlainError (js "Translation failed: "
                                 ++ js "Translation aborted by user"))).
Proof.
  apply cached_failure_prompts_on_every_call;
    vm_compute; reflexivity.
Defined.

(** X14. [Try Anyway] lets the call go on, and a translation that then
    succeeds does not clear the cached failure: the state is unchanged,
    so the next call inside the caching window prompts again. *)
Theorem try_anyway_keeps_the_cached_failure :
  forall w ws g code s t pc rc r raw,
    now w - lastApiCheck g < API_HEALTH_CHECK_INTERVAL ->
    isApiHealthy g = false ->
    health_choice w = Some (js "Try Anyway") ->
    Z.of_nat (length code) <= MAX_CODE_LENGTH ->
    isLanguagePairSupported s t = true ->
    post_reply w = Replied r ->
    200 <= status r < 300 ->
    translated_code r = Some raw ->
    codeWithoutMarkdown raw <> [] ->
    translateCode (w :: ws) g code s t pc rc
    = Some (g,
            [HttpHead (apiEndpoint w);
             ShowErrorMessage (unavailable_text None w) unavailable_items;
             HttpPost (apiEndpoint w) (mkRequest code s t pc)],
            Success (codeWithoutMarkdown raw)).
Proof.
  intros w ws g code s t pc rc r raw Hf Hh Hc Hl Hs Hr H2 Hraw Hne.
  apply (translateCode_good_reply w ws g code s t pc rc g
           [HttpHead (apiEndpoint w);
            ShowErrorMessage (unavailable_text None w) unavailable_items]
           r raw); try assumption.
  rewrite (health_gate_cached_unhealthy w rc g Hf Hh), Hc.
  vm_compute. reflexivity.
Qed.

Lemma try_anyway_witness :
  translateCode
    [world_at 1000 reply_503 (Some (js "Try Anyway")) (reply_translated fenced_print)]
    (mkGlobal false 0) (js "x") (js "python") (js "java") true DEFAULT_RETRY_COUNT
  = Some (mkGlobal false 0,
          [HttpHead default_endpoint;
           ShowErrorMessage
             (unavailable_text None
                (world_at 1000 reply_503 (Some (js "Try Anyway"))
                   (reply_translated fenced_print)))
             unavailable_items;
           HttpPost default_endpoint
             (mkRequest (js "x") (js "python") (js "java") true)],
          Success (codeWithoutMarkdown fenced_print)).
Proof.
  apply (try_anyway_keeps_the_cached_failure
           (world_at 1000 reply_503 (Some (js "Try Anyway"))
              (reply_translated fenced_print)) []
           (mkGlobal false 0) (js "x") (js "python") (js "java") true
           DEFAULT_RETRY_COUNT
           (mkResponse 200 (js "OK") None None (Some fenced_print)) fenced_print);
    vm_compute;
    first [reflexivity | discriminate | split; [discriminate|reflexivity]].
Defined.

(** X15. [Check Again] forces a real health check even inside the caching
    window: the next invocation sends the health GET, and when the
    service answers 200 the translation goes through and the state
    records the service as healthy at the clock of that check. *)
Theorem check_again_forces_a_health_check :
  forall w1 w2 ws g code s t pc rc rh r raw,
    now w1 - lastApiCheck g < API_HEALTH_CHECK_INTERVAL ->
    isApiHealthy g = false ->
    health_choice w1 = Some (js "Check Again") ->
    API_HEALTH_CHECK_INTERVAL <= now w2 ->
    health_reply w2 = Replied rh ->
    status rh = 200 ->
    Z.of_nat (length code) <= MAX_CODE_LENGTH ->
    isLanguagePairSupported s t = true ->
    post_reply w2 = Replied r ->
    200 <= status r < 300 ->
    translated_code r = Some raw ->
    codeWithoutMarkdown raw <> [] ->
    translateCode (w1 :: w2 :: ws) g code s t pc rc
    = Some (mkGlobal true (now w2),
            [HttpHead (apiEndpoint w1);
             ShowErrorMessage (unavailable_text None w1) unavailable_items;
             HttpGet (healthCheckUrl (apiEndpoint w2));
             HttpPost (apiEndpoint w2) (mkRequest code s t pc)],
            Success (codeWithoutMarkdown raw)).
Proof.
  intros w1 w2 ws g code s t pc rc rh r raw
    Hf Hh Hc Hn Hrh H200 Hl Hs Hr H2 Hraw Hne.
  rewrite translateCode_cons, translateCode_body_unfold.
  unfold try_catch, bind.
  rewrite (health_gate_cached_unhealthy w1 rc g Hf Hh), Hc.
  replace (is_choice (Some (js "Check Again")) "Check Again") with true
    by (vm_compute; reflexivity).
  assert (Hp : checkApiHealth w2 (apiEndpoint w2) (mkGlobal false 0)
               = (mkGlobal true (now w2),
                  [HttpGet (healthCheckUrl (apiEndpoint w2))],
                  Normal (health_verdict w2))).
  { rewrite checkApiHealth_probes by (cbn [lastApiCheck]; lia).
    unfold health_verdict. rewrite Hrh, H200. reflexivity. }
  assert (Hg : health_gate w2 rc (mkGlobal false 0)
               = (mkGlobal true (now w2),
                  [HttpGet (healthCheckUrl (apiEndpoint w2))], Normal tt)).
  { apply (health_gate_healthy _ _ _ _ _ _ Hp).
    unfold health_verdict. rewrite Hrh, H200. reflexivity. }
  rewrite (translateCode_good_reply w2 ws (mkGlobal false 0) code s t pc rc
             _ _ r raw Hg Hl Hs Hr H2 Hraw Hne).
  reflexivity.
Qed.

Lemma check_again_witness :
  translateCode
    [world_at 1000 reply_503 (Some (js "Check Again")) reply_200;
     world_at clock0 reply_200 None (reply_translated fenced_print)]
    (mkGlobal false 0) (js "x") (js "python") (js "java") true DEFAULT_RETRY_COUNT
  = Some (mkGlobal true clock0,
          [HttpHead default_endpoint;
           ShowErrorMessage
             (unavailable_text None
                (world_at 1000 reply_503 (Some (js "Check Again")) reply_200))
             unavailable_items;
           HttpGet (healthCheckUrl default_endpoint);
           HttpPost default_endpoint
             (mkRequest (js "x") (js "python") (js "java") true)],
          Success (codeWithoutMarkdown fenced_print)).
Proof.
  apply (check_again_forces_a_health_check
           (world_at 1000 reply_503 (Some (js "Check Again")) reply_200)
           (world_at clock0 reply_200 None (reply_translated fenced_print)) []
           (mkGlobal false 0) (js "x") (js "python") (js "java") true
           DEFAULT_RETRY_COUNT
           (mkResponse 200 (js "OK") None None None)
           (mkResponse 200 (js "OK") None None (Some fenced_print)) fenced_print);
    vm_compute;
    first [reflexivity | discriminate | split; [discriminate|reflexivity]].
Defined.



(* ===================================================================== *)
(** * Language detection *)
(* ===================================================================== *)

Lemma endsWith_iff : forall s suffix : jsstring,
  endsWith s suffix = true <-> exists p, s = p ++ suffix.
Proof.
  intros s suffix. unfold endsWith. rewrite str_eqb_eq. split.
  - intros H. exists (firstn (length s - length suffix) s).
    pose proof (firstn_skipn (length s - length suffix) s) as F.
    rewrite H in F. symmetry. exact F.
  - intros [p ->]. rewrite length_app.
    replace (length p + length suffix - length suffix)%nat
      with (length p + 0)%nat by lia.
    rewrite skipn_app, Nat.add_0_r, skipn_all.
    replace (length p - length p)%nat with 0%nat by lia. reflexivity.
Qed.

Lemma lastIndexOf_from_absent : forall c s i found,
  ~ In c s -> lastIndexOf_from c s i found = found.
Proof.
  induction s as [|x s IH]; intros i found H; [reflexivity|].
  simpl. destruct (N.eqb_spec x c) as [->|Hx].
  - exfalso. apply H. now left.
  - apply IH. intros Hin. apply H. now right.
Qed.

Lemma lastIndexOf_from_last : forall c p q i found,
  ~ In c q ->
  lastIndexOf_from c (p ++ c :: q) i found = i + Z.of_nat (length p).
Proof.
  induction p as [|x p IH]; intros q i found H.
  - simpl. rewrite N.eqb_refl. rewrite lastIndexOf_from_absent by assumption. lia.
  - cbn [app lastIndexOf_from]. rewrite IH by assumption.
    cbn [length]. lia.
Qed.

Lemma lastIndexOf_from_map : forall (f : N -> N) c s i found,
  (forall x, N.eqb (f x) c = N.eqb x c) ->
  lastIndexOf_from c (map f s) i found = lastIndexOf_from c s i found.
Proof.
  intros f c. induction s as [|x s IH]; intros i found H; [reflexivity|].
  simpl. rewrite H. now apply IH.
Qed.

(** The extension of a name that ends with a dot and a dot-free rest is
    that dot and the rest; the extension of a name without a dot is the
    whole name. *)
Lemma extension_of_suffix : forall p q : jsstring,
  ~ In DOT q ->
  substring (p ++ DOT :: q) (lastIndexOf DOT (p ++ DOT :: q)) = DOT :: q.
Proof.
  intros p q H. unfold lastIndexOf, substring.
  rewrite lastIndexOf_from_last by assumption.
  rewrite Z.add_0_l, Nat2Z.id.
  rewrite skipn_app, skipn_all, Nat.sub_diag. reflexivity.
Qed.

Lemma extension_without_dot : forall s : jsstring,
  ~ In DOT s -> substring s (lastIndexOf DOT s) = s.
Proof.
  intros s H. unfold lastIndexOf, substring.
  rewrite lastIndexOf_from_absent by assumption. reflexivity.
Qed.

Lemma ascii_lower_dot : forall x, N.eqb (ascii_lower x) DOT = N.eqb x DOT.
Proof.
  intros x. unfold ascii_lower, DOT.
  destruct ((65 <=? x)%N && (x <=? 90)%N) eqn:E; [|reflexivity].
  apply andb_true_iff in E as [E1 E2].
  apply N.leb_le in E1, E2.
  destruct (N.eqb_spec (x + 32) 46); destruct (N.eqb_spec x 46); try reflexivity; lia.
Qed.

Lemma is_ascii_skipn : forall n s, is_ascii s -> is_ascii (skipn n s).
Proof.
  unfold is_ascii. induction n as [|n IH]; intros s H; [exact H|].
  destruct s as [|c s]; [constructor|]. simpl. apply IH. now inversion H.
Qed.

Lemma own_property_In : forall props key v,
  own_property props key = Some v -> In (key, v) props.
Proof.
  induction props as [|[k v'] props IH]; intros key v H; [discriminate|].
  simpl in H. destruct (str_eqb k key) eqn:E.
  - apply str_eqb_eq in E. inversion H; subst. now left.
  - right. now apply IH.
Qed.

Lemma extension_values_are_not_empty :
  forallb (fun kv => truthy (snd kv)) EXTENSION_TO_LANGUAGE = true.
Proof. vm_compute. reflexivity. Qed.

Lemma object_get_extension_falsy : forall key,
  value_truthy (object_get EXTENSION_TO_LANGUAGE key) = false ->
  object_get EXTENSION_TO_LANGUAGE key = Undefined.
Proof.
  intros key H. unfold object_get in *.
  destruct (own_property EXTENSION_TO_LANGUAGE key) as [v|] eqn:E.
  - apply own_property_In in E.
    pose proof extension_values_are_not_empty as T. rewrite forallb_forall in T.
    specialize (T _ E). simpl in *. congruence.
  - destruct (existsb (str_eqb key) object_prototype_names); [discriminate|reflexivity].
Qed.

Section Detection.

Variable toLowerCase : jsstring -> jsstring.
Hypothesis toLowerCase_ascii : lowers_ascii toLowerCase.

(** A name that ends with one of the four extensions of the fallback has
    that extension in the table already. *)
Lemma extension_in_table : forall fileName ext tag : jsstring,
  is_ascii ext ->
  map ascii_lower ext = ext ->
  (exists q, ext = DOT :: q /\ ~ In DOT q) ->
  object_get EXTENSION_TO_LANGUAGE ext = Str tag ->
  truthy tag = true ->
  endsWith fileName ext = true ->
  value_or
    (object_get EXTENSION_TO_LANGUAGE
       (toLowerCase (substring fileName (lastIndexOf DOT fileName))))
    (Str tag)
  = object_get EXTENSION_TO_LANGUAGE
      (toLowerCase (substring fileName (lastIndexOf DOT fileName))).
Proof.
  intros fileName ext tag Ha Hl [q [-> Hq]] Hg Ht He.
  apply endsWith_iff in He as [p ->].
  rewrite extension_of_suffix by assumption.
  rewrite (toLowerCase_ascii _ Ha), Hl, Hg.
  unfold value_or. cbn [value_truthy]. now rewrite Ht.
Qed.

Lemma fallback_is_dead : forall fileName : jsstring,
  value_or
    (object_get EXTENSION_TO_LANGUAGE
       (toLowerCase (substring fileName (lastIndexOf DOT fileName))))
    (if endsWith fileName (js ".vue") then Str (js "vue")
     else if endsWith fileName (js ".svelte") then Str (js "svelte")
     else if endsWith fileName (js ".jsx") then Str (js "jsx")
     else if endsWith fileName (js ".tsx") then Str (js "tsx")
     else Undefined)
  = object_get EXTENSION_TO_LANGUAGE
      (toLowerCase (substring fileName (lastIndexOf DOT fileName))).
Proof.
  intros fileName.
  assert (D : forall (ext tag : string),
             is_ascii (js ext) ->
             map ascii_lower (js ext) = js ext ->
             (exists q, js ext = DOT :: q /\ ~ In DOT q) ->
             object_get EXTENSION_TO_LANGUAGE (js ext) = Str (js tag) ->
             truthy (js tag) = true ->
             endsWith fileName (js ext) = true ->
             value_or
               (object_get EXTENSION_TO_LANGUAGE
                  (toLowerCase (substring fileName (lastIndexOf DOT fileName))))
               (Str (js tag))
             = object_get EXTENSION_TO_LANGUAGE
                 (toLowerCase (substring fileName (lastIndexOf DOT fileName)))).
  { intros ext tag. apply extension_in_table. }
  assert (A : forall s : string,
             forallb (fun c => (c <? 128)%N) (js s) = true -> is_ascii (js s)).
  { intros s H. unfold is_ascii. rewrite forallb_forall in H.
    apply Forall_forall. intros c Hc. apply N.ltb_lt. now apply H. }
  assert (Q : forall s : string,
             (match js s with
              | c :: q => N.eqb c DOT && negb (existsb (N.eqb DOT) q)
              | [] => false
              end) = true ->
             exists q, js s = DOT :: q /\ ~ In DOT q).
  { intros s H. destruct (js s) as [|c q]; [discriminate|].
    apply andb_true_iff in H as [H1 H2]. apply N.eqb_eq in H1. subst c.
    exists q. split; [reflexivity|]. intros Hin.
    apply negb_true_iff in H2.
    assert (existsb (N.eqb DOT) q = true); [|congruence].
    apply existsb_exists. exists DOT. split; [exact Hin|apply N.eqb_refl]. }
  destruct (endsWith fileName (js ".vue")) eqn:E1.
  { apply (D ".vue" "vue")%string; try (vm_compute; reflexivity); try assumption;
      [apply A|apply Q]; vm_compute; reflexivity. }
  destruct (endsWith fileName (js ".svelte")) eqn:E2.
  { apply (D ".svelte" "svelte")%string; try (vm_compute; reflexivity); try assumption;
      [apply A|apply Q]; vm_compute; reflexivity. }
  destruct (endsWith fileName (js ".jsx")) eqn:E3.
  { apply (D ".jsx" "jsx")%string; try (vm_compute; reflexivity); try assumption;
      [apply A|apply Q]; vm_compute; reflexivity. }
  destruct (endsWith fileName (js ".tsx")) eqn:E4.
  { apply (D ".tsx" "tsx")%string; try (vm_compute; reflexivity); try assumption;
      [apply A|apply Q]; vm_compute; reflexivity. }
  unfold value_or.
  destruct (value_truthy
              (object_get EXTENSION_TO_LANGUAGE
                 (toLowerCase (substring fileName (lastIndexOf DOT fileName)))))
    eqn:E; [reflexivity|].
  symmetry. now apply object_get_extension_falsy.
Qed.

Lemma getLanguageFromFileName_unfold : forall fileName : jsstring,
  getLanguageFromFileName toLowerCase fileName
  = match framework_language (toLowerCase fileName) frameworkFiles with
    | Some language => language
    | None =>
        object_get EXTENSION_TO_LANGUAGE
          (toLowerCase (substring fileName (lastIndexOf DOT fileName)))
    end.
Proof.
  intros fileName. unfold getLanguageFromFileName.
  destruct (framework_language (toLowerCase fileName) frameworkFiles);
    [reflexivity|].
  apply fallback_is_dead.
Qed.

End Detection.

Lemma lowers_ascii_instance : lowers_ascii ascii_toLowerCase.
Proof. intros s _. reflexivity. Qed.

(** X17. The fallback on [.vue], [.svelte], [.jsx] and [.tsx] never
    decides: the language of a file is that of the first framework file
    name its lower-cased name ends with, and otherwise the entry of the
    table for its lower-cased extension (the part from the last dot on),
    whatever the name. *)
Theorem extension_fallback_never_decides :
  forall toLowerCase, lowers_ascii toLowerCase ->
  forall fileName : jsstring,
    getLanguageFromFileName toLowerCase fileName
    = match framework_language (toLowerCase fileName) frameworkFiles with
      | Some language => language
      | None =>
          object_get EXTENSION_TO_LANGUAGE
            (toLowerCase (substring fileName (lastIndexOf DOT fileName)))
      end.
Proof. exact getLanguageFromFileName_unfold. Qed.

Lemma extension_fallback_witness :
  getLanguageFromFileName ascii_toLowerCase (js "src/App.VUE")
  = match framework_language (ascii_toLowerCase (js "src/App.VUE")) frameworkFiles with
    | Some language => language
    | None =>
        object_get EXTENSION_TO_LANGUAGE
          (ascii_toLowerCase
             (substring (js "src/App.VUE") (lastIndexOf DOT (js "src/App.VUE"))))
    end.
Proof.
  apply (extension_fallback_never_decides ascii_toLowerCase).
  intros s _. reflexivity.
Defined.

(** X18. Detection does not depend on the case of ASCII letters: two
    ASCII file names that differ only in case get the same language. *)
Theorem detection_ignores_case :
  forall toLowerCase, lowers_ascii toLowerCase ->
  forall f1 f2 : jsstring,
    is_ascii f1 -> is_ascii f2 ->
    map ascii_lower f1 = map ascii_lower f2 ->
    getLanguageFromFileName toLowerCase f1 = getLanguageFromFileName toLowerCase f2.
Proof.
  intros toLowerCase HL f1 f2 A1 A2 E.
  rewrite !(getLanguageFromFileName_unfold toLowerCase HL).
  rewrite (HL f1 A1), (HL f2 A2), E.
  assert (I : lastIndexOf DOT f1 = lastIndexOf DOT f2).
  { unfold lastIndexOf.
    rewrite <- (lastIndexOf_from_map ascii_lower DOT f1 0 (-1) ascii_lower_dot).
    rewrite <- (lastIndexOf_from_map ascii_lower DOT f2 0 (-1) ascii_lower_dot).
    now rewrite E. }
  unfold substring. rewrite I.
  rewrite (HL _ (is_ascii_skipn _ _ A1)), (HL _ (is_ascii_skipn _ _ A2)).
  now rewrite <- !skipn_map, E.
Qed.

Lemma detection_ignores_case_witness :
  getLanguageFromFileName ascii_toLowerCase (js "Main.PY")
  = getLanguageFromFileName ascii_toLowerCase (js "main.py").
Proof.
  apply (detection_ignores_case ascii_toLowerCase lowers_ascii_instance).
  - unfold is_ascii. repeat constructor.
  - unfold is_ascii. repeat constructor.
  - vm_compute. reflexivity.
Defined.

Lemma framework_files_are_suffix_free :
  forallb
    (fun a => forallb (fun b => str_eqb a b || negb (endsWith a b)) frameworkFiles)
    frameworkFiles = true.
Proof. vm_compute. reflexivity. Qed.

Lemma framework_files_have_framework_tags :
  forallb
    (fun file =>
       match object_get EXTENSION_TO_LANGUAGE file with
       | Str tag =>
           existsb (str_eqb tag)
             [js "spring"; js "flask"; js "django"; js "express"]
       | _ => false
       end)
    frameworkFiles = true.
Proof. vm_compute. reflexivity. Qed.

Lemma two_framework_suffixes : forall (s a b : jsstring),
  In a frameworkFiles -> In b frameworkFiles ->
  endsWith s a = true -> endsWith s b = true -> a = b.
Proof.
  intros s a b Ha Hb Ea Eb.
  apply endsWith_iff in Ea as [p Ep]. apply endsWith_iff in Eb as [q Eq].
  pose proof framework_files_are_suffix_free as T.
  rewrite forallb_forall in T.
  pose proof (T a Ha) as Tab. rewrite forallb_forall in Tab. specialize (Tab b Hb).
  pose proof (T b Hb) as Tba. rewrite forallb_forall in Tba. specialize (Tba a Ha).
  rewrite Ep in Eq. apply app_eq_app in Eq as [l [[E1 E2]|[E1 E2]]].
  - (* b = l ++ a *)
    apply orb_true_iff in Tba as [E|E].
    + apply str_eqb_eq in E. now symmetry.
    + apply negb_true_iff in E.
      assert (endsWith b a = true) by (apply endsWith_iff; eauto). congruence.
  - apply orb_true_iff in Tab as [E|E].
    + now apply str_eqb_eq in E.
    + apply negb_true_iff in E.
      assert (endsWith a b = true) by (apply endsWith_iff; eauto). congruence.
Qed.

Lemma framework_language_first : forall lower file files,
  (forall f, In f files -> In f frameworkFiles) ->
  In file files ->
  endsWith lower file = true ->
  framework_language lower files = Some (object_get EXTENSION_TO_LANGUAGE file).
Proof.
  intros lower file. induction files as [|f files IH]; intros Hsub Hin He.
  - destruct Hin.
  - simpl. destruct (endsWith lower f) eqn:Ef.
    + assert (f = file).
      { apply (two_framework_suffixes lower); try assumption.
        - apply Hsub. now left.
        - apply Hsub. exact Hin. }
      now subst.
    + destruct Hin as [->|Hin]; [congruence|].
      apply IH; try assumption. intros f' Hf'. apply Hsub. now right.
Qed.

(** X19. A framework file name wins over the extension: an ASCII file
    name whose lower case ends with one of the framework file names
    ([app.py], [server.js], [pom.xml], ...) gets the language of that
    framework file, which is one of spring, flask, django and express;
    so every name that ends in [app.py] is taken for Flask, never for
    Python. *)
Theorem framework_file_names_win :
  forall toLowerCase, lowers_ascii toLowerCase ->
  forall fileName file : jsstring,
    is_ascii fileName ->
    In file frameworkFiles ->
    endsWith (map ascii_lower fileName) file = true ->
    exists tag,
      getLanguageFromFileName toLowerCase fileName = Str tag
      /\ object_get EXTENSION_TO_LANGUAGE file = Str tag
      /\ In tag [js "spring"; js "flask"; js "django"; js "express"].
Proof.
  intros toLowerCase HL fileName file A Hin He.
  rewrite (getLanguageFromFileName_unfold toLowerCase HL), (HL _ A).
  rewrite (framework_language_first _ file frameworkFiles (fun f H => H) Hin He).
  pose proof framework_files_have_framework_tags as T.
  rewrite forallb_forall in T. specialize (T _ Hin).
  destruct (object_get EXTENSION_TO_LANGUAGE file) as [|tag|]; try discriminate.
  exists tag. split; [reflexivity|]. split; [reflexivity|].
  apply existsb_exists in T as [x [Hx E]]. apply str_eqb_eq in E. now subst.
Qed.

Lemma framework_file_names_witness :
  exists tag,
    getLanguageFromFileName ascii_toLowerCase (js "src/MyApp.py") = Str tag
    /\ object_get EXTENSION_TO_LANGUAGE (js "app.py") = Str tag
    /\ In tag [js "spring"; js "flask"; js "django"; js "express"].
Proof.
  apply (framework_file_names_win ascii_toLowerCase lowers_ascii_instance).
  - unfold is_ascii. repeat constructor.
  - vm_compute. tauto.
  - vm_compute. reflexivity.
Defined.

Lemma framework_files_have_a_dot :
  forallb (existsb (N.eqb DOT)) frameworkFiles = true.
Proof. vm_compute. reflexivity. Qed.

Lemma extension_keys_have_a_dot :
  forallb (fun kv => existsb (N.eqb DOT) (fst kv)) EXTENSION_TO_LANGUAGE = true.
Proof. vm_compute. reflexivity. Qed.

Lemma framework_language_none : forall lower files,
  (forall f, In f files -> endsWith lower f = false) ->
  framework_language lower files = None.
Proof.
  intros lower. induction files as [|f files IH]; intros H; [reflexivity|].
  simpl. rewrite (H f) by now left. apply IH. intros f' Hf'. apply H. now right.
Qed.

Lemma in_map_ascii_lower_dot : forall s : jsstring,
  In DOT (map ascii_lower s) -> In DOT s.
Proof.
  intros s H. apply in_map_iff in H as [x [E Hx]].
  pose proof (ascii_lower_dot x) as D. rewrite E, N.eqb_refl in D.
  symmetry in D. apply N.eqb_eq in D. now subst.
Qed.

Lemma ascii_lower_idempotent : forall s : jsstring,
  map ascii_lower (map ascii_lower s) = map ascii_lower s.
Proof.
  intros s. rewrite map_map. apply map_ext. intros c. unfold ascii_lower.
  destruct ((65 <=? c) && (c <=? 90))%N eqn:E; [|now rewrite E].
  apply andb_true_iff in E as [E1 E2].
  apply N.leb_le in E1. apply N.leb_le in E2.
  replace (c + 32 <=? 90)%N with false by (symmetry; apply N.leb_gt; lia).
  now rewrite andb_false_r.
Qed.

(** The members of [Object.prototype] whose names are in lower case. *)
Lemma lower_case_prototype_names : forall lower : jsstring,
  map ascii_lower lower = lower ->
  existsb (str_eqb lower) object_prototype_names = true
  <-> lower = js "constructor" \/ lower = js "__proto__".
Proof.
  intros lower Hl. split.
  - intros H. apply existsb_exists in H as [name [Hin E]].
    apply str_eqb_eq in E. subst name.
    unfold object_prototype_names in Hin. cbn [map In] in Hin.
    repeat (destruct Hin as [Hin|Hin];
            [first [ now left | now right
                   | exfalso; rewrite <- Hin in Hl; vm_compute in Hl;
                     discriminate ]|]).
    destruct Hin.
  - intros [->| ->]; vm_compute; reflexivity.
Qed.

(** X20. An ASCII file name without a dot gets no language tag: it cannot
    end with a framework file name, and the whole name, in lower case, is
    looked up as the extension, which no key of the table matches.  The
    result is [undefined], except for the names whose lower case is
    [constructor] or [__proto__]: for these the lookup returns the member
    inherited from [Object.prototype], a truthy value that is not a
    string and that passes the test [!sourceLanguage] of the callers. *)
Theorem name_without_a_dot_is_looked_up_whole :
  forall toLowerCase, lowers_ascii toLowerCase ->
  forall fileName : jsstring,
    is_ascii fileName ->
    ~ In DOT fileName ->
    getLanguageFromFileName toLowerCase fileName
    = (if existsb (str_eqb (map ascii_lower fileName)) object_prototype_names
       then Inherited (map ascii_lower fileName) else Undefined)
    /\ (value_truthy (getLanguageFromFileName toLowerCase fileName) = true
        <-> map ascii_lower fileName = js "constructor"
            \/ map ascii_lower fileName = js "__proto__")
    /\ (forall tag, getLanguageFromFileName toLowerCase fileName <> Str tag).
Proof.
  intros toLowerCase HL fileName A Hd.
  assert (Hl : ~ In DOT (map ascii_lower fileName)).
  { intros H. apply Hd. now apply in_map_ascii_lower_dot. }
  assert (E : getLanguageFromFileName toLowerCase fileName
              = if existsb (str_eqb (map ascii_lower fileName))
                     object_prototype_names
                then Inherited (map ascii_lower fileName) else Undefined).
  { rewrite (getLanguageFromFileName_unfold toLowerCase HL), (HL _ A).
    rewrite framework_language_none.
    - rewrite extension_without_dot by assumption. rewrite (HL _ A).
      unfold object_get.
      destruct (own_property EXTENSION_TO_LANGUAGE (map ascii_lower fileName))
        as [v|] eqn:E; [|reflexivity].
      apply own_property_In in E.
      pose proof extension_keys_have_a_dot as T. rewrite forallb_forall in T.
      specialize (T _ E). simpl in T.
      apply existsb_exists in T as [x [Hx Ex]]. apply N.eqb_eq in Ex. subst x.
      contradiction.
    - intros f Hf. destruct (endsWith (map ascii_lower fileName) f) eqn:E;
        [|reflexivity].
      apply endsWith_iff in E as [p E].
      pose proof framework_files_have_a_dot as T. rewrite forallb_forall in T.
      specialize (T _ Hf). apply existsb_exists in T as [x [Hx Ex]].
      apply N.eqb_eq in Ex. subst x.
      exfalso. apply Hl. rewrite E. apply in_or_app. now right. }
  split; [exact E|]. split.
  - rewrite E.
    rewrite <- (lower_case_prototype_names _ (ascii_lower_idempotent fileName)).
    destruct (existsb _ object_prototype_names); cbn [value_truthy];
      split; congruence.
  - intros tag. rewrite E.
    destruct (existsb _ object_prototype_names); discriminate.
Qed.

Lemma name_without_a_dot_witness :
  getLanguageFromFileName ascii_toLowerCase (js "Constructor")
  = Inherited (js "constructor").
Proof.
  refine (proj1 (name_without_a_dot_is_looked_up_whole ascii_toLowerCase
                   lowers_ascii_instance (js "Constructor") _ _)).
  - unfold is_ascii. repeat constructor.
  - vm_compute. intros H.
    repeat (destruct H as [H|H]; [discriminate|]). exact H.
Defined.

Lemma detected_languages_have_targets :
  forallb
    (fun tag => negb (Nat.eqb (length (getSupportedTargetLanguages tag)) 0))
    (map snd EXTENSION_TO_LANGUAGE
       ++ [js "vue"; js "svelte"; js "jsx"; js "tsx"]) = true.
Proof. vm_compute. reflexivity. Qed.

Lemma framework_language_some : forall lower files v,
  framework_language lower files = Some v ->
  exists file, In file files /\ v = object_get EXTENSION_TO_LANGUAGE file.
Proof.
  intros lower. induction files as [|f files IH]; intros v H; [discriminate|].
  simpl in H. destruct (endsWith lower f).
  - inversion H. exists f. split; [now left|reflexivity].
  - destruct (IH _ H) as [file [Hin E]]. exists file. split; [now right|exact E].
Qed.

Lemma object_get_Str : forall props key tag,
  object_get props key = Str tag -> In tag (map snd props).
Proof.
  intros props key tag H. unfold object_get in H.
  destruct (own_property props key) as [v|] eqn:E.
  - inversion H; subst. apply own_property_In in E.
    apply in_map_iff. exists (key, tag). now split.
  - destruct (existsb (str_eqb key) object_prototype_names); discriminate.
Qed.

(** X21. Every result of [getLanguageFromFileName] that passes the test
    [!sourceLanguage] of the callers is either a language tag that has at
    least one target in the registry, or a member inherited from
    [Object.prototype]: the latter when no framework file name matches
    and the lower-cased extension part of the name is the name of such a
    member (as for a file called [constructor]), and it is not a language
    tag.  This holds whatever the file name and whatever the engine's
    case conversion does. *)
Theorem detected_language_has_targets :
  forall (toLowerCase : jsstring -> jsstring) (fileName : jsstring),
    value_truthy (getLanguageFromFileName toLowerCase fileName) = true ->
    (exists tag,
        getLanguageFromFileName toLowerCase fileName = Str tag
        /\ getSupportedTargetLanguages tag <> [])
    \/ (exists name,
           getLanguageFromFileName toLowerCase fileName = Inherited name
           /\ In name object_prototype_names
           /\ name = toLowerCase (substring fileName (lastIndexOf DOT fileName))
           /\ framework_language (toLowerCase fileName) frameworkFiles = None).
Proof.
  intros toLowerCase fileName H.
  assert (T : forall tag,
             In tag (map snd EXTENSION_TO_LANGUAGE
                       ++ [js "vue"; js "svelte"; js "jsx"; js "tsx"]) ->
             getSupportedTargetLanguages tag <> []).
  { intros tag Hin.
    pose proof detected_languages_have_targets as T. rewrite forallb_forall in T.
    specialize (T _ Hin). intros E. rewrite E in T. discriminate. }
  unfold getLanguageFromFileName in *.
  destruct (framework_language (toLowerCase fileName) frameworkFiles)
    as [v|] eqn:E.
  - apply framework_language_some in E as [file [Hin ->]].
    pose proof framework_files_have_framework_tags as F.
    rewrite forallb_forall in F. specialize (F _ Hin).
    destruct (object_get EXTENSION_TO_LANGUAGE file) as [|tag|name] eqn:Eo;
      try discriminate.
    left. exists tag. split; [reflexivity|].
    apply T. apply in_or_app. left. eapply object_get_Str. exact Eo.
  - unfold value_or in *.
    destruct (value_truthy
                (object_get EXTENSION_TO_LANGUAGE
                   (toLowerCase (substring fileName (lastIndexOf DOT fileName)))))
      eqn:Et.
    + destruct (object_get EXTENSION_TO_LANGUAGE
                  (toLowerCase (substring fileName (lastIndexOf DOT fileName))))
        as [|tag|name] eqn:Eo; [discriminate| |].
      * left. exists tag. split; [reflexivity|].
        apply T. apply in_or_app. left. eapply object_get_Str. exact Eo.
      * right. exists name. unfold object_get in Eo.
        destruct (own_property EXTENSION_TO_LANGUAGE _); [discriminate|].
        destruct (existsb _ object_prototype_names) eqn:Ex; [|discriminate].
        injection Eo as <-.
        apply existsb_exists in Ex as [n [Hn En]]. apply str_eqb_eq in En.
        subst n. repeat split; [exact Hn].
    + left.
      destruct (endsWith fileName (js ".vue"));
        [eexists; split; [reflexivity|apply T; apply in_or_app; right; simpl; tauto]|].
      destruct (endsWith fileName (js ".svelte"));
        [eexists; split; [reflexivity|apply T; apply in_or_app; right; simpl; tauto]|].
      destruct (endsWith fileName (js ".jsx"));
        [eexists; split; [reflexivity|apply T; apply in_or_app; right; simpl; tauto]|].
      destruct (endsWith fileName (js ".tsx"));
        [eexists; split; [reflexivity|apply T; apply in_or_app; right; simpl; tauto]|].
      discriminate.
Qed.

Lemma detected_language_witness :
  (exists tag,
      getLanguageFromFileName ascii_toLowerCase (js "PAYROLL.CBL") = Str tag
      /\ getSupportedTargetLanguages tag <> [])
  \/ (exists name,
         getLanguageFromFileName ascii_toLowerCase (js "PAYROLL.CBL")
         = Inherited name
         /\ In name object_prototype_names
         /\ name = ascii_toLowerCase
                     (substring (js "PAYROLL.CBL")
                        (lastIndexOf DOT (js "PAYROLL.CBL")))
         /\ framework_language (ascii_toLowerCase (js "PAYROLL.CBL"))
              frameworkFiles = None).
Proof.
  apply (detected_language_has_targets ascii_toLowerCase (js "PAYROLL.CBL")).
  vm_compute. reflexivity.
Defined.

(* ===================================================================== *)
(** * The dialog *)
(* ===================================================================== *)

Lemma targets_have_display_names :
  forallb
    (fun p =>
       match own_property languageDisplayNames (to p) with
       | Some name => truthy name
       | None => false
       end)
    SUPPORTED_LANGUAGE_PAIRS = true.
Proof. vm_compute. reflexivity. Qed.

Lemma quick_pick_item : forall toUpperCase inherited_text source target,
  In target (getSupportedTargetLanguages source) ->
  isLanguagePairSupported source target = true
  /\ exists name,
       own_property languageDisplayNames target = Some name
       /\ quickPickItem toUpperCase inherited_text target
          = mkItem (Str name) (js "Translate to " ++ name) target.
Proof.
  intros toUpperCase inherited_text source target H.
  apply target_iff_supported in H. split; [exact H|].
  apply supported_iff_in_table in H.
  pose proof targets_have_display_names as T. rewrite forallb_forall in T.
  specialize (T _ H). cbn [to] in T.
  destruct (own_property languageDisplayNames target) as [name|] eqn:E;
    [|discriminate].
  exists name. split; [reflexivity|].
  unfold quickPickItem, object_get, value_or. rewrite E.
  cbn [value_truthy text_of]. rewrite T. reflexivity.
Qed.

(** X22. Every item of the quick pick stands for an admissible target of
    the source language, and is shown under the display name of that
    target from the table: the capitalised tag of the fallback is never
    used. *)
Theorem quick_pick_offers_admissible_targets :
  forall toUpperCase inherited_text (source : jsstring) (item : QuickPickItem),
    In item (map (quickPickItem toUpperCase inherited_text)
               (getSupportedTargetLanguages source)) ->
    isLanguagePairSupported source (lang item) = true
    /\ exists name,
         own_property languageDisplayNames (lang item) = Some name
         /\ label item = Str name
         /\ description item = js "Translate to " ++ name.
Proof.
  intros toUpperCase inherited_text source item H.
  apply in_map_iff in H as [target [<- Hin]].
  destruct (quick_pick_item toUpperCase inherited_text source target Hin)
    as [Hs [name [Hn E]]].
  rewrite E. cbn [lang label description]. eauto.
Qed.

Lemma quick_pick_witness :
  isLanguagePairSupported (js "vue") (js "react") = true
  /\ exists name,
       own_property languageDisplayNames (js "react") = Some name
       /\ Str (js "React") = Str name
       /\ js "Translate to React" = js "Translate to " ++ name.
Proof.
  apply (quick_pick_offers_admissible_targets (fun s => s) (fun s => s) (js "vue")
           (mkItem (Str (js "React")) (js "Translate to React") (js "react"))).
  vm_compute. left. reflexivity.
Defined.

(** X23. Whatever the user picks and whatever the transport does, every
    POST that the dialog causes carries the code and the source language
    it was opened with, the [preserveComments] setting, and a target
    language that is admissible for that source: the dialog never sends
    an unsupported pair.  For a source language without targets the
    dialog shows the error message, copies the e-mail address when the
    user asks for it, and does nothing else. *)
Theorem dialog_posts_admissible_pairs_only :
  forall toUpperCase inherited_text dw g code source g' tr,
    showTranslationDialog toUpperCase inherited_text dw g code source
    = Some (g', tr) ->
    (forall url payload,
        In (Core (HttpPost url payload)) tr ->
        source_code payload = code
        /\ from_lang payload = source
        /\ preserve_comments payload = preserveComments_setting dw
        /\ isLanguagePairSupported source (to_lang payload) = true)
    /\ (getSupportedTargetLanguages source = [] ->
        g' = g
        /\ tr = Core (ShowErrorMessage (no_targets_text source)
                        [js "Copy Email Address"])
                 :: (if is_choice (no_targets_choice dw) "Copy Email Address"
                     then [Core (ClipboardWriteText
                                   (js "info@unelmaplatforms.com"))]
                     else [])).
Proof.
  intros toUpperCase inherited_text dw g code source g' tr.
  unfold showTranslationDialog.
  assert (Hall : forall target,
             In target (getSupportedTargetLanguages source) ->
             isLanguagePairSupported source target = true).
  { intros target Ht.
    exact (proj1 (quick_pick_item toUpperCase inherited_text source target Ht)). }
  revert Hall. generalize (getSupportedTargetLanguages source).
  intros [|t0 targets] Hall; cbn [length Nat.eqb].
  - intros H. injection H as <- <-. split.
    + intros url payload [E|Hin]; [discriminate|].
      destruct (is_choice (no_targets_choice dw) "Copy Email Address");
        [destruct Hin as [E|[]]; discriminate|destruct Hin].
    + intros _. split; reflexivity.
  - destruct (match picked dw with
              | Some i =>
                  nth_error (map (quickPickItem toUpperCase inherited_text)
                               (t0 :: targets)) i
              | None => None
              end) as [selectedItem|] eqn:Ep.
    + assert (Hitem : In selectedItem
                        (map (quickPickItem toUpperCase inherited_text)
                           (t0 :: targets))).
      { destruct (picked dw) as [i|]; [|discriminate].
        eapply nth_error_In. exact Ep. }
      apply in_map_iff in Hitem as [target [<- Htarget]].
      cbn [lang quickPickItem].
      destruct (translateCode (translate_worlds dw) g code source target
                  (preserveComments_setting dw) DEFAULT_RETRY_COUNT)
        as [[[g1 tr1] o]|] eqn:Ec; [|discriminate].
      intros H. injection H as <- <-.
      split; [|discriminate].
      intros url payload Hin.
      pose proof (translateCode_trace_events _ _ _ _ _ _ _ _ _ _ Ec) as F.
      rewrite Forall_forall in F.
      cbn [app] in Hin. destruct Hin as [Hin|[Hin|Hin]]; try discriminate.
      apply in_app_or in Hin as [Hin|Hin].
      * apply in_map_iff in Hin as [e [Ee He]]. injection Ee as ->.
        destruct (F _ He) as [-> _].
        cbn [source_code from_lang preserve_comments to_lang].
        repeat split; try reflexivity. apply Hall. exact Htarget.
      * destruct (cancelled dw); [destruct Hin|].
        destruct o; destruct Hin as [Hin|[]]; discriminate.
    + intros H. injection H as <- <-. split; [|discriminate].
      intros url payload [Hin|[]]. discriminate.
Qed.

Lemma dialog_witness :
  exists g' tr,
    showTranslationDialog (fun s => s) (fun s => s)
      (mkDialogWorld None (Some 0%nat) true false
         [world_at 1000 reply_200 None (reply_translated fenced_print)])
      initial_state (js "x") (js "cobol") = Some (g', tr)
    /\ In (Core (HttpPost default_endpoint
                   (mkRequest (js "x") (js "cobol") (js "java") true))) tr
    /\ forall url payload,
        In (Core (HttpPost url payload)) tr ->
        source_code payload = js "x"
        /\ from_lang payload = js "cobol"
        /\ preserve_comments payload = true
        /\ isLanguagePairSupported (js "cobol") (to_lang payload) = true.
Proof.
  eexists. eexists.
  split; [vm_compute; reflexivity|].
  split; [vm_compute; tauto|].
  apply (proj1 (dialog_posts_admissible_pairs_only (fun s => s) (fun s => s)
                  (mkDialogWorld None (Some 0%nat) true false
                     [world_at 1000 reply_200 None (reply_translated fenced_print)])
                  initial_state (js "x") (js "cobol") _ _
                  ltac:(vm_compute; reflexivity))).
Defined.
